(** * Invoicing backend: invoice routes and schema migrations

    A shallow embedding of [app/routes/invoices.py] and of the migration
    units [migrations/002 .. 006], followed by the properties of the
    specification that concern them.

    Conventions of the embedding.
    - A Python [int] is a [Z] of any size.  An SQLite INTEGER is a 64-bit
      integer: the driver raises [OverflowError] when it binds an [int]
      outside that range, [CAST(.. AS INTEGER)] saturates, and a table has
      no rowid left past the largest 64-bit integer.
    - Python [float] and SQLite REAL values are binary64 numbers
      ([PrimFloat.float]); [float * int] raises [OverflowError] when the
      [int] is too large to convert, a NaN bound to a statement is stored
      as NULL, and a REAL column gives a negative zero back as zero.
    - Python [str] and SQLite TEXT values are [string]s holding the UTF-8
      encoding of the text, so that the order of strings is the order of
      their code points; SQLite counts characters in them and ends a text
      at its first NUL.
    - A transaction carries, next to the store, the journal of the
      statements that changed it so far, in the order they ran.
    - The column [invoices.created_at] (a wall-clock default) is read by
      no statement of the routes and is left out of the rows. *)

From Stdlib Require Import ZArith List String Ascii Bool Lia.
From Stdlib Require Import Floats DecimalString DecimalN DecimalPos.
From Stdlib Require Import Sorted Permutation.
Import ListNotations.

Open Scope Z_scope.

(* ------------------------------------------------------------------ *)
(** * Python values *)

Module Py.

(** [str(n)] and the replacement field [{n}] of an f-string. *)
Definition str_int (n : Z) : string := NilZero.string_of_int (Z.to_int n).

(** The decimal digits of [|n|], without sign. *)
Definition digits (n : Z) : string := NilZero.string_of_uint (N.to_uint (Z.abs_N n)).

Fixpoint zeros (k : nat) : string :=
  match k with
  | O => EmptyString
  | S k' => String "0" (zeros k')
  end.

(** Left padding with ['0'] up to [width] characters. *)
Definition zfill (width : nat) (s : string) : string :=
  (zeros (width - String.length s) ++ s)%string.

(** The replacement field [{n:03d}]: sign-aware zero padding to a total
    width of three characters, never truncating. *)
Definition format_03d (n : Z) : string :=
  if n <? 0 then String "-" (zfill 2 (digits n)) else zfill 3 (digits n).

(** [s.split(sep)] for a one-character separator. *)
Fixpoint split (sep : ascii) (s : string) : list string :=
  match s with
  | EmptyString => [EmptyString]
  | String c r =>
      if Ascii.eqb c sep then EmptyString :: split sep r
      else match split sep r with
           | p :: ps => String c p :: ps
           | [] => [String c EmptyString]
           end
  end.

(** The binary64 number nearest to the integer [q] (ties to even). *)
Definition nearest_float (q : Z) : float :=
  SF2Prim (binary_normalize prec emax q 0 false).

(** The least integer whose nearest binary64 number is not finite: half
    way between the largest finite number and [2 ^ 1024]. *)
Definition FLOAT_OVERFLOW : Z := 2 ^ 1024 - 2 ^ 970.

(** [float(q)], as the product [price * quantity] converts its integer
    operand: [None] stands for [OverflowError], raised when the nearest
    number is not finite. *)
Definition float_of_int (q : Z) : option float :=
  if Z.abs q <? FLOAT_OVERFLOW then Some (nearest_float q) else None.

(** The value of [x * q] for a float [x] and an int [q] that converts. *)
Definition mul_float_int (x : float) (q : Z) : float :=
  PrimFloat.mul x (nearest_float q).

End Py.

(* ------------------------------------------------------------------ *)
(** * SQLite expressions *)

Module Sql.

Definition INT64_MAX : Z := 9223372036854775807.
Definition INT64_MIN : Z := -9223372036854775808.

(** The integers the driver binds and a column of type INTEGER holds. *)
Definition is_int64 (z : Z) : bool := (INT64_MIN <=? z) && (z <=? INT64_MAX).

Definition clamp_int64 (z : Z) : Z := Z.max INT64_MIN (Z.min INT64_MAX z).

(** A string without its first [k] bytes. *)
Fixpoint drop (k : nat) (s : string) : string :=
  match k, s with
  | O, _ => s
  | S k', String _ r => drop k' r
  | S _, EmptyString => EmptyString
  end.

(** The text the string functions of SQLite see in a TEXT value: it ends
    at the first NUL. *)
Fixpoint text (s : string) : string :=
  match s with
  | EmptyString => EmptyString
  | String c r => if Ascii.eqb c Ascii.zero then EmptyString else String c (text r)
  end.

(** The bytes [10xxxxxx] that continue a UTF-8 character. *)
Definition is_continuation (c : ascii) : bool :=
  let n := Z.of_N (N_of_ascii c) in
  (128 <=? n) && (n <? 192).

Fixpoint skip_continuation (s : string) : string :=
  match s with
  | String c r => if is_continuation c then skip_continuation r else s
  | EmptyString => EmptyString
  end.

(** A string without its first character: one byte and, when that byte
    opens a multi-byte character, the continuation bytes after it. *)
Definition skip_char (s : string) : string :=
  match s with
  | EmptyString => EmptyString
  | String c r => if 192 <=? Z.of_N (N_of_ascii c) then skip_continuation r else r
  end.

Fixpoint drop_chars (k : nat) (s : string) : string :=
  match k with
  | O => s
  | S k' => drop_chars k' (skip_char s)
  end.

(** [SUBSTR(s, y)] for a start position [y >= 1]: the characters of [s]
    from the [y]-th on (positions count from 1). *)
Definition substr (s : string) (y : nat) : string := drop_chars (Nat.pred y) (text s).

(** The characters the text-to-integer conversion skips in front:
    tab, line feed, vertical tab, form feed, carriage return, space. *)
Definition is_space (c : ascii) : bool :=
  let n := Z.of_N (N_of_ascii c) in
  ((9 <=? n) && (n <=? 13)) || (n =? 32).

Fixpoint skip_spaces (s : string) : string :=
  match s with
  | String c r => if is_space c then skip_spaces r else s
  | EmptyString => EmptyString
  end.

Definition digit_of (c : ascii) : option Z :=
  let n := Z.of_N (N_of_ascii c) in
  if (48 <=? n) && (n <=? 57) then Some (n - 48) else None.

(** Value of the longest prefix of decimal digits, continuing from [acc]. *)
Fixpoint read_digits (s : string) (acc : Z) : Z :=
  match s with
  | String c r =>
      match digit_of c with
      | Some d => read_digits r (10 * acc + d)
      | None => acc
      end
  | EmptyString => acc
  end.

(** [CAST(s AS INTEGER)] for a TEXT value: leading spaces are skipped, the
    longest prefix that reads as an optionally signed decimal integer is
    taken (0 when there is none), and a value outside the 64-bit range
    becomes the nearest bound. *)
Definition cast_integer (s : string) : Z :=
  match skip_spaces s with
  | String "-" r => clamp_int64 (- read_digits r 0)
  | String "+" r => clamp_int64 (read_digits r 0)
  | t => clamp_int64 (read_digits t 0)
  end.

(** What a column of REAL affinity gives back for a number stored in it: a
    number without fractional part is kept as an integer, so that the sign
    of a zero is lost; any other number comes back as it went in. *)
Definition real (x : float) : float :=
  if PrimFloat.eqb x 0 then 0%float else x.

(** The aggregate [MAX(..)] over integer values: NULL on no row. *)
Fixpoint max (l : list Z) : option Z :=
  match l with
  | [] => None
  | x :: r => Some (match max r with
                    | None => x
                    | Some m => Z.max x m
                    end)
  end.

(** [COALESCE(v, d)]. *)
Definition coalesce (v : option Z) (d : Z) : Z :=
  match v with
  | Some x => x
  | None => d
  end.

End Sql.

(* ------------------------------------------------------------------ *)
(** * The persisted schema (migrations 002 to 005)

    Row fields carry the table aliases of the route queries:
    [p] products, [c] clients, [i] invoices, [ii] invoice_items. *)

Record product_row : Type := mk_product {
  p_id : Z;
  p_name : string;
  p_price : float
}.

Record client_row : Type := mk_client {
  c_id : Z;
  c_name : string;
  c_address : string;
  c_company_registration_no : string
}.

Record invoice_row : Type := mk_invoice {
  i_id : Z;
  i_invoice_no : string;
  i_issue_date : string;
  i_due_date : string;
  i_client_id : Z;
  i_address : string;
  i_tax : float;
  i_total : float
}.

Record invoice_item_row : Type := mk_invoice_item {
  ii_id : Z;
  ii_invoice_id : Z;
  ii_product_id : Z;
  ii_quantity : Z;
  ii_unit_price : float;
  ii_subtotal : float
}.

(** A table with [id INTEGER PRIMARY KEY AUTOINCREMENT]: its rows in
    rowid order and the largest rowid handed out so far. *)
Record table (row : Type) : Type := mk_table {
  rows : list row;
  seq : Z
}.

Arguments mk_table {row} _ _.
Arguments rows {row} _.
Arguments seq {row} _.

Definition empty_table {row : Type} : table row := mk_table [] 0.

(** The rowid AUTOINCREMENT gives the next row: one more than the largest
    rowid that is or ever was in the table.  The statements of the routes
    check that it is a 64-bit integer before they insert; the seed rows of
    migration 006 are inserted without that check. *)
Definition next_rowid {row : Type} (id : row -> Z) (t : table row) : Z :=
  1 + fold_right Z.max (seq t) (map id (rows t)).

Definition insert_row {row : Type} (id : row -> Z) (t : table row) (mk : Z -> row)
  : Z * table row :=
  let k := next_rowid id t in
  (k, mk_table (rows t ++ [mk k]) k).

(** [DELETE FROM t WHERE cond]. *)
Definition delete_where {row : Type} (cond : row -> bool) (t : table row) : table row :=
  mk_table (filter (fun r => negb (cond r)) (rows t)) (seq t).

(** The four tables a request handler works on. *)
Record store : Type := mk_store {
  products : table product_row;
  clients : table client_row;
  invoices : table invoice_row;
  invoice_items : table invoice_item_row
}.

Definition set_invoices (s : store) (t : table invoice_row) : store :=
  mk_store (products s) (clients s) t (invoice_items s).

Definition set_invoice_items (s : store) (t : table invoice_item_row) : store :=
  mk_store (products s) (clients s) (invoices s) t.

(* ------------------------------------------------------------------ *)
(** * Request and response models *)

Record InvoiceItemRequest : Type := mk_item_request {
  product_id : Z;
  quantity : Z
}.

Record InvoiceCreate : Type := mk_invoice_create {
  client_id : Z;
  issue_date : string;
  due_date : string;
  tax : float;
  items : list InvoiceItemRequest
}.

Record InvoiceItemResponse : Type := mk_item_response {
  item_id : Z;
  item_product_id : Z;
  item_product_name : string;
  item_quantity : Z;
  item_unit_price : float;
  item_subtotal : float
}.

Record ClientResponse : Type := mk_client_response {
  client_resp_id : Z;
  client_resp_name : string;
  client_resp_address : string;
  client_resp_company_registration_no : string
}.

Record InvoiceResponse : Type := mk_invoice_response {
  resp_id : Z;
  resp_invoice_no : string;
  resp_issue_date : string;
  resp_due_date : string;
  resp_client : ClientResponse;
  resp_address : string;
  resp_items : list InvoiceItemResponse;
  resp_tax : float;
  resp_total : float
}.

Record HTTPException : Type := mk_http_exception {
  status_code : Z;
  detail : string
}.

(** What a statement of a handler can raise: an [HTTPException] raised on
    purpose, or any other exception, kept with its text. *)
Inductive exn : Type :=
| HTTPError (e : HTTPException)
| OtherError (msg : string).

(** An [HTTPException] is read as the exception it is wherever an [exn] is
    expected, also under [Some]. *)
Coercion HTTPError : HTTPException >-> exn.
Arguments Some {A} & a.

(** Outcome of a request at the boundary. *)
Inductive result (A : Type) : Type :=
| Ok (a : A)
| Raise (e : HTTPException).

Arguments Ok {A} _.
Arguments Raise {A} _.

(* ------------------------------------------------------------------ *)
(** * Statements inside one transaction *)

(** The statements of the routes that change the database. *)
Inductive write : Type :=
| InsertInvoice (row : invoice_row)
| InsertInvoiceItem (row : invoice_item_row)
| DeleteInvoiceItems (invoice_id : Z)
| DeleteInvoice (invoice_id : Z).

(** What a statement that changes the database does to the store. *)
Definition apply_write (w : write) (s : store) : store :=
  match w with
  | InsertInvoice row =>
      set_invoices s (snd (insert_row i_id (invoices s) (fun _ => row)))
  | InsertInvoiceItem row =>
      set_invoice_items s (snd (insert_row ii_id (invoice_items s) (fun _ => row)))
  | DeleteInvoiceItems invoice_id =>
      set_invoice_items s
        (delete_where (fun ii => ii_invoice_id ii =? invoice_id) (invoice_items s))
  | DeleteInvoice invoice_id =>
      set_invoices s (delete_where (fun i => i_id i =? invoice_id) (invoices s))
  end.

(** An open transaction: the store as the statements run so far have left
    it, and the journal of those that changed it, oldest first. *)
Record transaction : Type := mk_transaction {
  current : store;
  journal : list write
}.

(** A statement either returns or raises; what it did to the transaction
    before it raised stays done until the transaction is rolled back. *)
Definition tx (A : Type) : Type := transaction -> (exn + A) * transaction.

Definition ret {A : Type} (a : A) : tx A := fun t => (inr a, t).

Definition bind {A B : Type} (m : tx A) (k : A -> tx B) : tx B :=
  fun t => match m t with
           | (inl e, t') => (inl e, t')
           | (inr a, t') => k a t'
           end.

Definition raise {A : Type} (e : exn) : tx A := fun t => (inl e, t).

Definition read {A : Type} (q : store -> A) : tx A := fun t => (inr (q (current t)), t).

(** Running a statement that changes the database. *)
Definition execute_write (w : write) : tx unit :=
  fun t => (inr tt, mk_transaction (apply_write w (current t)) (journal t ++ [w])).

Declare Scope tx_scope.
Delimit Scope tx_scope with tx.

Notation "x <- m ;; k" := (bind m (fun x => k))
  (at level 61, m at next level, right associativity) : tx_scope.
Notation "m ;; k" := (bind m (fun _ => k))
  (at level 61, right associativity) : tx_scope.

Definition overflow_error : exn :=
  OtherError "Python int too large to convert to SQLite INTEGER".

(** The driver binding the [int] parameters of a statement: an
    [OverflowError] when one of them is not a 64-bit integer. *)
Definition bind_ints (params : list Z) : tx unit :=
  fun t => if forallb Sql.is_int64 params then (inr tt, t) else (inl overflow_error, t).

(** [cursor.execute(sql, (param,))] for a SELECT with one [int] parameter,
    and the fetch that follows it. *)
Definition execute {A : Type} (q : Z -> store -> A) (param : Z) : tx A :=
  (bind_ints [param] ;; read (q param))%tx.

(** Modelled from the spec: [app.database.get_db] is not among the sources.
    The spec gives it as a scoped transaction: commit when the body
    completes, roll back on any exception.  The clauses that follow the
    [with] block of every handler re-raise an [HTTPException] unchanged and
    turn any other exception into a 500. *)
Definition with_get_db {A : Type} (body : tx A) (s : store) : store * result A :=
  match body (mk_transaction s []) with
  | (inr a, t) => (current t, Ok a)
  | (inl (HTTPError e), _) => (s, Raise e)
  | (inl (OtherError msg), _) =>
      (s, Raise (mk_http_exception 500 ("Database error: " ++ msg)%string))
  end.

(* ------------------------------------------------------------------ *)
(** * Helper functions of [app/routes/invoices.py] *)

(** The three lookups by primary key give the row a SELECT finds for a
    parameter the driver has bound; the statements that run them bind the
    parameter first.

    [SELECT id FROM clients WHERE id = ?], [fetchone()]. *)
Definition select_client (conn : store) (id : Z) : option client_row :=
  find (fun c => c_id c =? id) (rows (clients conn)).

(** [SELECT .. FROM products WHERE id = ?], [fetchone()]. *)
Definition select_product (conn : store) (id : Z) : option product_row :=
  find (fun p => p_id p =? id) (rows (products conn)).

(** [SELECT id FROM invoices WHERE id = ?], [fetchone()]. *)
Definition select_invoice (conn : store) (id : Z) : option invoice_row :=
  find (fun i => i_id i =? id) (rows (invoices conn)).

(** The numeric suffix the numbering query reads off an invoice number:
    [CAST(SUBSTR(invoice_no, 5) AS INTEGER)]. *)
Definition suffix_number (invoice_no : string) : Z :=
  Sql.cast_integer (Sql.substr invoice_no 5).

(** The f-string [f"INV-{invoice_number:03d}"]. *)
Definition invoice_no_of (invoice_number : Z) : string :=
  ("INV-" ++ Py.format_03d invoice_number)%string.

Definition get_next_invoice_number (conn : store) : string :=
  let max_num :=
    Sql.coalesce (Sql.max (map (fun i => suffix_number (i_invoice_no i))
                               (rows (invoices conn)))) 0 in
  let invoice_number := max_num + 1 in
  invoice_no_of invoice_number.

Definition bad_request (msg : string) : HTTPException := mk_http_exception 400 msg.

(** The loop over [enumerate(invoice.items)], entered at index [idx]. *)
Fixpoint validate_items (conn : store) (idx : Z) (l : list InvoiceItemRequest)
  : option exn :=
  match l with
  | [] => None
  | item :: rest =>
      if quantity item <=? 0 then
        Some (HTTPError (bad_request ("Item " ++ Py.str_int (idx + 1)
                                        ++ ": Quantity must be greater than 0")%string))
      else if negb (Sql.is_int64 (product_id item)) then Some overflow_error
      else
        match select_product conn (product_id item) with
        | None =>
            Some (HTTPError (bad_request ("Product " ++ Py.str_int (product_id item)
                                            ++ " not found")%string))
        | Some _ => validate_items conn (idx + 1) rest
        end
  end.

(** [validate_invoice_input conn invoice] is [Some e] when the function
    raises [e] and [None] when it returns.  It only reads [conn].  What it
    raises is one of its own [HTTPException]s or the [OverflowError] of the
    driver, which cannot bind an id that is not a 64-bit integer. *)
Definition validate_invoice_input (conn : store) (invoice : InvoiceCreate)
  : option exn :=
  let issue_parts := Py.split "-" (issue_date invoice) in
  let due_parts := Py.split "-" (due_date invoice) in
  if negb (List.length issue_parts =? 3)%nat || negb (List.length due_parts =? 3)%nat then
    Some (HTTPError (bad_request "Dates must be in format YYYY-MM-DD"))
  else if String.ltb (due_date invoice) (issue_date invoice) then
    Some (HTTPError (bad_request "Due date must be after or equal to issue date"))
  else if negb (Sql.is_int64 (client_id invoice)) then Some overflow_error
  else
    match select_client conn (client_id invoice) with
    | None =>
        Some (HTTPError (bad_request ("Client " ++ Py.str_int (client_id invoice)
                                        ++ " not found")%string))
    | Some _ =>
        match items invoice with
        | [] => Some (HTTPError (bad_request "Invoice must have at least one item"))
        | _ :: _ =>
            if PrimFloat.ltb (tax invoice) 0 then
              Some (HTTPError (bad_request "Tax cannot be negative"))
            else validate_items conn 0 (items invoice)
        end
    end.

(* ------------------------------------------------------------------ *)
(** * Statements of the handlers *)

(** The call [validate_invoice_input(conn, invoice)]. *)
Definition validate_stmt (invoice : InvoiceCreate) : tx unit :=
  fun t => match validate_invoice_input (current t) invoice with
           | Some e => (inl e, t)
           | None => (inr tt, t)
           end.

(** Subscripting the result of [fetchone()]: a [TypeError] on [None]. *)
Definition subscript {R A : Type} (row : option R) (col : R -> A) : tx A :=
  match row with
  | Some r => ret (col r)
  | None => raise (OtherError "'NoneType' object is not subscriptable")
  end.

(** [SELECT price FROM products WHERE id = ?] and [fetchone()["price"]]. *)
Definition fetch_price (id : Z) : tx float :=
  (row <- execute (fun id conn => select_product conn id) id ;; subscript row p_price)%tx.

(** [product_price * item.quantity]. *)
Definition multiply (x : float) (q : Z) : tx float :=
  match Py.float_of_int q with
  | Some y => ret (PrimFloat.mul x y)
  | None => raise (OtherError "int too large to convert to float")
  end.

(** The first loop of [create_invoice]: [subtotal += product_price * item.quantity]. *)
Fixpoint sum_items (l : list InvoiceItemRequest) (subtotal : float) : tx float :=
  match l with
  | [] => ret subtotal
  | item :: rest =>
      (product_price <- fetch_price (product_id item) ;;
       amount <- multiply product_price (quantity item) ;;
       sum_items rest (PrimFloat.add subtotal amount))%tx
  end.

(** What an INSERT raises when the table has no rowid left. *)
Definition full_error : exn := OtherError "database or disk is full".

(** [INSERT INTO invoices (..) VALUES (..)] followed by [cursor.lastrowid].
    The parameters are bound, the rowid is taken, then the constraints are
    checked: the columns are NOT NULL (a NaN is bound as NULL) and
    [invoice_no] is UNIQUE. *)
Definition insert_invoice (invoice_no issue due : string) (client : Z)
  (address : string) (tax_ total : float) : tx Z :=
  (bind_ints [client] ;;
   k <- read (fun conn => next_rowid i_id (invoices conn)) ;;
   taken <- read (fun conn => existsb (fun i => String.eqb (i_invoice_no i) invoice_no)
                                      (rows (invoices conn))) ;;
   if negb (Sql.is_int64 k) then raise full_error
   else if PrimFloat.is_nan tax_ then
     raise (OtherError "NOT NULL constraint failed: invoices.tax")
   else if PrimFloat.is_nan total then
     raise (OtherError "NOT NULL constraint failed: invoices.total")
   else if taken then
     raise (OtherError "UNIQUE constraint failed: invoices.invoice_no")
   else
     execute_write (InsertInvoice (mk_invoice k invoice_no issue due client address
                                              (Sql.real tax_) (Sql.real total))) ;;
     ret k)%tx.

(** [INSERT INTO invoice_items (..) VALUES (..)]. *)
Definition insert_invoice_item (invoice_id product quantity_ : Z)
  (unit_price subtotal : float) : tx unit :=
  (bind_ints [invoice_id; product; quantity_] ;;
   k <- read (fun conn => next_rowid ii_id (invoice_items conn)) ;;
   if negb (Sql.is_int64 k) then raise full_error
   else if PrimFloat.is_nan unit_price then
     raise (OtherError "NOT NULL constraint failed: invoice_items.unit_price")
   else if PrimFloat.is_nan subtotal then
     raise (OtherError "NOT NULL constraint failed: invoice_items.subtotal")
   else
     execute_write (InsertInvoiceItem (mk_invoice_item k invoice_id product quantity_
                                                       (Sql.real unit_price)
                                                       (Sql.real subtotal))))%tx.

(** The second loop of [create_invoice]. *)
Fixpoint insert_items (invoice_id : Z) (l : list InvoiceItemRequest) : tx unit :=
  match l with
  | [] => ret tt
  | item :: rest =>
      (product_price <- fetch_price (product_id item) ;;
       subtotal <- multiply product_price (quantity item) ;;
       insert_invoice_item invoice_id (product_id item) (quantity item) product_price subtotal ;;
       insert_items invoice_id rest)%tx
  end.

(** [.. FROM invoices i JOIN clients c ON i.client_id = c.id WHERE i.id = ?],
    [fetchone()]. *)
Definition select_invoice_join_client (invoice_id : Z) (conn : store)
  : option (invoice_row * client_row) :=
  hd_error
    (flat_map (fun i => map (pair i)
                          (filter (fun c => c_id c =? i_client_id i) (rows (clients conn))))
              (filter (fun i => i_id i =? invoice_id) (rows (invoices conn)))).

(** [.. FROM invoice_items ii JOIN products p ON ii.product_id = p.id
    WHERE ii.invoice_id = ? ORDER BY ii.id], [fetchall()]. *)
Definition select_items_join_product (invoice_id : Z) (conn : store)
  : list (invoice_item_row * product_row) :=
  flat_map (fun ii => map (pair ii)
                        (filter (fun p => p_id p =? ii_product_id ii) (rows (products conn))))
           (filter (fun ii => ii_invoice_id ii =? invoice_id) (rows (invoice_items conn))).

Definition item_response (row : invoice_item_row * product_row) : InvoiceItemResponse :=
  let (ii, p) := row in
  mk_item_response (ii_id ii) (ii_product_id ii) (p_name p)
                   (ii_quantity ii) (ii_unit_price ii) (ii_subtotal ii).

(** The response dictionary built from the joined invoice row; [cid] is the
    value put under ["client"]["id"]. *)
Definition build_response (cid : Z) (row : invoice_row * client_row)
  (items_rows : list (invoice_item_row * product_row)) : InvoiceResponse :=
  let (i, c) := row in
  mk_invoice_response (i_id i) (i_invoice_no i) (i_issue_date i) (i_due_date i)
    (mk_client_response cid (c_name c) (c_address c) (c_company_registration_no c))
    (i_address i) (map item_response items_rows) (i_tax i) (i_total i).

(* ------------------------------------------------------------------ *)
(** * API endpoints *)

Definition create_invoice_body (invoice : InvoiceCreate) : tx InvoiceResponse :=
  (validate_stmt invoice ;;
   client <- execute (fun id conn => select_client conn id) (client_id invoice) ;;
   invoice_no <- read get_next_invoice_number ;;
   subtotal <- sum_items (items invoice) 0%float ;;
   let total := PrimFloat.add subtotal (tax invoice) in
   address <- subscript client c_address ;;
   invoice_id <- insert_invoice invoice_no (issue_date invoice) (due_date invoice)
                   (client_id invoice) address (tax invoice) total ;;
   insert_items invoice_id (items invoice) ;;
   invoice_row <- execute select_invoice_join_client invoice_id ;;
   items_rows <- execute select_items_join_product invoice_id ;;
   row <- subscript invoice_row (fun r => r) ;;
   ret (build_response (client_id invoice) row items_rows))%tx.

Definition create_invoice (invoice : InvoiceCreate) (s : store)
  : store * result InvoiceResponse :=
  with_get_db (create_invoice_body invoice) s.

Definition not_found : HTTPException := mk_http_exception 404 "Invoice not found".

Definition get_invoice_body (invoice_id : Z) : tx InvoiceResponse :=
  (invoice_row <- execute select_invoice_join_client invoice_id ;;
   match invoice_row with
   | None => raise (HTTPError not_found)
   | Some row =>
       items_rows <- execute select_items_join_product invoice_id ;;
       ret (build_response (i_client_id (fst row)) row items_rows)
   end)%tx.

Definition get_invoice (invoice_id : Z) (s : store) : store * result InvoiceResponse :=
  with_get_db (get_invoice_body invoice_id) s.

(** [DELETE FROM invoice_items WHERE invoice_id = ?]. *)
Definition delete_invoice_items (invoice_id : Z) : tx unit :=
  (bind_ints [invoice_id] ;; execute_write (DeleteInvoiceItems invoice_id))%tx.

(** [DELETE FROM invoices WHERE id = ?]. *)
Definition delete_invoice_row (invoice_id : Z) : tx unit :=
  (bind_ints [invoice_id] ;; execute_write (DeleteInvoice invoice_id))%tx.

Definition delete_invoice_body (invoice_id : Z) : tx unit :=
  (found <- execute (fun id conn => select_invoice conn id) invoice_id ;;
   match found with
   | None => raise (HTTPError not_found)
   | Some _ =>
       delete_invoice_items invoice_id ;;
       delete_invoice_row invoice_id ;;
       ret tt
   end)%tx.

Definition delete_invoice (invoice_id : Z) (s : store) : store * result unit :=
  with_get_db (delete_invoice_body invoice_id) s.

(* ------------------------------------------------------------------ *)
(** * Sequences of requests *)

Inductive request : Type :=
| Create (invoice : InvoiceCreate)
| Delete (invoice_id : Z).

(** One request: the store it leaves and, for a create that succeeded, the
    invoice number it assigned. *)
Definition handle (r : request) (s : store) : store * option string :=
  match r with
  | Create invoice =>
      match create_invoice invoice s with
      | (s', Ok resp) => (s', Some (resp_invoice_no resp))
      | (s', Raise _) => (s', None)
      end
  | Delete invoice_id => (fst (delete_invoice invoice_id s), None)
  end.

(** The invoice numbers assigned along a sequence of requests, in order. *)
Fixpoint assigned_numbers (rs : list request) (s : store) : list string :=
  match rs with
  | [] => []
  | r :: rest =>
      let (s', no) := handle r s in
      match no with
      | Some n => n :: assigned_numbers rest s'
      | None => assigned_numbers rest s'
      end
  end.

(** The stores the API reaches from one whose invoice tables are empty. *)
Inductive reachable : store -> Prop :=
| reach_empty : forall p c k1 k2,
    reachable (mk_store p c (mk_table [] k1) (mk_table [] k2))
| reach_create : forall s invoice s' resp,
    reachable s -> create_invoice invoice s = (s', Ok resp) -> reachable s'
| reach_delete : forall s invoice_id s',
    reachable s -> delete_invoice invoice_id s = (s', Ok tt) -> reachable s'.

(** The scenario of the specification: two products, one client, no
    invoice yet. *)
Definition scenario_store : store :=
  mk_store
    (mk_table [mk_product 1 "Web Development" 5000%float;
               mk_product 2 "Consulting" 150%float] 2)
    (mk_table [mk_client 1 "Acme Corporation"
                 "123 Business Ave, New York, NY 10001" "ACM-2024-001"] 1)
    empty_table empty_table.

Definition scenario_request : InvoiceCreate :=
  mk_invoice_create 1 "2024-03-01" "2024-03-10" 50%float
    [mk_item_request 1 1; mk_item_request 2 2].

(* ------------------------------------------------------------------ *)
(** * Migration units 002 to 006 *)

Module Migrations.

(** The database file a unit connects to: each table is there or not.

    Modelled from the spec: the ledger table [_migrations(name unique)] is
    created by a unit that is not among the sources; the units read and
    write its [name] column only, so the ledger is the list of names. *)
Record db : Type := mk_db {
  ledger : option (list string);
  db_products : option (table product_row);
  db_clients : option (table client_row);
  db_invoices : option (table invoice_row);
  db_invoice_items : option (table invoice_item_row)
}.

Definition set_ledger (d : db) (l : list string) : db :=
  mk_db (Some l) (db_products d) (db_clients d) (db_invoices d) (db_invoice_items d).

(** How a run of [upgrade] ends: the early return, the normal end, or an
    exception of the driver, which leaves the function before [commit]. *)
Inductive outcome : Type :=
| Skipped
| Applied
| Failed (msg : string).

(** [CREATE TABLE IF NOT EXISTS ..] on one table. *)
Definition create_if_not_exists {row : Type} (t : option (table row)) : option (table row) :=
  match t with
  | Some _ => t
  | None => Some empty_table
  end.

(** [cursor.executemany("INSERT INTO .. VALUES (..)", l)]. *)
Definition executemany {row A : Type} (id : row -> Z) (mk : A -> Z -> row)
  (l : list A) (t : table row) : table row :=
  fold_left (fun t a => snd (insert_row id t (mk a))) l t.

(** The body shared by the five [upgrade] functions: look the name up in
    the ledger and return early when it is there; otherwise run the forward
    statements, record the name, commit. *)
Definition apply_unit (name : string) (forward : db -> string + db) (d : db)
  : outcome * db :=
  match ledger d with
  | None => (Failed "no such table: _migrations", d)
  | Some l =>
      if existsb (String.eqb name) l then (Skipped, d)
      else
        match forward d with
        | inl msg => (Failed msg, d)
        | inr d' =>
            match ledger d' with
            | Some l' => (Applied, set_ledger d' (l' ++ [name]))
            | None => (Failed "no such table: _migrations", d)
            end
        end
  end.

Module M002.
Definition name : string := "002_create_products_table".
Definition forward (d : db) : string + db :=
  inr (mk_db (ledger d) (create_if_not_exists (db_products d)) (db_clients d)
             (db_invoices d) (db_invoice_items d)).
Definition upgrade : db -> outcome * db := apply_unit name forward.
End M002.

Module M003.
Definition name : string := "003_create_clients_table".
Definition forward (d : db) : string + db :=
  inr (mk_db (ledger d) (db_products d) (create_if_not_exists (db_clients d))
             (db_invoices d) (db_invoice_items d)).
Definition upgrade : db -> outcome * db := apply_unit name forward.
End M003.

Module M004.
Definition name : string := "004_create_invoices_table".
Definition forward (d : db) : string + db :=
  inr (mk_db (ledger d) (db_products d) (db_clients d)
             (create_if_not_exists (db_invoices d)) (db_invoice_items d)).
Definition upgrade : db -> outcome * db := apply_unit name forward.
End M004.

Module M005.
Definition name : string := "005_create_invoice_items_table".
Definition forward (d : db) : string + db :=
  inr (mk_db (ledger d) (db_products d) (db_clients d)
             (db_invoices d) (create_if_not_exists (db_invoice_items d))).
Definition upgrade : db -> outcome * db := apply_unit name forward.
End M005.

Module M006.
Definition name : string := "006_seed_products_and_clients".

Definition seed_products : list (string * float) :=
  [("Web Development", 5000%float);
   ("Mobile App Development", 8000%float);
   ("UI/UX Design", 2500%float);
   ("Cloud Infrastructure Setup", 3500%float);
   ("Database Design & Optimization", 2000%float);
   ("Technical Consulting", 150%float);
   ("Quality Assurance Testing", 1500%float);
   ("Maintenance & Support", 1000%float)]%string.

Definition seed_clients : list (string * string * string) :=
  [("Acme Corporation", "123 Business Ave, New York, NY 10001", "ACM-2024-001");
   ("TechStart Inc.", "456 Innovation Blvd, San Francisco, CA 94105", "TECH-2024-002");
   ("Global Solutions Ltd.", "789 Commerce Street, London, UK SW1A 1AA", "GLOB-2024-003");
   ("Bright Ventures LLC", "321 Enterprise Way, Austin, TX 78701", "BRIT-2024-004");
   ("Coastal Trading Co.", "654 Harbor Road, Miami, FL 33101", "COAST-2024-005")]%string.

Definition forward (d : db) : string + db :=
  match db_products d with
  | None => inl "no such table: products"%string
  | Some p =>
      match db_clients d with
      | None => inl "no such table: clients"%string
      | Some c =>
          inr (mk_db (ledger d)
                 (Some (executemany p_id (fun a k => mk_product k (fst a) (Sql.real (snd a)))
                          seed_products p))
                 (Some (executemany c_id
                          (fun a k => mk_client k (fst (fst a)) (snd (fst a)) (snd a))
                          seed_clients c))
                 (db_invoices d) (db_invoice_items d))
      end
  end.

Definition upgrade : db -> outcome * db := apply_unit name forward.
End M006.

(** A unit by its name, its forward statements and its [upgrade]. *)
Record migration_unit : Type := mk_unit {
  unit_name : string;
  unit_forward : db -> string + db;
  unit_upgrade : db -> outcome * db
}.

Definition migration_units : list migration_unit :=
  [mk_unit M002.name M002.forward M002.upgrade;
   mk_unit M003.name M003.forward M003.upgrade;
   mk_unit M004.name M004.forward M004.upgrade;
   mk_unit M005.name M005.forward M005.upgrade;
   mk_unit M006.name M006.forward M006.upgrade].

(** A database with the ledger table and nothing else. *)
Definition fresh_db : db := mk_db (Some []) None None None None.

End Migrations.

(* ------------------------------------------------------------------ *)
(** * Notions used in the statements *)

(** The decimal digits after the four-character prefix of an invoice
    number, read as an integer of any size. *)
Definition decimal_suffix (invoice_no : string) : Z :=
  Sql.read_digits (Sql.substr invoice_no 5) 0.

(** Number of occurrences of a character. *)
Fixpoint count_char (c : ascii) (s : string) : nat :=
  match s with
  | EmptyString => O
  | String a r => (if Ascii.eqb a c then 1 else 0) + count_char c r
  end.

(** The sum of binary64 numbers taken from [0.0] in list order, as the
    accumulation loop of [create_invoice] takes it. *)
Definition float_sum (l : list float) : float := fold_left PrimFloat.add l 0%float.

(** Python's [x == y] on floats. *)
Definition float_eq (x y : float) : Prop := PrimFloat.eqb x y = true.

(** The same binary64 number, or two zeros of any sign. *)
Definition same_number (x y : float) : Prop :=
  x = y \/ (PrimFloat.eqb x 0 = true /\ PrimFloat.eqb y 0 = true).

(** [amount] is what the request line [item] costs at the prices of [s]. *)
Definition line_amount (s : store) (item : InvoiceItemRequest) (amount : float) : Prop :=
  exists p, select_product s (product_id item) = Some p /\
            amount = Py.mul_float_int (p_price p) (quantity item).

(** [ii] is the item row stored for the request line [item] at the prices
    of [s]. *)
Definition stored_line (s : store) (item : InvoiceItemRequest) (ii : invoice_item_row) : Prop :=
  exists p, select_product s (product_id item) = Some p /\
            ii_product_id ii = product_id item /\
            ii_quantity ii = quantity item /\
            ii_unit_price ii = Sql.real (p_price p) /\
            ii_subtotal ii = Sql.real (Py.mul_float_int (p_price p) (quantity item)).

(** The item rows stored for an invoice, in rowid order. *)
Definition items_of (s : store) (invoice_id : Z) : list invoice_item_row :=
  filter (fun ii => ii_invoice_id ii =? invoice_id) (rows (invoice_items s)).

(** The foreign key [invoice_items.invoice_id -> invoices.id]. *)
Definition fk_items_invoice (s : store) : Prop :=
  forall ii, In ii (rows (invoice_items s)) ->
             exists i, In i (rows (invoices s)) /\ i_id i = ii_invoice_id ii.

(** A store whose invoices carry the given numbers, and nothing else. *)
Definition invoices_numbered (numbers : list string) : store :=
  mk_store empty_table empty_table
    (mk_table (map (fun no => mk_invoice 0 no "" "" 0 "" 0%float 0%float) numbers) 0)
    empty_table.

(** [n] is the numeric suffix of [invoice_no]: the number is ["INV-"]
    followed by the decimal digits of [n], with any number of zeros in
    front. *)
Definition numeric_suffix (invoice_no : string) (n : Z) : Prop :=
  0 <= n /\ exists k, invoice_no = ("INV-" ++ Py.zeros k ++ Py.digits n)%string.

(** The ids of a request are integers the driver binds. *)
Definition ids_bindable (invoice : InvoiceCreate) : Prop :=
  Sql.is_int64 (client_id invoice) = true /\
  Forall (fun item => Sql.is_int64 (product_id item) = true) (items invoice).


(** The requests that show a number assigned twice. *)
Definition reuse_requests : list request :=
  [Create scenario_request; Delete 1; Create scenario_request].

(** ** The checks of the validation unit, as the specification lists them *)

Inductive check : Type :=
| DateShape
| DateOrder
| ClientExists
| ItemsNonEmpty
| TaxNonNegative
| ItemQuantity (pos : Z) (item : InvoiceItemRequest)
| ItemProduct (pos : Z) (item : InvoiceItemRequest).

(** The kind of a check, positions and items forgotten. *)
Definition kind (k : check) : nat :=
  match k with
  | DateShape => 0
  | DateOrder => 1
  | ClientExists => 2
  | ItemsNonEmpty => 3
  | TaxNonNegative => 4
  | ItemQuantity _ _ => 5
  | ItemProduct _ _ => 6
  end%nat.

(** The per-item checks of the items of a request, the first item at
    position [pos]. *)
Fixpoint item_checks (pos : Z) (l : list InvoiceItemRequest) : list check :=
  match l with
  | [] => []
  | item :: rest => ItemQuantity pos item :: ItemProduct pos item :: item_checks (pos + 1) rest
  end.

Definition checks_in_order (invoice : InvoiceCreate) : list check :=
  [DateShape; DateOrder; ClientExists; ItemsNonEmpty; TaxNonNegative]
    ++ item_checks 1 (items invoice).

Definition passes (conn : store) (invoice : InvoiceCreate) (k : check) : bool :=
  match k with
  | DateShape =>
      (List.length (Py.split "-" (issue_date invoice)) =? 3)%nat
      && (List.length (Py.split "-" (due_date invoice)) =? 3)%nat
  | DateOrder => negb (String.ltb (due_date invoice) (issue_date invoice))
  | ClientExists =>
      match select_client conn (client_id invoice) with Some _ => true | None => false end
  | ItemsNonEmpty => match items invoice with [] => false | _ :: _ => true end
  | TaxNonNegative => negb (PrimFloat.ltb (tax invoice) 0)
  | ItemQuantity _ item => 0 <? quantity item
  | ItemProduct _ item =>
      match select_product conn (product_id item) with Some _ => true | None => false end
  end.

(** The reason a failed check gives. *)
Definition reason (invoice : InvoiceCreate) (k : check) : string :=
  match k with
  | DateShape => "Dates must be in format YYYY-MM-DD"
  | DateOrder => "Due date must be after or equal to issue date"
  | ClientExists => "Client " ++ Py.str_int (client_id invoice) ++ " not found"
  | ItemsNonEmpty => "Invoice must have at least one item"
  | TaxNonNegative => "Tax cannot be negative"
  | ItemQuantity pos _ => "Item " ++ Py.str_int pos ++ ": Quantity must be greater than 0"
  | ItemProduct _ item => "Product " ++ Py.str_int (product_id item) ++ " not found"
  end%string.

(** The first check of the list that fails. *)
Definition first_failure (conn : store) (invoice : InvoiceCreate) : option check :=
  find (fun k => negb (passes conn invoice k)) (checks_in_order invoice).

(** An item passes when both of its checks do. *)
Definition item_passes (conn : store) (item : InvoiceItemRequest) : bool :=
  (0 <? quantity item)
  && match select_product conn (product_id item) with Some _ => true | None => false end.

(** The position of the first item that fails one of its checks, the first
    item of the list counting as position [pos]. *)
Fixpoint first_failing_position (conn : store) (pos : Z) (l : list InvoiceItemRequest)
  : option Z :=
  match l with
  | [] => None
  | item :: rest =>
      if item_passes conn item then first_failing_position conn (pos + 1) rest
      else Some pos
  end.

(** The decimal number that follows the five characters of ["Item "]. *)
Definition position_in_detail (msg : string) : Z :=
  Sql.read_digits (Sql.drop 5 msg) 0.

(** The property that the detail of a per-item failure tells the position
    of the first failing item. *)
Definition detail_reports_position : Prop :=
  exists report : string -> Z,
    forall conn l (e : HTTPException) pos,
      validate_items conn 0 l = Some e ->
      first_failing_position conn 1 l = Some pos ->
      report (detail e) = pos.

(** The errors of the two date checks. *)
Definition dates_error : HTTPException := bad_request "Dates must be in format YYYY-MM-DD".

Definition order_error : HTTPException :=
  bad_request "Due date must be after or equal to issue date".

(** Both dates split into exactly three components. *)
Definition date_shape_ok (invoice : InvoiceCreate) : Prop :=
  List.length (Py.split "-" (issue_date invoice)) = 3%nat /\
  List.length (Py.split "-" (due_date invoice)) = 3%nat.

(** The query value [max_num] of [get_next_invoice_number]. *)
Definition max_num (conn : store) : Z :=
  Sql.coalesce (Sql.max (map (fun i => suffix_number (i_invoice_no i))
                             (rows (invoices conn)))) 0.

(** Every stored invoice number is the formatted form of a number from 1 to
    one past the largest 64-bit integer. *)
Definition numbered (s : store) : Prop :=
  forall i, In i (rows (invoices s)) ->
            exists n, 1 <= n <= Sql.INT64_MAX + 1 /\ i_invoice_no i = invoice_no_of n.

(** Strings made of decimal digits only. *)
Fixpoint all_digits (s : string) : Prop :=
  match s with
  | EmptyString => True
  | String c r => Sql.digit_of c <> None /\ all_digits r
  end.

(** The invoice row a create inserts into [s]. *)
Definition created_row (s : store) (invoice : InvoiceCreate) (address : string)
  (total : float) : invoice_row :=
  mk_invoice (next_rowid i_id (invoices s)) (get_next_invoice_number s)
             (issue_date invoice) (due_date invoice) (client_id invoice)
             address (Sql.real (tax invoice)) (Sql.real total).

(** A statement that raises no [HTTPException]. *)
Definition no_http {A : Type} (m : tx A) : Prop :=
  forall t e t', m t <> (inl (HTTPError e), t').

Create HintDb no_http.

(** Evaluates [Sql.digit_of] on a literal character. *)
Ltac eval_digit :=
  match goal with
  | |- context [Sql.digit_of ?c] =>
      let v := eval vm_compute in (Sql.digit_of c) in
      change (Sql.digit_of c) with v; cbv iota beta
  end.

(* ------------------------------------------------------------------ *)
(** * The listing endpoint *)

Record InvoiceListItem : Type := mk_list_item {
  li_id : Z;
  li_invoice_no : string;
  li_issue_date : string;
  li_due_date : string;
  li_client_name : string;
  li_total : float
}.

(** Insertion into a list that is in descending order of [key]. *)
Fixpoint insert_desc {A : Type} (key : A -> Z) (x : A) (l : list A) : list A :=
  match l with
  | [] => [x]
  | y :: r => if key y <? key x then x :: l else y :: insert_desc key x r
  end.

(** [ORDER BY key DESC]. *)
Definition order_by_desc {A : Type} (key : A -> Z) (l : list A) : list A :=
  fold_right (insert_desc key) [] l.

(** [.. FROM invoices i JOIN clients c ON i.client_id = c.id], before any
    ordering. *)
Definition invoices_join_clients (conn : store) : list (invoice_row * client_row) :=
  flat_map (fun i => map (pair i)
                        (filter (fun c => c_id c =? i_client_id i) (rows (clients conn))))
           (rows (invoices conn)).

(** [.. FROM invoices i JOIN clients c ON i.client_id = c.id
    ORDER BY i.id DESC], [fetchall()]. *)
Definition select_invoices_join_client (conn : store) : list (invoice_row * client_row) :=
  order_by_desc (fun r => i_id (fst r)) (invoices_join_clients conn).

Definition list_item (row : invoice_row * client_row) : InvoiceListItem :=
  let (i, c) := row in
  mk_list_item (i_id i) (i_invoice_no i) (i_issue_date i) (i_due_date i)
               (c_name c) (i_total i).

Definition list_invoices_body : tx (list InvoiceListItem) :=
  (rows_ <- read select_invoices_join_client ;;
   ret (map list_item rows_))%tx.

(** The handler has one clause, turning any exception into a 500; its body
    raises no [HTTPException]. *)
Definition list_invoices (s : store) : store * result (list InvoiceListItem) :=
  with_get_db list_invoices_body s.

(* ------------------------------------------------------------------ *)
(** * Row identifiers along a sequence of requests *)

(** The id of the invoice a request creates, when it creates one. *)
Definition created_id (r : request) (s : store) : option Z :=
  match r with
  | Create invoice =>
      match create_invoice invoice s with
      | (_, Ok resp) => Some (resp_id resp)
      | (_, Raise _) => None
      end
  | Delete _ => None
  end.

(** The invoice ids assigned along a sequence of requests, in order. *)
Fixpoint assigned_ids (rs : list request) (s : store) : list Z :=
  match rs with
  | [] => []
  | r :: rest =>
      match created_id r s with
      | Some k => k :: assigned_ids rest (fst (handle r s))
      | None => assigned_ids rest (fst (handle r s))
      end
  end.

(** The sequence of an AUTOINCREMENT table is never below a rowid of the
    table. *)
Definition ids_within_seq (s : store) : Prop :=
  forall i, In i (rows (invoices s)) -> i_id i <= seq (invoices s).

(** The primary key of [products]. *)
Definition products_key (s : store) : Prop := NoDup (map p_id (rows (products s))).

(** What the validation unit accepts. *)
Definition acceptable (conn : store) (invoice : InvoiceCreate) : Prop :=
  date_shape_ok invoice /\
  String.ltb (due_date invoice) (issue_date invoice) = false /\
  Sql.is_int64 (client_id invoice) = true /\
  select_client conn (client_id invoice) <> None /\
  items invoice <> [] /\
  PrimFloat.ltb (tax invoice) 0 = false /\
  Forall (fun item => 0 < quantity item /\
                      Sql.is_int64 (product_id item) = true /\
                      select_product conn (product_id item) <> None) (items invoice).

(** The tables have rowids left for a create: the rowid the invoice would
    take and the rowids its items would take are 64-bit integers. *)
Definition rowids_left (s : store) (invoice : InvoiceCreate) : Prop :=
  Sql.is_int64 (next_rowid i_id (invoices s)) = true /\
  forall j, (j < List.length (items invoice))%nat ->
            Sql.is_int64 (next_rowid ii_id (invoice_items s) + Z.of_nat j) = true.

(** The response item that mirrors a request line at the prices of [s]. *)
Definition mirrors (s : store) (item : InvoiceItemRequest) (r : InvoiceItemResponse) : Prop :=
  exists p, select_product s (product_id item) = Some p /\
            item_product_id r = product_id item /\
            item_product_name r = p_name p /\
            item_quantity r = quantity item /\
            item_unit_price r = Sql.real (p_price p) /\
            item_subtotal r = Sql.real (Py.mul_float_int (p_price p) (quantity item)).

(* ------------------------------------------------------------------ *)
(** * The [downgrade] functions of the migration units *)

Module Downgrade.

Import Migrations.

(** [DELETE FROM _migrations WHERE name = ?]. *)
Definition remove_name (name : string) (l : list string) : list string :=
  filter (fun n => negb (String.eqb n name)) l.

(** The body shared by the [downgrade] functions of the units 002 to 005:
    [DROP TABLE IF EXISTS ..], which takes effect at once, being run
    outside a transaction; then the ledger row is deleted and the
    transaction committed.  [Applied] stands for a run that reached its
    end, [Failed] for an exception of the driver. *)
Definition revert_table (name : string) (drop : db -> db) (d : db) : outcome * db :=
  let d1 := drop d in
  match ledger d1 with
  | None => (Failed "no such table: _migrations", d1)
  | Some l => (Applied, set_ledger d1 (remove_name name l))
  end.

Module M002.
Definition drop (d : db) : db :=
  mk_db (ledger d) None (db_clients d) (db_invoices d) (db_invoice_items d).
Definition downgrade : db -> outcome * db := revert_table Migrations.M002.name drop.
End M002.

Module M003.
Definition drop (d : db) : db :=
  mk_db (ledger d) (db_products d) None (db_invoices d) (db_invoice_items d).
Definition downgrade : db -> outcome * db := revert_table Migrations.M003.name drop.
End M003.

Module M004.
Definition drop (d : db) : db :=
  mk_db (ledger d) (db_products d) (db_clients d) None (db_invoice_items d).
Definition downgrade : db -> outcome * db := revert_table Migrations.M004.name drop.
End M004.

Module M005.
Definition drop (d : db) : db :=
  mk_db (ledger d) (db_products d) (db_clients d) (db_invoices d) None.
Definition downgrade : db -> outcome * db := revert_table Migrations.M005.name drop.
End M005.

Module M006.

(** [DELETE FROM t]: every row goes, the AUTOINCREMENT sequence stays. *)
Definition delete_all {row : Type} (t : table row) : table row := mk_table [] (seq t).

(** Three DELETE statements in one transaction: an exception leaves the
    database as it was. *)
Definition downgrade (d : db) : outcome * db :=
  match db_products d with
  | None => (Failed "no such table: products", d)
  | Some p =>
      match db_clients d with
      | None => (Failed "no such table: clients", d)
      | Some c =>
          match ledger d with
          | None => (Failed "no such table: _migrations", d)
          | Some l =>
              (Applied,
               mk_db (Some (remove_name Migrations.M006.name l))
                     (Some (delete_all p)) (Some (delete_all c))
                     (db_invoices d) (db_invoice_items d))
          end
      end
  end.

End M006.

End Downgrade.

(** A table unit by its name, its [upgrade], the DROP of its [downgrade],
    its [downgrade], and the test that its table is not there. *)
Record table_unit : Type := mk_table_unit {
  t_name : string;
  t_upgrade : Migrations.db -> Migrations.outcome * Migrations.db;
  t_drop : Migrations.db -> Migrations.db;
  t_downgrade : Migrations.db -> Migrations.outcome * Migrations.db;
  t_absent : Migrations.db -> bool
}.

Definition is_none {A : Type} (o : option A) : bool :=
  match o with
  | None => true
  | Some _ => false
  end.

Definition table_units : list table_unit :=
  [mk_table_unit Migrations.M002.name Migrations.M002.upgrade
                 Downgrade.M002.drop Downgrade.M002.downgrade
                 (fun d => is_none (Migrations.db_products d));
   mk_table_unit Migrations.M003.name Migrations.M003.upgrade
                 Downgrade.M003.drop Downgrade.M003.downgrade
                 (fun d => is_none (Migrations.db_clients d));
   mk_table_unit Migrations.M004.name Migrations.M004.upgrade
                 Downgrade.M004.drop Downgrade.M004.downgrade
                 (fun d => is_none (Migrations.db_invoices d));
   mk_table_unit Migrations.M005.name Migrations.M005.upgrade
                 Downgrade.M005.drop Downgrade.M005.downgrade
                 (fun d => is_none (Migrations.db_invoice_items d))].

(** The five [upgrade] functions run one after the other. *)
Definition upgrade_all (d : Migrations.db) : Migrations.db :=
  fold_left (fun d u => snd (Migrations.unit_upgrade u d)) Migrations.migration_units d.

(** The rowids [k + 1, k + 2, ..] of [n] rows inserted after rowid [k]. *)
Fixpoint rowids_after (k : Z) (n : nat) : list Z :=
  match n with
  | O => []
  | S n' => (k + 1) :: rowids_after (k + 1) n'
  end.

(** The largest rowid that is or ever was in a table. *)
Definition last_rowid {row : Type} (id : row -> Z) (t : table row) : Z :=
  fold_right Z.max (seq t) (map id (rows t)).

(** One step of [upgrade_all]: the unit applies, its name not being in the
    ledger. *)
Ltac unit_applies lemma name :=
  erewrite (lemma name);
  [| reflexivity
   | rewrite ?in_app_iff; cbn [In]; intuition discriminate
   | reflexivity | reflexivity];
  cbn [snd Migrations.set_ledger Migrations.ledger Migrations.db_products
       Migrations.db_clients Migrations.db_invoices Migrations.db_invoice_items].

(* ------------------------------------------------------------------ *)
(** * Properties *)

(** ** Decimal digits *)

Lemma read_digits_acc_pos (d : Decimal.uint) (p : positive) :
  Sql.read_digits (NilEmpty.string_of_uint d) (Zpos p) = Zpos (Pos.of_uint_acc d p).
Proof.
  revert p.
  induction d as [| d IH | d IH | d IH | d IH | d IH | d IH | d IH | d IH | d IH | d IH];
    intro p; cbn [NilEmpty.string_of_uint Sql.read_digits Pos.of_uint_acc];
    try reflexivity; eval_digit; rewrite <- IH; f_equal; lia.
Qed.

Lemma read_digits_uint (d : Decimal.uint) :
  Sql.read_digits (NilEmpty.string_of_uint d) 0 = Z.of_N (Pos.of_uint d).
Proof.
  induction d as [| d IH | d IH | d IH | d IH | d IH | d IH | d IH | d IH | d IH | d IH];
    cbn [NilEmpty.string_of_uint Sql.read_digits Pos.of_uint];
    try reflexivity; eval_digit; try exact IH;
    cbn [Z.of_N]; rewrite <- read_digits_acc_pos; reflexivity.
Qed.

Lemma nil_zero_uint (n : N) :
  NilZero.string_of_uint (N.to_uint n) = NilEmpty.string_of_uint (N.to_uint n).
Proof.
  destruct n as [| p]; [reflexivity |].
  unfold NilZero.string_of_uint. simpl N.to_uint.
  destruct (Pos.to_uint p) eqn:E; try reflexivity.
  now apply Unsigned.to_uint_nonnil in E.
Qed.

(** Reading the digits of [n] gives [|n|] back. *)
Lemma read_digits_of_digits (n : Z) : Sql.read_digits (Py.digits n) 0 = Z.abs n.
Proof.
  unfold Py.digits. rewrite nil_zero_uint, read_digits_uint.
  change (Pos.of_uint (N.to_uint (Z.abs_N n))) with (N.of_uint (N.to_uint (Z.abs_N n))).
  rewrite DecimalN.Unsigned.of_to. apply N2Z.inj_abs_N.
Qed.

Lemma read_digits_zeros (k : nat) (s : string) :
  Sql.read_digits (Py.zeros k ++ s) 0 = Sql.read_digits s 0.
Proof.
  induction k as [| k IH]; [reflexivity |].
  cbn [Py.zeros append Sql.read_digits]. eval_digit. exact IH.
Qed.

Lemma all_digits_uint (d : Decimal.uint) : all_digits (NilEmpty.string_of_uint d).
Proof.
  induction d; cbn [NilEmpty.string_of_uint all_digits]; auto; split; auto; discriminate.
Qed.

Lemma all_digits_zeros (k : nat) (s : string) : all_digits s -> all_digits (Py.zeros k ++ s).
Proof.
  intro H. induction k; cbn [Py.zeros append all_digits]; auto. split; auto; discriminate.
Qed.

Lemma digit_not_sign_space (c : ascii) :
  Sql.digit_of c <> None -> Sql.is_space c = false /\ c <> "-"%char /\ c <> "+"%char.
Proof.
  destruct c as [[|] [|] [|] [|] [|] [|] [|] [|]]; vm_compute; intro H;
    repeat split; try reflexivity; try discriminate; exfalso; apply H; reflexivity.
Qed.

(** On a string of digits the cast is the saturated decimal value. *)
Lemma cast_integer_digits (s : string) :
  all_digits s -> Sql.cast_integer s = Sql.clamp_int64 (Sql.read_digits s 0).
Proof.
  destruct s as [| c r]; [reflexivity |].
  intros [Hc _]. destruct (digit_not_sign_space c Hc) as (Hs & Hm & Hp).
  unfold Sql.cast_integer. cbn [Sql.skip_spaces]. rewrite Hs.
  destruct c as [[|] [|] [|] [|] [|] [|] [|] [|]]; try reflexivity; congruence.
Qed.

(** A string of digits has no NUL: it is the text SQLite sees. *)
Lemma text_digits (s : string) : all_digits s -> Sql.text s = s.
Proof.
  induction s as [| c r IH]; [reflexivity |]. intros [Hc Hr]. cbn [Sql.text].
  destruct (Ascii.eqb c Ascii.zero) eqn:E.
  - apply Ascii.eqb_eq in E. subst c. exfalso. apply Hc. reflexivity.
  - now rewrite IH.
Qed.

(** ** Formatting and reading invoice numbers *)

Lemma format_03d_nonneg (n : Z) :
  0 <= n -> Py.format_03d n = Py.zfill 3 (Py.digits n).
Proof.
  intro H. unfold Py.format_03d. destruct (n <? 0) eqn:E; [lia | reflexivity].
Qed.

Lemma all_digits_digits (n : Z) : all_digits (Py.digits n).
Proof. unfold Py.digits. rewrite nil_zero_uint. apply all_digits_uint. Qed.

(** The four characters of ["INV-"] are one byte each, and the field that
    follows them has no NUL. *)
Lemma substr_invoice_no_of (n : Z) : Sql.substr (invoice_no_of n) 5 = Py.format_03d n.
Proof.
  change (Sql.substr (invoice_no_of n) 5) with (Sql.text (Py.format_03d n)).
  unfold Py.format_03d, Py.zfill. destruct (n <? 0).
  - cbn [Sql.text]. change (Ascii.eqb "-" Ascii.zero) with false. cbv iota.
    f_equal. apply text_digits, all_digits_zeros, all_digits_digits.
  - apply text_digits, all_digits_zeros, all_digits_digits.
Qed.

Lemma decimal_suffix_invoice_no_of (n : Z) :
  0 <= n -> decimal_suffix (invoice_no_of n) = n.
Proof.
  intro H. unfold decimal_suffix. rewrite substr_invoice_no_of, format_03d_nonneg by exact H.
  unfold Py.zfill. rewrite read_digits_zeros, read_digits_of_digits. lia.
Qed.

Lemma suffix_number_invoice_no_of (n : Z) :
  0 <= n -> suffix_number (invoice_no_of n) = Z.min Sql.INT64_MAX n.
Proof.
  intro H. unfold suffix_number. rewrite substr_invoice_no_of.
  rewrite format_03d_nonneg by exact H. unfold Py.zfill.
  rewrite cast_integer_digits by apply all_digits_zeros, all_digits_digits.
  rewrite read_digits_zeros, read_digits_of_digits.
  unfold Sql.clamp_int64, Sql.INT64_MIN, Sql.INT64_MAX. lia.
Qed.

Lemma invoice_no_of_inj (n m : Z) :
  0 <= n -> 0 <= m -> invoice_no_of n = invoice_no_of m -> n = m.
Proof.
  intros Hn Hm E.
  rewrite <- (decimal_suffix_invoice_no_of n Hn), <- (decimal_suffix_invoice_no_of m Hm).
  now rewrite E.
Qed.

Lemma length_zeros_app (k : nat) (s : string) :
  String.length (Py.zeros k ++ s) = (k + String.length s)%nat.
Proof. induction k as [| k IH]; [reflexivity |]. cbn [Py.zeros append String.length]. now rewrite IH. Qed.

(** The field [{n:03d}] of a number that is not negative: at least three
    characters, all of them digits, whose decimal value is [n]. *)
Lemma format_03d_digits (n : Z) :
  0 <= n ->
  (3 <= String.length (Py.format_03d n))%nat /\
  all_digits (Py.format_03d n) /\
  Sql.read_digits (Py.format_03d n) 0 = n.
Proof.
  intro H. rewrite format_03d_nonneg by exact H. unfold Py.zfill. split; [| split].
  - rewrite length_zeros_app. lia.
  - apply all_digits_zeros, all_digits_digits.
  - rewrite read_digits_zeros, read_digits_of_digits. lia.
Qed.

(** The query reads the numeric suffix of a number, up to the largest
    64-bit integer. *)
Lemma suffix_number_numeric (invoice_no : string) (n : Z) :
  numeric_suffix invoice_no n -> n <= Sql.INT64_MAX -> suffix_number invoice_no = n.
Proof.
  intros (Hn & k & ->) Hle. unfold suffix_number.
  change (Sql.substr ("INV-" ++ Py.zeros k ++ Py.digits n) 5)
    with (Sql.text (Py.zeros k ++ Py.digits n)).
  rewrite text_digits by apply all_digits_zeros, all_digits_digits.
  rewrite cast_integer_digits by apply all_digits_zeros, all_digits_digits.
  rewrite read_digits_zeros, read_digits_of_digits.
  unfold Sql.clamp_int64, Sql.INT64_MIN, Sql.INT64_MAX in *. lia.
Qed.

Lemma suffix_numbers_numeric (l : list invoice_row) (suffixes : list Z) :
  Forall2 (fun i n => numeric_suffix (i_invoice_no i) n /\ n <= Sql.INT64_MAX) l suffixes ->
  map (fun i => suffix_number (i_invoice_no i)) l = suffixes.
Proof.
  induction 1 as [| i n r ns [Hs Hle] _ IH]; [reflexivity |].
  cbn [map]. now rewrite IH, (suffix_number_numeric _ n Hs Hle).
Qed.

(** ** The aggregate MAX *)

Lemma sql_max_nil_iff (l : list Z) : Sql.max l = None <-> l = [].
Proof. destruct l; simpl; split; congruence. Qed.

Lemma sql_max_spec (l : list Z) (m : Z) :
  Sql.max l = Some m -> In m l /\ forall x, In x l -> x <= m.
Proof.
  revert m. induction l as [| a r IH]; intros m H; [discriminate |].
  simpl in H. destruct (Sql.max r) as [m' |] eqn:E.
  - injection H as <-. destruct (IH m' eq_refl) as [Hin Hle]. split.
    + destruct (Z.max_spec a m') as [[_ ->] | [_ ->]]; [right; exact Hin | left; reflexivity].
    + intros x [<- | Hx]; [lia | specialize (Hle x Hx); lia].
  - injection H as <-. apply sql_max_nil_iff in E. subst r. split.
    + left; reflexivity.
    + intros x [<- | []]; lia.
Qed.

(** C3, as the specification states it, on a table that holds the number
    INV-9223372036854775808: the numeric suffix of the stored number is
    [2 ^ 63], and the next number is that same number, not the one with
    suffix [2 ^ 63 + 1]. *)
Lemma next_number_stalls_at_saturation :
  map i_invoice_no (rows (invoices (invoices_numbered ["INV-9223372036854775808"%string])))
  = ["INV-9223372036854775808"%string] /\
  numeric_suffix "INV-9223372036854775808" 9223372036854775808 /\
  get_next_invoice_number (invoices_numbered ["INV-9223372036854775808"%string])
  = "INV-9223372036854775808"%string /\
  get_next_invoice_number (invoices_numbered ["INV-9223372036854775808"%string])
  <> ("INV-" ++ Py.format_03d (1 + 9223372036854775808))%string.
Proof.
  split; [reflexivity |]. split; [| split].
  - split; [lia |]. exists 0%nat. reflexivity.
  - vm_compute. reflexivity.
  - vm_compute. discriminate.
Qed.

(** C3, amended: on an empty invoices table the next number is INV-001.
    On a table whose numbers are each ["INV-"] followed by the decimal
    digits of a number up to the largest 64-bit integer, zeros in front
    allowed, the next number is ["INV-"] followed by the zero-padded
    width-3 decimal of 1 + m, where m is the greatest of these numbers.
    The padded field of a number that is not negative is its decimal
    digits after as many zeros as bring it to three characters: 7 gives
    007, 42 gives 042, 1000 gives 1000.  After INV-123 comes INV-124, and
    after INV-002, INV-010 and INV-003 comes INV-011. *)
Theorem get_next_invoice_number_spec (conn : store) :
  (rows (invoices conn) = [] -> get_next_invoice_number conn = "INV-001"%string) /\
  (forall suffixes,
     rows (invoices conn) <> [] ->
     Forall2 (fun i n => numeric_suffix (i_invoice_no i) n /\ n <= Sql.INT64_MAX)
             (rows (invoices conn)) suffixes ->
     exists m, In m suffixes /\ (forall n, In n suffixes -> n <= m) /\
               get_next_invoice_number conn = ("INV-" ++ Py.format_03d (1 + m))%string) /\
  (forall n, 0 <= n ->
     Py.format_03d n
     = (Py.zeros (3 - String.length (Py.digits n)) ++ Py.digits n)%string /\
     (3 <= String.length (Py.format_03d n))%nat /\
     all_digits (Py.format_03d n) /\
     Sql.read_digits (Py.format_03d n) 0 = n) /\
  (Py.format_03d 7 = "007" /\ Py.format_03d 42 = "042" /\ Py.format_03d 1000 = "1000")%string /\
  get_next_invoice_number (invoices_numbered ["INV-123"%string]) = "INV-124"%string /\
  get_next_invoice_number (invoices_numbered ["INV-002"; "INV-010"; "INV-003"]%string)
  = "INV-011"%string.
Proof.
  split; [| split; [| split; [| split; [| split]]]].
  - unfold get_next_invoice_number. intros ->. reflexivity.
  - intros suffixes Hne HF.
    pose proof (suffix_numbers_numeric _ _ HF) as E.
    unfold get_next_invoice_number, invoice_no_of. rewrite E.
    destruct (Sql.max suffixes) as [m |] eqn:M.
    + destruct (sql_max_spec _ _ M) as [Hin Hmax]. exists m.
      split; [exact Hin | split; [exact Hmax |]].
      cbn [Sql.coalesce]. now rewrite Z.add_comm.
    + apply sql_max_nil_iff in M. rewrite <- E in M. apply map_eq_nil in M. contradiction.
  - intros n Hn. split; [| now apply format_03d_digits].
    now rewrite format_03d_nonneg.
  - repeat split.
  - vm_compute. reflexivity.
  - vm_compute. reflexivity.
Qed.

Lemma get_next_invoice_number_spec_witness :
  rows (invoices (invoices_numbered ["INV-0456"%string])) <> [] /\
  exists m, In m [456] /\
            get_next_invoice_number (invoices_numbered ["INV-0456"%string])
            = ("INV-" ++ Py.format_03d (1 + m))%string.
Proof.
  assert (Hne : rows (invoices (invoices_numbered ["INV-0456"%string])) <> [])
    by discriminate.
  split; [exact Hne |].
  destruct (proj1 (proj2 (get_next_invoice_number_spec
                            (invoices_numbered ["INV-0456"%string]))) [456] Hne)
    as (m & Hin & _ & E).
  - constructor; [| constructor]. split; [| unfold Sql.INT64_MAX; lia].
    split; [lia |]. exists 1%nat. reflexivity.
  - exists m. split; [exact Hin | exact E].
Defined.

(** ** Row identifiers *)

Lemma fold_max_ge (l : list Z) (b x : Z) : In x l -> x <= fold_right Z.max b l.
Proof.
  induction l as [| a r IH]; intros []; simpl.
  - subst. lia.
  - specialize (IH H). lia.
Qed.

Lemma next_rowid_fresh {row : Type} (id : row -> Z) (t : table row) (r : row) :
  In r (rows t) -> id r < next_rowid id t.
Proof.
  intro H. unfold next_rowid.
  assert (id r <= fold_right Z.max (seq t) (map id (rows t))).
  { apply fold_max_ge. now apply in_map. }
  lia.
Qed.

Lemma filter_none {A : Type} (f : A -> bool) (l : list A) :
  (forall x, In x l -> f x = false) -> filter f l = [].
Proof.
  induction l as [| a r IH]; intro H; [reflexivity |].
  simpl. rewrite (H a (or_introl eq_refl)). apply IH. intros x Hx. apply H. now right.
Qed.

(** ** Statements that return *)

Lemma bind_ok_inv {A B : Type} (m : tx A) (k : A -> tx B) (t t' : transaction) (b : B) :
  bind m k t = (inr b, t') ->
  exists a t1, m t = (inr a, t1) /\ k a t1 = (inr b, t').
Proof.
  unfold bind. destruct (m t) as [[e | a] t1]; [discriminate |]. intro H. now exists a, t1.
Qed.

Lemma bind_ints_ok_inv (params : list Z) (t t' : transaction) (u : unit) :
  bind_ints params t = (inr u, t') -> t' = t /\ forallb Sql.is_int64 params = true.
Proof.
  unfold bind_ints. destruct (forallb Sql.is_int64 params); [| discriminate].
  now intros [= <-].
Qed.

Lemma bind_ints_ok (params : list Z) (t : transaction) :
  forallb Sql.is_int64 params = true -> bind_ints params t = (inr tt, t).
Proof. intro H. unfold bind_ints. now rewrite H. Qed.

Lemma execute_ok_inv {A : Type} (q : Z -> store -> A) (param : Z) (t t' : transaction) (a : A) :
  execute q param t = (inr a, t') ->
  t' = t /\ Sql.is_int64 param = true /\ a = q param (current t).
Proof.
  unfold execute. intro H. apply bind_ok_inv in H. destruct H as ([] & t1 & E & H).
  apply bind_ints_ok_inv in E. destruct E as [-> E]. cbn [forallb] in E.
  rewrite andb_true_r in E. unfold read in H. injection H as <- <-. auto.
Qed.

Lemma execute_ok {A : Type} (q : Z -> store -> A) (param : Z) (t : transaction) :
  Sql.is_int64 param = true -> execute q param t = (inr (q param (current t)), t).
Proof.
  intro H. unfold execute, bind. rewrite bind_ints_ok; [reflexivity |].
  cbn [forallb]. now rewrite H.
Qed.

Lemma execute_overflow {A : Type} (q : Z -> store -> A) (param : Z) (t : transaction) :
  Sql.is_int64 param = false -> execute q param t = (inl overflow_error, t).
Proof. intro H. unfold execute, bind, bind_ints. cbn [forallb]. now rewrite H. Qed.

(** ** The loops of [create_invoice] *)

Lemma fetch_price_inv (id : Z) (t t' : transaction) (v : float) :
  fetch_price id t = (inr v, t') ->
  t' = t /\ Sql.is_int64 id = true /\
  exists p, select_product (current t) id = Some p /\ v = p_price p.
Proof.
  unfold fetch_price. intro H. apply bind_ok_inv in H. destruct H as (row & t1 & E & H).
  apply execute_ok_inv in E. destruct E as (-> & R & ->).
  destruct (select_product (current t) id) as [p |]; [| discriminate].
  injection H as <- <-. split; [reflexivity | split; [exact R | now exists p]].
Qed.

Lemma float_of_int_converts (q : Z) :
  Z.abs q < Py.FLOAT_OVERFLOW -> Py.float_of_int q = Some (Py.nearest_float q).
Proof. intro H. unfold Py.float_of_int. apply Z.ltb_lt in H. now rewrite H. Qed.

(** Every 64-bit integer converts to a float. *)
Lemma int64_converts (q : Z) : Sql.is_int64 q = true -> Z.abs q < Py.FLOAT_OVERFLOW.
Proof.
  unfold Sql.is_int64, Sql.INT64_MIN, Sql.INT64_MAX. intro H.
  apply andb_true_iff in H. destruct H as [H1 H2]. apply Z.leb_le in H1, H2.
  assert (L : 9223372036854775808 < Py.FLOAT_OVERFLOW) by reflexivity. lia.
Qed.

Lemma multiply_inv (x : float) (q : Z) (t t' : transaction) (v : float) :
  multiply x q t = (inr v, t') ->
  t' = t /\ Z.abs q < Py.FLOAT_OVERFLOW /\ v = Py.mul_float_int x q.
Proof.
  unfold multiply, Py.float_of_int. destruct (Z.abs q <? Py.FLOAT_OVERFLOW) eqn:E; [| discriminate].
  intros [= <- <-]. apply Z.ltb_lt in E. auto.
Qed.

Lemma multiply_ok (x : float) (q : Z) (t : transaction) :
  Z.abs q < Py.FLOAT_OVERFLOW -> multiply x q t = (inr (Py.mul_float_int x q), t).
Proof. intro H. unfold multiply. now rewrite float_of_int_converts. Qed.

Lemma sum_items_inv (l : list InvoiceItemRequest) :
  forall (acc : float) (t t' : transaction) (v : float),
    sum_items l acc t = (inr v, t') ->
    t' = t /\ exists amounts, Forall2 (line_amount (current t)) l amounts /\
                              v = fold_left PrimFloat.add amounts acc.
Proof.
  induction l as [| item rest IH]; intros acc t t' v H.
  - injection H as <- <-. split; [reflexivity |]. exists []. split; [constructor | reflexivity].
  - cbn [sum_items] in H.
    apply bind_ok_inv in H. destruct H as (price & t1 & E & H).
    apply fetch_price_inv in E. destruct E as (-> & _ & p & Hp & ->).
    apply bind_ok_inv in H. destruct H as (amount & t1 & M & H).
    apply multiply_inv in M. destruct M as (-> & _ & ->).
    apply IH in H. destruct H as (-> & amounts & HF & ->).
    split; [reflexivity |].
    exists (Py.mul_float_int (p_price p) (quantity item) :: amounts). split.
    + constructor; [now exists p | exact HF].
    + reflexivity.
Qed.

Lemma insert_invoice_item_inv (k product q : Z) (unit_price subtotal : float)
  (t t' : transaction) (u : unit) :
  insert_invoice_item k product q unit_price subtotal t = (inr u, t') ->
  Sql.is_int64 q = true /\
  t' = mk_transaction
         (apply_write
            (InsertInvoiceItem
               (mk_invoice_item (next_rowid ii_id (invoice_items (current t))) k product q
                                (Sql.real unit_price) (Sql.real subtotal)))
            (current t))
         (journal t ++
          [InsertInvoiceItem
             (mk_invoice_item (next_rowid ii_id (invoice_items (current t))) k product q
                              (Sql.real unit_price) (Sql.real subtotal))]).
Proof.
  unfold insert_invoice_item. destruct u. intro H.
  apply bind_ok_inv in H. destruct H as ([] & t1 & E & H).
  apply bind_ints_ok_inv in E. destruct E as [-> E]. cbn [forallb] in E.
  apply andb_true_iff in E. destruct E as [_ E].
  apply andb_true_iff in E. destruct E as [_ E].
  apply andb_true_iff in E. destruct E as [E _].
  apply bind_ok_inv in H. destruct H as (rowid & t1 & R & H).
  unfold read in R. injection R as <- <-.
  destruct (negb _); [discriminate |].
  destruct (PrimFloat.is_nan unit_price); [discriminate |].
  destruct (PrimFloat.is_nan subtotal); [discriminate |].
  unfold execute_write in H. injection H as <-. split; [exact E | reflexivity].
Qed.

Lemma insert_items_inv (k : Z) (l : list InvoiceItemRequest) :
  forall (t t' : transaction) (u : unit),
    insert_items k l t = (inr u, t') ->
    products (current t') = products (current t) /\
    clients (current t') = clients (current t) /\
    invoices (current t') = invoices (current t) /\
    exists new,
      rows (invoice_items (current t')) = rows (invoice_items (current t)) ++ new /\
      Forall (fun ii => ii_invoice_id ii = k) new /\
      Forall2 (stored_line (current t)) l new /\
      Forall (fun item => Sql.is_int64 (quantity item) = true) l /\
      journal t' = journal t ++ map InsertInvoiceItem new.
Proof.
  induction l as [| item rest IH]; intros t t' [] H.
  - injection H as <-. repeat split. exists []. rewrite !app_nil_r.
    repeat split; constructor.
  - cbn [insert_items] in H.
    apply bind_ok_inv in H. destruct H as (price & t1 & E & H).
    apply fetch_price_inv in E. destruct E as (-> & _ & p & Hp & ->).
    apply bind_ok_inv in H. destruct H as (amount & t1 & M & H).
    apply multiply_inv in M. destruct M as (-> & _ & ->).
    apply bind_ok_inv in H. destruct H as ([] & t1 & I & H).
    apply insert_invoice_item_inv in I. destruct I as [Q ->].
    apply IH in H.
    cbn [current journal apply_write set_invoice_items products clients invoices
         invoice_items insert_row snd rows] in H.
    destruct H as (Hp' & Hc' & Hi' & new & Hrows & Hk & HF & HQ & HJ).
    repeat split; try assumption.
    eexists (_ :: new). split; [| split; [| split; [| split]]].
    + rewrite Hrows, <- app_assoc. reflexivity.
    + constructor; [reflexivity | exact Hk].
    + constructor.
      * exists p. repeat split. exact Hp.
      * clear - HF. induction HF; constructor; auto.
    + constructor; assumption.
    + rewrite HJ, <- app_assoc. reflexivity.
Qed.

(** The subtotals stored for the lines of a request are the amounts of the
    lines, as a REAL column keeps them. *)
Lemma stored_subtotals (s : store) (l : list InvoiceItemRequest) :
  forall new amounts,
    Forall2 (stored_line s) l new -> Forall2 (line_amount s) l amounts ->
    map ii_subtotal new = map Sql.real amounts.
Proof.
  induction l as [| item rest IH]; intros new amounts Hs Ha;
    inversion Hs; inversion Ha; subst; [reflexivity |].
  cbn [map]. f_equal; [| now apply IH].
  match goal with
  | H1 : stored_line _ _ _, H2 : line_amount _ _ _ |- _ =>
      destruct H1 as (p & Hp & _ & _ & _ & ->), H2 as (q & Hq & ->)
  end.
  rewrite Hp in Hq. now injection Hq as <-.
Qed.

(** ** What a successful [create_invoice] did *)

Lemma select_created_row (s s2 : store) (row : invoice_row) :
  i_id row = next_rowid i_id (invoices s) ->
  rows (invoices s2) = rows (invoices s) ++ [row] ->
  forall r, select_invoice_join_client (i_id row) s2 = Some r -> fst r = row.
Proof.
  intros Hid Hrows r. unfold select_invoice_join_client. rewrite Hrows, filter_app.
  rewrite filter_none.
  - cbn [app filter]. rewrite Z.eqb_refl. cbn [flat_map]. rewrite app_nil_r.
    destruct (filter _ (rows (clients s2))) as [| c cs]; [discriminate |].
    cbn. now intros [= <-].
  - intros x Hx. apply Z.eqb_neq. apply (next_rowid_fresh i_id) in Hx. lia.
Qed.

Lemma insert_invoice_inv (invoice_no issue due : string) (client : Z) (address : string)
  (tax_ total : float) (t t' : transaction) (k : Z) :
  insert_invoice invoice_no issue due client address tax_ total t = (inr k, t') ->
  k = next_rowid i_id (invoices (current t)) /\
  Sql.is_int64 k = true /\
  PrimFloat.is_nan tax_ = false /\
  PrimFloat.is_nan total = false /\
  existsb (fun i => String.eqb (i_invoice_no i) invoice_no) (rows (invoices (current t)))
  = false /\
  t' = mk_transaction
         (apply_write
            (InsertInvoice (mk_invoice k invoice_no issue due client address
                                       (Sql.real tax_) (Sql.real total)))
            (current t))
         (journal t ++
          [InsertInvoice (mk_invoice k invoice_no issue due client address
                                     (Sql.real tax_) (Sql.real total))]).
Proof.
  unfold insert_invoice. intro H.
  apply bind_ok_inv in H. destruct H as ([] & t1 & E & H).
  apply bind_ints_ok_inv in E. destruct E as [-> _].
  apply bind_ok_inv in H. destruct H as (rowid & t1 & R & H).
  unfold read in R. injection R as <- <-.
  apply bind_ok_inv in H. destruct H as (taken & t1 & R & H).
  unfold read in R. injection R as <- <-.
  destruct (Sql.is_int64 _) eqn:K; cbn [negb] in H; [| discriminate].
  destruct (PrimFloat.is_nan tax_); [discriminate |].
  destruct (PrimFloat.is_nan total); [discriminate |].
  destruct (existsb _ _); [discriminate |].
  apply bind_ok_inv in H. destruct H as ([] & t1 & W & H).
  unfold execute_write in W. injection W as <-. unfold ret in H. injection H as <- <-.
  repeat split. exact K.
Qed.

(** Everything a run of the body that returns went through. *)
Lemma create_invoice_body_inv (invoice : InvoiceCreate) (t t' : transaction)
  (resp : InvoiceResponse) :
  create_invoice_body invoice t = (inr resp, t') ->
  validate_invoice_input (current t) invoice = None /\
  exists c amounts new jrow,
    select_client (current t) (client_id invoice) = Some c /\
    Forall2 (line_amount (current t)) (items invoice) amounts /\
    let total := PrimFloat.add (float_sum amounts) (tax invoice) in
    let row := created_row (current t) invoice (c_address c) total in
    Sql.is_int64 (i_id row) = true /\
    PrimFloat.is_nan (tax invoice) = false /\
    PrimFloat.is_nan total = false /\
    existsb (fun i => String.eqb (i_invoice_no i) (get_next_invoice_number (current t)))
            (rows (invoices (current t))) = false /\
    products (current t') = products (current t) /\
    clients (current t') = clients (current t) /\
    invoices (current t') = mk_table (rows (invoices (current t)) ++ [row]) (i_id row) /\
    rows (invoice_items (current t')) = rows (invoice_items (current t)) ++ new /\
    Forall (fun ii => ii_invoice_id ii = i_id row) new /\
    Forall2 (stored_line (current t)) (items invoice) new /\
    Forall (fun item => Sql.is_int64 (quantity item) = true) (items invoice) /\
    select_invoice_join_client (i_id row) (current t') = Some jrow /\
    resp = build_response (client_id invoice) jrow
             (select_items_join_product (i_id row) (current t')) /\
    journal t' = journal t ++ InsertInvoice row :: map InsertInvoiceItem new.
Proof.
  unfold create_invoice_body. intro B.
  apply bind_ok_inv in B. destruct B as ([] & t1 & V & B).
  unfold validate_stmt in V.
  destruct (validate_invoice_input (current t) invoice) eqn:Vd; [discriminate |].
  injection V as <-. split; [reflexivity |].
  apply bind_ok_inv in B. destruct B as (client & t1 & C & B).
  apply execute_ok_inv in C. destruct C as (-> & _ & ->).
  apply bind_ok_inv in B. destruct B as (invoice_no & t1 & N & B).
  unfold read in N. injection N as <- <-.
  apply bind_ok_inv in B. destruct B as (subtotal & t1 & S & B).
  apply sum_items_inv in S. destruct S as (-> & amounts & HF & ->).
  apply bind_ok_inv in B. destruct B as (address & t1 & A & B).
  destruct (select_client (current t) (client_id invoice)) as [c |] eqn:C; [| discriminate].
  unfold subscript, ret in A. injection A as <- <-.
  apply bind_ok_inv in B. destruct B as (invoice_id & t1 & I & B).
  apply insert_invoice_inv in I. destruct I as (-> & K & Nt & Ntot & U & ->).
  apply bind_ok_inv in B. destruct B as ([] & t1 & It & B).
  apply insert_items_inv in It.
  cbn [current journal apply_write set_invoices products clients invoices invoice_items
       insert_row snd rows] in It.
  destruct It as (Hp & Hc & Hi & new & Hrows & Hk & HF2 & HQ & HJ).
  apply bind_ok_inv in B. destruct B as (invoice_row & t2 & J & B).
  apply execute_ok_inv in J. destruct J as (-> & _ & ->).
  apply bind_ok_inv in B. destruct B as (items_rows & t2 & J & B).
  apply execute_ok_inv in J. destruct J as (-> & _ & ->).
  apply bind_ok_inv in B. destruct B as (row & t2 & R & B).
  destruct (select_invoice_join_client _ (current t1)) as [jrow |] eqn:J; [| discriminate].
  unfold subscript, ret in R, B. injection R as <- <-. injection B as <- <-.
  exists c, amounts, new, jrow. cbn zeta. cbn [created_row i_id].
  split; [reflexivity |]. split; [exact HF |].
  split; [exact K |]. split; [exact Nt |]. split; [exact Ntot |]. split; [exact U |].
  split; [exact Hp |]. split; [exact Hc |]. split; [exact Hi |]. split; [exact Hrows |].
  split; [exact Hk |].
  split; [clear - HF2; induction HF2; constructor; auto |].
  split; [exact HQ |]. split; [exact J |]. split; [reflexivity |].
  rewrite HJ, <- app_assoc. reflexivity.
Qed.

Lemma create_invoice_ok_body (invoice : InvoiceCreate) (s s' : store) (resp : InvoiceResponse) :
  create_invoice invoice s = (s', Ok resp) ->
  exists t', create_invoice_body invoice (mk_transaction s []) = (inr resp, t') /\
             current t' = s'.
Proof.
  unfold create_invoice, with_get_db.
  destruct (create_invoice_body invoice (mk_transaction s [])) as [[[e | msg] | a] t'];
    try discriminate.
  intros [= <- <-]. now exists t'.
Qed.

Lemma create_invoice_ok_inv (invoice : InvoiceCreate) (s s' : store) (resp : InvoiceResponse) :
  create_invoice invoice s = (s', Ok resp) ->
  validate_invoice_input s invoice = None /\
  exists c amounts new,
    select_client s (client_id invoice) = Some c /\
    Forall2 (line_amount s) (items invoice) amounts /\
    let total := PrimFloat.add (float_sum amounts) (tax invoice) in
    let row := created_row s invoice (c_address c) total in
    PrimFloat.is_nan total = false /\
    existsb (fun i => String.eqb (i_invoice_no i) (get_next_invoice_number s))
            (rows (invoices s)) = false /\
    products s' = products s /\ clients s' = clients s /\
    rows (invoices s') = rows (invoices s) ++ [row] /\
    rows (invoice_items s') = rows (invoice_items s) ++ new /\
    Forall (fun ii => ii_invoice_id ii = i_id row) new /\
    Forall2 (stored_line s) (items invoice) new /\
    resp_id resp = i_id row /\
    resp_invoice_no resp = i_invoice_no row /\
    resp_total resp = i_total row.
Proof.
  intro H. apply create_invoice_ok_body in H. destruct H as (t' & B & <-).
  apply create_invoice_body_inv in B. cbn [current journal] in B.
  destruct B as (V & c & amounts & new & jrow & C & HF & B). cbn zeta in B.
  destruct B as (_ & _ & N & U & Hp & Hc & Hi & Hrows & Hk & HF2 & _ & J & -> & _).
  split; [exact V |]. exists c, amounts, new. cbn zeta.
  assert (Hrow : fst jrow = created_row s invoice (c_address c)
                               (PrimFloat.add (float_sum amounts) (tax invoice))).
  { apply (select_created_row s (current t')
             (created_row s invoice (c_address c)
                (PrimFloat.add (float_sum amounts) (tax invoice)))).
    - reflexivity.
    - rewrite Hi. reflexivity.
    - exact J. }
  destruct jrow as [i c']. cbn [fst] in Hrow. subst i.
  rewrite Hi. repeat split; assumption.
Qed.

(** ** Binary64 numbers *)

Lemma SF64add_comm (x y : spec_float) : SF64add x y = SF64add y x.
Proof.
  destruct x as [[|] | [|] | | [|] mx ex], y as [[|] | [|] | | [|] my ey];
    try reflexivity;
    unfold SF64add, SFadd; rewrite (Z.min_comm ey ex), Z.add_comm; reflexivity.
Qed.

Lemma Prim2SF_inj (x y : float) : Prim2SF x = Prim2SF y -> x = y.
Proof. intro H. rewrite <- (SF2Prim_Prim2SF x), <- (SF2Prim_Prim2SF y). now rewrite H. Qed.

Lemma float_add_comm (x y : float) : PrimFloat.add x y = PrimFloat.add y x.
Proof. apply Prim2SF_inj. now rewrite !add_spec, SF64add_comm. Qed.

(** The numbers equal to zero are the two zeros. *)
Lemma float_zero_cases (x : float) :
  PrimFloat.eqb x 0 = true <-> exists s, Prim2SF x = S754_zero s.
Proof.
  rewrite eqb_spec. change (Prim2SF 0) with (S754_zero false). split.
  - destruct (Prim2SF x) as [s | [|] | | [|] m e]; try discriminate. intros _. now exists s.
  - intros [s ->]. reflexivity.
Qed.

Lemma same_number_refl (x : float) : same_number x x.
Proof. now left. Qed.

Lemma same_number_real (x : float) : same_number (Sql.real x) x.
Proof.
  unfold Sql.real. destruct (PrimFloat.eqb x 0) eqn:E; [right | left; reflexivity].
  split; [reflexivity | exact E].
Qed.

Lemma same_number_sym (x y : float) : same_number x y -> same_number y x.
Proof. intros [-> | [H1 H2]]; [now left | now right]. Qed.

Lemma same_number_trans (x y z : float) :
  same_number x y -> same_number y z -> same_number x z.
Proof.
  intros [-> | [Hx Hy]] [-> | [Hy' Hz]]; [now left | now right | now right | now right].
Qed.

(** Adding to a zero of either sign gives numbers that are the same. *)
Lemma add_zero_same (x x' y : float) :
  PrimFloat.eqb x 0 = true -> PrimFloat.eqb x' 0 = true ->
  same_number (PrimFloat.add x y) (PrimFloat.add x' y).
Proof.
  intros Hx Hx'. apply float_zero_cases in Hx, Hx'. destruct Hx as [s Hx], Hx' as [s' Hx'].
  destruct (Prim2SF y) as [t | [|] | | [|] m e] eqn:Ey.
  - right. split; apply float_zero_cases; rewrite add_spec, ?Hx, ?Hx', Ey;
      destruct s, s', t; eexists; reflexivity.
  - left. apply Prim2SF_inj. rewrite !add_spec, Hx, Hx', Ey. reflexivity.
  - left. apply Prim2SF_inj. rewrite !add_spec, Hx, Hx', Ey. reflexivity.
  - left. apply Prim2SF_inj. rewrite !add_spec, Hx, Hx', Ey. reflexivity.
  - left. apply Prim2SF_inj. rewrite !add_spec, Hx, Hx', Ey. reflexivity.
  - left. apply Prim2SF_inj. rewrite !add_spec, Hx, Hx', Ey. reflexivity.
Qed.

Lemma same_number_add (x x' y y' : float) :
  same_number x x' -> same_number y y' ->
  same_number (PrimFloat.add x y) (PrimFloat.add x' y').
Proof.
  intros [-> | [Hx Hx']] [-> | [Hy Hy']].
  - now left.
  - rewrite (float_add_comm x' y), (float_add_comm x' y'). now apply add_zero_same.
  - now apply add_zero_same.
  - apply float_zero_cases in Hx, Hx', Hy, Hy'.
    destruct Hx as [s Hx], Hx' as [s' Hx'], Hy as [t Hy], Hy' as [t' Hy'].
    right. split; apply float_zero_cases; rewrite add_spec, ?Hx, ?Hx', ?Hy, ?Hy';
      destruct s, s', t, t'; eexists; reflexivity.
Qed.

Lemma same_number_fold (l l' : list float) :
  Forall2 same_number l l' ->
  forall acc acc', same_number acc acc' ->
                   same_number (fold_left PrimFloat.add l acc) (fold_left PrimFloat.add l' acc').
Proof.
  induction 1 as [| a a' r r' Ha _ IH]; intros acc acc' Hacc; [exact Hacc |].
  cbn [fold_left]. apply IH. now apply same_number_add.
Qed.

(** Numbers that are the same compare equal, unless they are NaN. *)
Lemma same_number_float_eq (x y : float) :
  same_number x y -> PrimFloat.is_nan x = false -> float_eq x y.
Proof.
  unfold float_eq. intros [<- | [Hx Hy]] N.
  - unfold PrimFloat.is_nan in N. now apply negb_false_iff in N.
  - apply float_zero_cases in Hx, Hy. destruct Hx as [s Hx], Hy as [t Hy].
    rewrite eqb_spec, Hx, Hy. reflexivity.
Qed.

Lemma real_is_nan (x : float) : PrimFloat.is_nan (Sql.real x) = PrimFloat.is_nan x.
Proof.
  unfold Sql.real. destruct (PrimFloat.eqb x 0) eqn:E; [| reflexivity].
  apply float_zero_cases in E. destruct E as [s E].
  unfold PrimFloat.is_nan. rewrite (eqb_spec x x), E. reflexivity.
Qed.

(** ** Statements that raise no [HTTPException] *)

Lemma no_http_ret {A : Type} (a : A) : no_http (ret a).
Proof. intros t e t'. discriminate. Qed.

Lemma no_http_read {A : Type} (q : store -> A) : no_http (read q).
Proof. intros t e t'. discriminate. Qed.

Lemma no_http_raise {A : Type} (msg : string) : no_http (@raise A (OtherError msg)).
Proof. intros t e t'. discriminate. Qed.

Lemma no_http_bind_ints (params : list Z) : no_http (bind_ints params).
Proof. intros t e t'. unfold bind_ints. destruct (forallb _ _); discriminate. Qed.

Lemma no_http_execute_write (w : write) : no_http (execute_write w).
Proof. intros t e t'. discriminate. Qed.

Lemma no_http_bind {A B : Type} (m : tx A) (k : A -> tx B) :
  no_http m -> (forall a, no_http (k a)) -> no_http (bind m k).
Proof.
  intros Hm Hk t e t'. unfold bind. destruct (m t) as [[x | a] t1] eqn:E.
  - intros [= -> ->]. exact (Hm _ _ _ E).
  - apply Hk.
Qed.

Lemma no_http_if {A : Type} (b : bool) (m1 m2 : tx A) :
  no_http m1 -> no_http m2 -> no_http (if b then m1 else m2).
Proof. now destruct b. Qed.

#[local] Hint Resolve no_http_ret no_http_read no_http_raise no_http_bind_ints
  no_http_execute_write no_http_bind no_http_if : no_http.

Lemma no_http_execute {A : Type} (q : Z -> store -> A) (param : Z) : no_http (execute q param).
Proof. unfold execute. auto with no_http. Qed.

Lemma no_http_subscript {R A : Type} (row : option R) (col : R -> A) :
  no_http (subscript row col).
Proof. destruct row; cbn [subscript]; auto with no_http. Qed.

Lemma no_http_multiply (x : float) (q : Z) : no_http (multiply x q).
Proof. unfold multiply. destruct (Py.float_of_int q); auto with no_http. Qed.

#[local] Hint Resolve no_http_execute no_http_subscript no_http_multiply : no_http.

Lemma no_http_fetch_price (id : Z) : no_http (fetch_price id).
Proof. unfold fetch_price. auto with no_http. Qed.

#[local] Hint Resolve no_http_fetch_price : no_http.

Lemma no_http_sum_items (l : list InvoiceItemRequest) :
  forall acc, no_http (sum_items l acc).
Proof. induction l as [| item rest IH]; intro acc; cbn [sum_items]; auto 6 with no_http. Qed.

Lemma no_http_insert_invoice (invoice_no issue due : string) (client : Z) (address : string)
  (tax_ total : float) :
  no_http (insert_invoice invoice_no issue due client address tax_ total).
Proof.
  unfold insert_invoice, full_error.
  apply no_http_bind; [auto with no_http | intros _].
  apply no_http_bind; [auto with no_http | intro k].
  apply no_http_bind; [auto with no_http | intro taken].
  repeat apply no_http_if; auto with no_http.
Qed.

Lemma no_http_insert_invoice_item (k product q : Z) (unit_price subtotal : float) :
  no_http (insert_invoice_item k product q unit_price subtotal).
Proof.
  unfold insert_invoice_item, full_error.
  apply no_http_bind; [auto with no_http | intros _].
  apply no_http_bind; [auto with no_http | intro rowid].
  repeat apply no_http_if; auto with no_http.
Qed.

#[local] Hint Resolve no_http_sum_items no_http_insert_invoice no_http_insert_invoice_item
  : no_http.

Lemma no_http_insert_items (k : Z) (l : list InvoiceItemRequest) : no_http (insert_items k l).
Proof. induction l as [| item rest IH]; cbn [insert_items]; auto 8 with no_http. Qed.

#[local] Hint Resolve no_http_insert_items : no_http.

(** ** Totals *)

Lemma find_app_fresh {A : Type} (f : A -> bool) (l : list A) (x : A) :
  (forall y, In y l -> f y = false) -> f x = true -> find f (l ++ [x]) = Some x.
Proof.
  intros Hl Hx. induction l as [| a r IH]; simpl.
  - now rewrite Hx.
  - rewrite (Hl a (or_introl eq_refl)). apply IH. intros y Hy. apply Hl. now right.
Qed.

Lemma filter_all {A : Type} (f : A -> bool) (l : list A) :
  Forall (fun x => f x = true) l -> filter f l = l.
Proof.
  induction 1 as [| a r Ha _ IH]; [reflexivity |]. simpl. now rewrite Ha, IH.
Qed.

(** The only [HTTPException] the body raises is the one validation raises,
    and nothing has been written when it does. *)
Lemma create_invoice_body_http (invoice : InvoiceCreate) (t t' : transaction)
  (e : HTTPException) :
  create_invoice_body invoice t = (inl (HTTPError e), t') ->
  validate_invoice_input (current t) invoice = Some e /\ t' = t.
Proof.
  unfold create_invoice_body. unfold bind at 1, validate_stmt.
  destruct (validate_invoice_input (current t) invoice) as [e' |].
  - intros [= -> ->]. auto.
  - intro H. exfalso. revert H.
    match goal with |- ?m _ = _ -> False => cut (no_http m); [intro N; apply N |] end.
    auto 20 with no_http.
Qed.

(** C2: a create that is persisted went through validation, and its total,
    returned and stored, equals ([==] on floats) the tax plus the binary64
    sum, in request order, of quantity times the price the product has in
    the store at creation; it is that number as a REAL column keeps it.
    The item rows stored for the invoice carry these prices and amounts, so
    the total also equals the tax plus the sum of the stored subtotals.  A
    request that passes validation is either persisted or ends in a 500
    that leaves the store as it was.  In the scenario of the specification
    the total is 5350 and the number is INV-001. *)
Theorem create_invoice_total :
  (forall s invoice s' resp,
      fk_items_invoice s ->
      create_invoice invoice s = (s', Ok resp) ->
      validate_invoice_input s invoice = None /\
      exists amounts,
        Forall2 (line_amount s) (items invoice) amounts /\
        float_eq (resp_total resp) (PrimFloat.add (tax invoice) (float_sum amounts)) /\
        resp_total resp = Sql.real (PrimFloat.add (tax invoice) (float_sum amounts)) /\
        (exists row, select_invoice s' (resp_id resp) = Some row /\
                     i_total row = resp_total resp) /\
        Forall2 (stored_line s) (items invoice) (items_of s' (resp_id resp)) /\
        map ii_subtotal (items_of s' (resp_id resp)) = map Sql.real amounts /\
        float_eq (resp_total resp)
                 (PrimFloat.add (tax invoice)
                    (float_sum (map ii_subtotal (items_of s' (resp_id resp)))))) /\
  (forall s invoice,
      validate_invoice_input s invoice = None ->
      (exists s' resp, create_invoice invoice s = (s', Ok resp)) \/
      (exists msg, create_invoice invoice s = (s, Raise (mk_http_exception 500 msg)))) /\
  (rows (invoices scenario_store) = [] /\
   exists s' resp,
     create_invoice scenario_request scenario_store = (s', Ok resp) /\
     resp_total resp = 5350%float /\
     resp_invoice_no resp = "INV-001"%string).
Proof.
  split; [| split].
  - intros s invoice s' resp Hfk H.
    apply create_invoice_ok_inv in H.
    destruct H as (V & c & amounts & new & _ & HF & H). cbn zeta in H.
    destruct H as (N & _ & _ & _ & Hinv & Hitems & Hnew & Hst & Hid & _ & Htot).
    cbn [created_row i_total i_id] in Htot, Hid, Hnew.
    rewrite (float_add_comm (float_sum amounts) (tax invoice)) in Htot, N.
    split; [exact V |]. exists amounts.
    assert (Hsel : select_invoice s' (resp_id resp) =
                   Some (created_row s invoice (c_address c)
                           (PrimFloat.add (float_sum amounts) (tax invoice)))).
    { unfold select_invoice. rewrite Hinv, Hid. apply find_app_fresh.
      - intros y Hy. apply Z.eqb_neq. apply (next_rowid_fresh i_id) in Hy. lia.
      - apply Z.eqb_refl. }
    assert (Hof : items_of s' (resp_id resp) = new).
    { unfold items_of. rewrite Hitems, filter_app, filter_none, Hid.
      - cbn [app]. apply filter_all. revert Hnew. apply Forall_impl.
        intros ii ->. apply Z.eqb_refl.
      - intros ii Hii. apply Z.eqb_neq. destruct (Hfk ii Hii) as (i & Hi & <-).
        apply (next_rowid_fresh i_id) in Hi. rewrite Hid. lia. }
    assert (Hsub : map ii_subtotal new = map Sql.real amounts)
      by (now apply (stored_subtotals s (items invoice))).
    assert (Nr : PrimFloat.is_nan (resp_total resp) = false)
      by (now rewrite Htot, real_is_nan).
    repeat split.
    + exact HF.
    + apply same_number_float_eq; [| exact Nr]. rewrite Htot. apply same_number_real.
    + exact Htot.
    + eexists. split; [exact Hsel |]. cbn [created_row i_total].
      now rewrite Htot, float_add_comm.
    + now rewrite Hof.
    + now rewrite Hof.
    + apply same_number_float_eq; [| exact Nr]. rewrite Htot, Hof, Hsub.
      apply same_number_trans with (y := PrimFloat.add (tax invoice) (float_sum amounts));
        [apply same_number_real |].
      apply same_number_add; [apply same_number_refl |].
      unfold float_sum. apply same_number_fold; [| apply same_number_refl].
      clear. induction amounts as [| a r IH]; constructor;
        [apply same_number_sym, same_number_real | exact IH].
  - intros s invoice V. unfold create_invoice, with_get_db.
    destruct (create_invoice_body invoice (mk_transaction s [])) as [[[e | msg] | a] t'] eqn:B.
    + apply create_invoice_body_http in B. cbn [current] in B. destruct B as [B _]. congruence.
    + right. eexists. reflexivity.
    + left. now exists (current t'), a.
  - split; [reflexivity |]. eexists. eexists. split; [vm_compute; reflexivity |].
    split; reflexivity.
Qed.

Lemma create_invoice_total_witness :
  fk_items_invoice scenario_store /\
  validate_invoice_input scenario_store scenario_request = None.
Proof.
  assert (Fk : fk_items_invoice scenario_store) by (intros ii []).
  split; [exact Fk |].
  refine (proj1 (proj1 create_invoice_total scenario_store scenario_request _ _ Fk _)).
  vm_compute. reflexivity.
Defined.

(** ** Validation *)

Lemma validate_items_first_failure (conn : store) (invoice : InvoiceCreate)
  (l : list InvoiceItemRequest) :
  Forall (fun item => Sql.is_int64 (product_id item) = true) l ->
  forall idx,
    validate_items conn idx l =
    option_map (fun k => HTTPError (bad_request (reason invoice k)))
               (find (fun k => negb (passes conn invoice k)) (item_checks (idx + 1) l)).
Proof.
  induction 1 as [| item rest Hb _ IH]; intro idx; [reflexivity |].
  cbn [validate_items item_checks find passes].
  rewrite (Z.leb_antisym 0 (quantity item)), Hb.
  destruct (0 <? quantity item); cbn [negb]; [| reflexivity].
  destruct (select_product conn (product_id item)); cbn [negb]; [apply IH | reflexivity].
Qed.

(** With ids the driver binds, validation raises for the first check that
    fails. *)
Lemma validate_first_failure (conn : store) (invoice : InvoiceCreate) :
  ids_bindable invoice ->
  validate_invoice_input conn invoice =
  option_map (fun k => HTTPError (bad_request (reason invoice k)))
             (first_failure conn invoice).
Proof.
  intros [Hc Hp]. unfold validate_invoice_input, first_failure, checks_in_order.
  cbn [app find passes]. rewrite Hc.
  destruct (List.length (Py.split "-" (issue_date invoice)) =? 3)%nat; cbn [negb andb orb];
    [| reflexivity].
  destruct (List.length (Py.split "-" (due_date invoice)) =? 3)%nat; cbn [negb andb orb];
    [| reflexivity].
  destruct (String.ltb (due_date invoice) (issue_date invoice)); cbn [negb]; [reflexivity |].
  destruct (select_client conn (client_id invoice)); cbn [negb]; [| reflexivity].
  destruct (items invoice) as [| item rest] eqn:E; cbn [negb]; [reflexivity |].
  destruct (PrimFloat.ltb (tax invoice) 0); cbn [negb]; [reflexivity |].
  apply (validate_items_first_failure conn invoice (item :: rest) Hp 0).
Qed.

Lemma validate_items_http (conn : store) (invoice : InvoiceCreate)
  (l : list InvoiceItemRequest) :
  forall idx (e : HTTPException),
    validate_items conn idx l = Some e ->
    exists k, find (fun k => negb (passes conn invoice k)) (item_checks (idx + 1) l) = Some k /\
              e = bad_request (reason invoice k).
Proof.
  induction l as [| item rest IH]; intros idx e H; [discriminate |].
  cbn [validate_items item_checks find passes] in *.
  rewrite (Z.leb_antisym 0 (quantity item)) in H.
  destruct (0 <? quantity item); cbn [negb] in *.
  - destruct (Sql.is_int64 (product_id item)); cbn [negb] in H; [| discriminate].
    destruct (select_product conn (product_id item)); cbn [negb].
    + now apply IH.
    + injection H as <-. eexists. split; reflexivity.
  - injection H as <-. eexists. split; reflexivity.
Qed.

(** An [HTTPException] of validation is the error of the first check that
    fails, whatever the ids of the request are. *)
Lemma validate_http_first_failure (conn : store) (invoice : InvoiceCreate)
  (e : HTTPException) :
  validate_invoice_input conn invoice = Some e ->
  exists k, first_failure conn invoice = Some k /\ e = bad_request (reason invoice k).
Proof.
  unfold validate_invoice_input, first_failure, checks_in_order.
  cbn [app find passes].
  destruct (List.length (Py.split "-" (issue_date invoice)) =? 3)%nat; cbn [negb andb orb];
    [| intros [= <-]; eexists; split; reflexivity].
  destruct (List.length (Py.split "-" (due_date invoice)) =? 3)%nat; cbn [negb andb orb];
    [| intros [= <-]; eexists; split; reflexivity].
  destruct (String.ltb (due_date invoice) (issue_date invoice)); cbn [negb];
    [intros [= <-]; eexists; split; reflexivity |].
  destruct (Sql.is_int64 (client_id invoice)); cbn [negb]; [| discriminate].
  destruct (select_client conn (client_id invoice)); cbn [negb];
    [| intros [= <-]; eexists; split; reflexivity].
  destruct (items invoice) as [| item rest] eqn:E; cbn [negb];
    [intros [= <-]; eexists; split; reflexivity |].
  destruct (PrimFloat.ltb (tax invoice) 0); cbn [negb];
    [intros [= <-]; eexists; split; reflexivity |].
  apply (validate_items_http conn invoice (item :: rest) 0).
Qed.

Lemma validate_status (conn : store) (invoice : InvoiceCreate) (e : HTTPException) :
  validate_invoice_input conn invoice = Some e -> status_code e = 400.
Proof.
  intro V. apply validate_http_first_failure in V. destruct V as (k & _ & ->). reflexivity.
Qed.

Lemma reason_distinct (invoice : InvoiceCreate) (k1 k2 : check) :
  kind k1 <> kind k2 -> reason invoice k1 <> reason invoice k2.
Proof.
  destruct k1, k2; cbn [kind reason append]; intro H; try (exfalso; apply H; reflexivity);
    discriminate.
Qed.

Lemma first_failure_fails (conn : store) (invoice : InvoiceCreate) (k : check) :
  first_failure conn invoice = Some k -> passes conn invoice k = false.
Proof.
  unfold first_failure. intro H. apply find_some in H. destruct H as [_ H].
  now apply negb_true_iff.
Qed.

Lemma first_failing_item (conn : store) (invoice : InvoiceCreate)
  (l : list InvoiceItemRequest) :
  forall p k,
    find (fun k => negb (passes conn invoice k)) (item_checks p l) = Some k ->
    exists pos item,
      (k = ItemQuantity pos item \/ k = ItemProduct pos item) /\
      first_failing_position conn p l = Some pos /\ In item l /\ p <= pos.
Proof.
  induction l as [| item rest IH]; intros p k H; [discriminate |].
  cbn [item_checks find passes first_failing_position] in *. unfold item_passes.
  destruct (0 <? quantity item); cbn [negb andb] in *.
  - destruct (select_product conn (product_id item)); cbn [negb] in *.
    + apply IH in H. destruct H as (pos & it & Hk & Hp & Hin & Hle).
      exists pos, it. split; [exact Hk | split; [exact Hp | split; [now right | lia]]].
    + injection H as <-. exists p, item.
      split; [now right | split; [reflexivity | split; [now left | lia]]].
  - injection H as <-. exists p, item.
    split; [now left | split; [reflexivity | split; [now left | lia]]].
Qed.

Lemma str_int_nonneg (n : Z) : 0 <= n -> Py.str_int n = Py.digits n.
Proof. destruct n; intro H; [reflexivity | reflexivity | lia]. Qed.

Lemma read_digits_stop (s : string) (c : ascii) (r : string) :
  all_digits s -> Sql.digit_of c = None ->
  forall acc, Sql.read_digits (s ++ String c r) acc = Sql.read_digits s acc.
Proof.
  intros Hs Hc. induction s as [| a t IH]; intro acc; cbn [append Sql.read_digits].
  - now rewrite Hc.
  - destruct Hs as [Ha Ht]. destruct (Sql.digit_of a); [apply IH; exact Ht | reflexivity].
Qed.

Lemma position_in_quantity_detail (invoice : InvoiceCreate) (pos : Z)
  (item : InvoiceItemRequest) :
  0 <= pos -> position_in_detail (reason invoice (ItemQuantity pos item)) = pos.
Proof.
  intro H. unfold position_in_detail. cbn [reason append Sql.drop].
  rewrite str_int_nonneg by exact H.
  rewrite read_digits_stop; [| apply all_digits_digits | reflexivity].
  rewrite read_digits_of_digits. lia.
Qed.

Lemma kind_of_reason (invoice : InvoiceCreate) (k1 k2 : check) :
  reason invoice k1 = reason invoice k2 -> kind k1 = kind k2.
Proof.
  intro H. destruct (Nat.eq_dec (kind k1) (kind k2)) as [E | N]; [exact E |].
  now apply (reason_distinct invoice) in N.
Qed.




(** Whatever the body raises, the store is given back as it was. *)
Lemma create_invoice_raise_store (invoice : InvoiceCreate) (s s' : store) (e : HTTPException) :
  create_invoice invoice s = (s', Raise e) -> s' = s.
Proof.
  unfold create_invoice, with_get_db.
  destruct (create_invoice_body invoice _) as [[[x | msg] | a] t']; now intros [= <-].
Qed.




(** C5, as the specification states it: the detail of a per-item failure
    would tell the position of the first failing item.  Two requests whose
    first failing item is at position 1 and at position 2 get the same
    detail, ["Product 7 not found"]. *)
Lemma product_detail_hides_position : ~ detail_reports_position.
Proof.
  intros [report H].
  pose proof (H scenario_store [mk_item_request 7 1]
                (bad_request "Product 7 not found") 1 eq_refl eq_refl) as H1.
  pose proof (H scenario_store [mk_item_request 1 1; mk_item_request 7 1]
                (bad_request "Product 7 not found") 2 eq_refl eq_refl) as H2.
  rewrite H1 in H2. discriminate.
Qed.

(** C5, amended: on a request whose client_id and product_ids are 64-bit
    integers, validation raises for the first check that fails in the
    order date shape, date order, client exists, items non-empty, tax
    non-negative, then quantity and product of each item in request order,
    and returns when none fails.  On any request, an error of validation
    is a 400 whose detail is the reason of the first check that fails, and
    checks of different kinds have different reasons.  The detail of a
    quantity failure carries the 1-based position of the first failing
    item; the detail of a product failure carries the product_id of that
    item. *)
Theorem validate_first_failing_check (conn : store) (invoice : InvoiceCreate) :
  (ids_bindable invoice ->
   validate_invoice_input conn invoice
   = option_map (fun k => HTTPError (bad_request (reason invoice k)))
                (first_failure conn invoice)) /\
  (forall e : HTTPException,
      validate_invoice_input conn invoice = Some e ->
      status_code e = 400 /\
      exists k, first_failure conn invoice = Some k /\ e = bad_request (reason invoice k)) /\
  (forall k1 k2, kind k1 <> kind k2 -> reason invoice k1 <> reason invoice k2) /\
  (forall pos item,
      first_failure conn invoice = Some (ItemQuantity pos item) ->
      first_failing_position conn 1 (items invoice) = Some pos /\
      position_in_detail (reason invoice (ItemQuantity pos item)) = pos) /\
  (forall pos item,
      first_failure conn invoice = Some (ItemProduct pos item) ->
      first_failing_position conn 1 (items invoice) = Some pos /\
      In item (items invoice) /\
      reason invoice (ItemProduct pos item)
      = ("Product " ++ Py.str_int (product_id item) ++ " not found")%string).
Proof.
  split; [apply validate_first_failure |].
  split; [intros e V; split; [now apply validate_status in V
                             | now apply validate_http_first_failure] |].
  split; [apply reason_distinct |].
  assert (Items : forall k, kind k = 5%nat \/ kind k = 6%nat ->
            first_failure conn invoice = Some k ->
            exists pos item, (k = ItemQuantity pos item \/ k = ItemProduct pos item) /\
              first_failing_position conn 1 (items invoice) = Some pos /\
              In item (items invoice) /\ 1 <= pos).
  { intros k Hk. unfold first_failure, checks_in_order. cbn [app find].
    repeat (match goal with
            | |- (if negb ?b then _ else _) = _ -> _ =>
                destruct b; cbn [negb];
                [| intros [= <-]; cbn [kind] in Hk; destruct Hk; discriminate]
            end).
    apply first_failing_item. }
  split.
  - intros pos item F.
    destruct (Items (ItemQuantity pos item) (or_introl eq_refl) F) as (p & it & [[= <- <-] | [=]] & Hp & _ & Hle).
    split; [exact Hp |]. apply position_in_quantity_detail. lia.
  - intros pos item F.
    destruct (Items (ItemProduct pos item) (or_intror eq_refl) F) as (p & it & [[=] | [= <- <-]] & Hp & Hin & _).
    split; [exact Hp | split; [exact Hin | reflexivity]].
Qed.

Lemma validate_first_failing_check_witness :
  ids_bindable (mk_invoice_create 1 "2024-03-01" "2024-03-10" 0%float
                  [mk_item_request 1 1; mk_item_request 2 0]) /\
  validate_invoice_input scenario_store
    (mk_invoice_create 1 "2024-03-01" "2024-03-10" 0%float
       [mk_item_request 1 1; mk_item_request 2 0])
  = Some (HTTPError (bad_request "Item 2: Quantity must be greater than 0")) /\
  first_failing_position scenario_store 1 [mk_item_request 1 1; mk_item_request 2 0] = Some 2 /\
  position_in_detail "Item 2: Quantity must be greater than 0" = 2.
Proof.
  assert (Hb : ids_bindable (mk_invoice_create 1 "2024-03-01" "2024-03-10" 0%float
                               [mk_item_request 1 1; mk_item_request 2 0])).
  { split; [reflexivity |]. repeat constructor. }
  split; [exact Hb |]. split.
  - rewrite (proj1 (validate_first_failing_check scenario_store _) Hb). reflexivity.
  - exact (proj1 (proj2 (proj2 (proj2 (validate_first_failing_check scenario_store
             (mk_invoice_create 1 "2024-03-01" "2024-03-10" 0%float
                [mk_item_request 1 1; mk_item_request 2 0])))))
             2 (mk_item_request 2 0) eq_refl).
Defined.

(** ** Dates *)

Lemma split_length (sep : ascii) (s : string) :
  List.length (Py.split sep s) = S (count_char sep s).
Proof.
  induction s as [| c r IH]; [reflexivity |].
  cbn [Py.split count_char]. destruct (Ascii.eqb c sep).
  - cbn [List.length]. now rewrite IH.
  - destruct (Py.split sep r); [discriminate | exact IH].
Qed.

Lemma first_failure_kind0 (conn : store) (invoice : InvoiceCreate) (k : check) :
  first_failure conn invoice = Some k -> kind k = 0%nat ->
  passes conn invoice DateShape = false.
Proof.
  intros F K. destruct k; try discriminate. now apply first_failure_fails in F.
Qed.

Lemma date_shape_passes (conn : store) (invoice : InvoiceCreate) :
  passes conn invoice DateShape = true <-> date_shape_ok invoice.
Proof.
  unfold date_shape_ok. cbn [passes]. rewrite andb_true_iff, !Nat.eqb_eq. reflexivity.
Qed.

(** The check whose reason is the detail of an error of validation. *)
Lemma validate_http_reason (conn : store) (invoice : InvoiceCreate) (k0 : check) :
  validate_invoice_input conn invoice = Some (HTTPError (bad_request (reason invoice k0))) ->
  exists k, first_failure conn invoice = Some k /\ kind k = kind k0.
Proof.
  intro V. apply validate_http_first_failure in V. destruct V as (k & F & E).
  exists k. split; [exact F |]. apply (kind_of_reason invoice).
  now injection E as <-.
Qed.

(** C6: validation raises the date-format error exactly when one of the two
    dates does not split on ['-'] into three components; the number of
    components is one more than the number of ['-'] in the string, whatever
    the other characters are; ["2024-99-99"] is accepted. *)
Theorem date_check_is_syntactic (conn : store) (invoice : InvoiceCreate) :
  (validate_invoice_input conn invoice = Some dates_error <-> ~ date_shape_ok invoice) /\
  (forall s, List.length (Py.split "-" s) = S (count_char "-" s)) /\
  validate_invoice_input scenario_store
    (mk_invoice_create 1 "2024-99-99" "2024-99-99" 0%float [mk_item_request 1 1]) = None.
Proof.
  split; [| split; [apply split_length | reflexivity]].
  rewrite <- date_shape_passes with (conn := conn). split.
  - intro V. apply (validate_http_reason conn invoice DateShape) in V.
    destruct V as (k & F & E).
    rewrite (first_failure_kind0 conn invoice k F E). discriminate.
  - intro H. apply not_true_is_false in H. cbn [passes] in H.
    unfold validate_invoice_input. rewrite <- negb_andb, H. reflexivity.
Qed.

Lemma date_check_is_syntactic_witness :
  validate_invoice_input scenario_store
    (mk_invoice_create 1 "2024-03" "2024-03-10" 0%float [mk_item_request 1 1])
  = Some dates_error.
Proof.
  refine (proj2 (proj1 (date_check_is_syntactic scenario_store _)) _).
  intros [H _]. vm_compute in H. discriminate.
Defined.

(** C7: among the requests whose dates pass the shape check, validation
    raises the date-order error exactly when [due_date < issue_date] as
    strings; issue 2024-03-10 with due 2024-03-01 is rejected with a 400. *)
Theorem due_date_order_check (conn : store) (invoice : InvoiceCreate) :
  date_shape_ok invoice ->
  (validate_invoice_input conn invoice = Some order_error
   <-> String.ltb (due_date invoice) (issue_date invoice) = true) /\
  (String.ltb (due_date invoice) (issue_date invoice) = false ->
   validate_invoice_input conn invoice <> Some order_error) /\
  status_code order_error = 400 /\
  validate_invoice_input scenario_store
    (mk_invoice_create 1 "2024-03-10" "2024-03-01" 0%float [mk_item_request 1 1])
  = Some order_error.
Proof.
  intros [Hi Hd].
  assert (Iff : validate_invoice_input conn invoice = Some order_error
                <-> String.ltb (due_date invoice) (issue_date invoice) = true).
  { split.
    - intro V. apply (validate_http_reason conn invoice DateOrder) in V.
      destruct V as (k & F & E).
      destruct k; try discriminate. apply first_failure_fails in F.
      cbn [passes] in F. now apply negb_false_iff in F.
    - intro H. unfold validate_invoice_input.
      apply Nat.eqb_eq in Hi, Hd. rewrite Hi, Hd, H. reflexivity. }
  split; [exact Iff | split; [| split; reflexivity]].
  intros H V. apply Iff in V. congruence.
Qed.

Lemma due_date_order_check_witness :
  validate_invoice_input scenario_store
    (mk_invoice_create 1 "2024-03-10" "2024-03-01" 0%float [mk_item_request 1 1])
  = Some order_error.
Proof.
  refine (proj2 (proj1 (due_date_order_check scenario_store _ _)) _).
  - split; reflexivity.
  - reflexivity.
Defined.

(** ** Deletion *)

Lemma delete_where_gone {row : Type} (cond : row -> bool) (t : table row) (r : row) :
  In r (rows (delete_where cond t)) -> cond r = false.
Proof.
  unfold delete_where. cbn [rows]. intro H. apply filter_In in H.
  now apply negb_true_iff.
Qed.

(** The run of the body on the id of a stored invoice. *)
Lemma delete_invoice_body_found (invoice_id : Z) (t : transaction) (i : invoice_row) :
  Sql.is_int64 invoice_id = true ->
  select_invoice (current t) invoice_id = Some i ->
  delete_invoice_body invoice_id t
  = (inr tt,
     mk_transaction
       (apply_write (DeleteInvoice invoice_id)
          (apply_write (DeleteInvoiceItems invoice_id) (current t)))
       (journal t ++ [DeleteInvoiceItems invoice_id; DeleteInvoice invoice_id])).
Proof.
  intros Hb Hi. unfold delete_invoice_body. unfold bind at 1. rewrite execute_ok by exact Hb.
  rewrite Hi. unfold delete_invoice_items, delete_invoice_row, bind, bind_ints, execute_write.
  cbn [forallb]. rewrite Hb. cbn [andb current journal ret].
  now rewrite <- app_assoc.
Qed.

(** The three ways a delete ends. *)
Lemma delete_invoice_cases (invoice_id : Z) (s : store) :
  (Sql.is_int64 invoice_id = false /\
   delete_invoice invoice_id s
   = (s, Raise (mk_http_exception 500
                  "Database error: Python int too large to convert to SQLite INTEGER"))) \/
  (Sql.is_int64 invoice_id = true /\ select_invoice s invoice_id = None /\
   delete_invoice invoice_id s = (s, Raise not_found)) \/
  (Sql.is_int64 invoice_id = true /\ (exists i, select_invoice s invoice_id = Some i) /\
   delete_invoice invoice_id s
   = (apply_write (DeleteInvoice invoice_id) (apply_write (DeleteInvoiceItems invoice_id) s),
      Ok tt)).
Proof.
  unfold delete_invoice, with_get_db.
  destruct (Sql.is_int64 invoice_id) eqn:Hb.
  - right. destruct (select_invoice s invoice_id) as [i |] eqn:Hi.
    + right. split; [reflexivity | split; [now exists i |]].
      now rewrite (delete_invoice_body_found invoice_id (mk_transaction s []) i Hb Hi).
    + left. split; [reflexivity | split; [reflexivity |]].
      unfold delete_invoice_body, bind. rewrite execute_ok by exact Hb.
      cbn [current]. rewrite Hi. reflexivity.
  - left. split; [reflexivity |].
    unfold delete_invoice_body, bind. rewrite execute_overflow by exact Hb. reflexivity.
Qed.

(** The two ways a read of one invoice ends. *)
Lemma get_invoice_cases (invoice_id : Z) (s : store) :
  (Sql.is_int64 invoice_id = false /\
   get_invoice invoice_id s
   = (s, Raise (mk_http_exception 500
                  "Database error: Python int too large to convert to SQLite INTEGER"))) \/
  (Sql.is_int64 invoice_id = true /\
   get_invoice invoice_id s
   = (s, match select_invoice_join_client invoice_id s with
         | None => Raise not_found
         | Some row =>
             Ok (build_response (i_client_id (fst row)) row
                   (select_items_join_product invoice_id s))
         end)).
Proof.
  unfold get_invoice, with_get_db, get_invoice_body.
  destruct (Sql.is_int64 invoice_id) eqn:Hb.
  - right. split; [reflexivity |]. unfold bind at 1. rewrite execute_ok by exact Hb.
    cbn [current]. destruct (select_invoice_join_client invoice_id s) as [row |];
      [| reflexivity].
    unfold bind. rewrite execute_ok by exact Hb. reflexivity.
  - left. split; [reflexivity |]. unfold bind. rewrite execute_overflow by exact Hb.
    reflexivity.
Qed.

(** C8, as the specification states it, on an id past the 64-bit range: no
    invoice row has it, the driver cannot bind it, and the answer is a 500,
    not a 404. *)
Lemma delete_unbindable_id_gives_500 :
  select_invoice scenario_store 9223372036854775808 = None /\
  delete_invoice 9223372036854775808 scenario_store
  = (scenario_store,
     Raise (mk_http_exception 500
              "Database error: Python int too large to convert to SQLite INTEGER")) /\
  snd (delete_invoice 9223372036854775808 scenario_store) <> Raise not_found.
Proof.
  split; [reflexivity |].
  assert (E : delete_invoice 9223372036854775808 scenario_store
              = (scenario_store,
                 Raise (mk_http_exception 500
                          "Database error: Python int too large to convert to SQLite INTEGER")))
    by (vm_compute; reflexivity).
  split; [exact E |]. rewrite E. discriminate.
Qed.

(** C8, amended: the id being a 64-bit integer.  On the id of a stored
    invoice the body of [delete_invoice] runs two statements that change
    the database, in this order: the DELETE of the item rows of the
    invoice, then the DELETE of the invoice row.  After the first the
    invoice row is still there and no item row refers to the id; an item
    table whose rows all refer to stored invoices stays so after each of
    the two.  Afterwards [get_invoice] on that id is a 404, no item row
    refers to the id and no invoice row has it.  On an id without an
    invoice row the answer is a 404 and nothing is written. *)
Theorem delete_invoice_removes_items_then_invoice (s : store) (invoice_id : Z) :
  Sql.is_int64 invoice_id = true ->
  (forall i, select_invoice s invoice_id = Some i ->
     let s1 := apply_write (DeleteInvoiceItems invoice_id) s in
     let s' := apply_write (DeleteInvoice invoice_id) s1 in
     delete_invoice_body invoice_id (mk_transaction s [])
     = (inr tt,
        mk_transaction s' [DeleteInvoiceItems invoice_id; DeleteInvoice invoice_id]) /\
     select_invoice s1 invoice_id = Some i /\
     (forall ii, In ii (rows (invoice_items s1)) -> ii_invoice_id ii <> invoice_id) /\
     (fk_items_invoice s -> fk_items_invoice s1 /\ fk_items_invoice s') /\
     delete_invoice invoice_id s = (s', Ok tt) /\
     get_invoice invoice_id s' = (s', Raise not_found) /\
     (forall ii, In ii (rows (invoice_items s')) -> ii_invoice_id ii <> invoice_id) /\
     (forall j, In j (rows (invoices s')) -> i_id j <> invoice_id)) /\
  (select_invoice s invoice_id = None ->
     delete_invoice invoice_id s = (s, Raise not_found) /\
     delete_invoice_body invoice_id (mk_transaction s [])
     = (inl (HTTPError not_found), mk_transaction s [])) /\
  status_code not_found = 404.
Proof.
  intro Hb. split; [| split; [| reflexivity]].
  - intros i Hi. cbn zeta.
    pose proof (delete_invoice_body_found invoice_id (mk_transaction s []) i Hb Hi) as B.
    cbn [current journal app] in B.
    assert (Gone : forall j,
               In j (rows (delete_where (fun i => i_id i =? invoice_id) (invoices s))) ->
               i_id j <> invoice_id).
    { intros j Hj. apply delete_where_gone in Hj. now apply Z.eqb_neq. }
    assert (Items : forall ii,
               In ii (rows (delete_where (fun ii => ii_invoice_id ii =? invoice_id)
                              (invoice_items s))) ->
               ii_invoice_id ii <> invoice_id).
    { intros ii Hii. apply delete_where_gone in Hii. now apply Z.eqb_neq. }
    split; [exact B |]. split; [exact Hi |]. split; [exact Items |].
    split; [| split; [| split; [| split]]].
    + intro Hfk. split.
      * intros ii Hii. cbn [apply_write set_invoice_items invoice_items invoices] in *.
        unfold delete_where in Hii. cbn [rows] in Hii. apply filter_In in Hii.
        now apply Hfk.
      * intros ii Hii.
        cbn [apply_write set_invoice_items set_invoices invoice_items invoices] in *.
        pose proof (Items ii Hii) as Hne.
        unfold delete_where in Hii |- *. cbn [rows] in Hii |- *. apply filter_In in Hii.
        destruct (Hfk ii (proj1 Hii)) as (j & Hj & E). exists j. split; [| exact E].
        apply filter_In. split; [exact Hj |]. apply negb_true_iff, Z.eqb_neq. congruence.
    + unfold delete_invoice, with_get_db. now rewrite B.
    + destruct (get_invoice_cases invoice_id
                  (apply_write (DeleteInvoice invoice_id)
                     (apply_write (DeleteInvoiceItems invoice_id) s)))
        as [[Hf _] | [_ G]]; [congruence |].
      rewrite G. unfold select_invoice_join_client.
      cbn [apply_write set_invoices set_invoice_items invoices clients].
      rewrite filter_none; [reflexivity |].
      intros j Hj. apply Z.eqb_neq. now apply Gone.
    + exact Items.
    + exact Gone.
  - intro Hn. unfold delete_invoice, with_get_db.
    assert (B : delete_invoice_body invoice_id (mk_transaction s [])
                = (inl (HTTPError not_found), mk_transaction s [])).
    { unfold delete_invoice_body, bind. rewrite execute_ok by exact Hb.
      cbn [current]. rewrite Hn. reflexivity. }
    rewrite B. split; reflexivity.
Qed.

Lemma delete_invoice_removes_items_then_invoice_witness :
  Sql.is_int64 1 = true /\
  get_invoice 1 (fst (delete_invoice 1 (fst (create_invoice scenario_request scenario_store))))
  = (fst (delete_invoice 1 (fst (create_invoice scenario_request scenario_store))),
     Raise not_found).
Proof.
  split; [reflexivity |].
  destruct (proj1 (delete_invoice_removes_items_then_invoice
                     (fst (create_invoice scenario_request scenario_store)) 1 eq_refl)
              (mk_invoice 1 "INV-001" "2024-03-01" "2024-03-10" 1
                 "123 Business Ave, New York, NY 10001" 50%float 5350%float)
              eq_refl)
    as (_ & _ & _ & _ & D & G & _).
  rewrite D. exact G.
Defined.

(** ** Migration units *)

Section ApplyUnit.

Import Migrations.

Variable name : string.
Variable forward : db -> string + db.

Lemma existsb_eqb_in (l : list string) :
  existsb (String.eqb name) l = true <-> In name l.
Proof.
  rewrite existsb_exists. split.
  - intros (x & Hx & E). apply String.eqb_eq in E. now subst.
  - intro H. exists name. split; [exact H | apply String.eqb_refl].
Qed.

Lemma apply_unit_skips (d : db) (l : list string) :
  ledger d = Some l -> In name l -> apply_unit name forward d = (Skipped, d).
Proof.
  intros L H. unfold apply_unit. rewrite L.
  apply existsb_eqb_in in H. now rewrite H.
Qed.

Lemma apply_unit_applies (d d' : db) (l l' : list string) :
  ledger d = Some l -> ~ In name l -> forward d = inr d' -> ledger d' = Some l' ->
  apply_unit name forward d = (Applied, set_ledger d' (l' ++ [name])).
Proof.
  intros L H F L'. unfold apply_unit. rewrite L.
  destruct (existsb (String.eqb name) l) eqn:E.
  - apply existsb_eqb_in in E. contradiction.
  - now rewrite F, L'.
Qed.

(** Every run ends in the store it was given or in one whose ledger has
    the name. *)
Lemma apply_unit_outcome (d : db) :
  snd (apply_unit name forward d) = d \/
  exists l, ledger (snd (apply_unit name forward d)) = Some l /\ In name l.
Proof.
  unfold apply_unit.
  destruct (ledger d) as [l |]; [| now left].
  destruct (existsb (String.eqb name) l); [now left |].
  destruct (forward d) as [msg | d']; [now left |].
  destruct (ledger d') as [l' |]; [| now left].
  right. exists (l' ++ [name]). split; [reflexivity |].
  apply in_or_app. right. now left.
Qed.

Lemma apply_unit_twice (d : db) :
  snd (apply_unit name forward (snd (apply_unit name forward d)))
  = snd (apply_unit name forward d).
Proof.
  destruct (apply_unit_outcome d) as [E | (l & L & H)].
  - now rewrite E.
  - now rewrite (apply_unit_skips _ l L H).
Qed.

End ApplyUnit.

(** C9: for each of the units 002 to 006, [upgrade] returns early and
    leaves the database as it is when the ledger has the unit's name;
    otherwise, when the forward statements go through, it ends with their
    effect and the name added to the ledger; and a second run after a first
    leaves the database the first run left. *)
Theorem upgrade_idempotent (u : Migrations.migration_unit) (d : Migrations.db) :
  In u Migrations.migration_units ->
  (forall l, Migrations.ledger d = Some l -> In (Migrations.unit_name u) l ->
             Migrations.unit_upgrade u d = (Migrations.Skipped, d)) /\
  (forall l d', Migrations.ledger d = Some l -> ~ In (Migrations.unit_name u) l ->
                Migrations.unit_forward u d = inr d' ->
                Migrations.unit_upgrade u d
                = (Migrations.Applied, Migrations.set_ledger d' (l ++ [Migrations.unit_name u]))) /\
  snd (Migrations.unit_upgrade u (snd (Migrations.unit_upgrade u d)))
  = snd (Migrations.unit_upgrade u d) /\
  (forall l, Migrations.ledger (snd (Migrations.unit_upgrade u d)) = Some l ->
             In (Migrations.unit_name u) l ->
             Migrations.unit_upgrade u (snd (Migrations.unit_upgrade u d))
             = (Migrations.Skipped, snd (Migrations.unit_upgrade u d))).
Proof.
  intro Hu.
  assert (Shape : Migrations.unit_upgrade u
                  = Migrations.apply_unit (Migrations.unit_name u) (Migrations.unit_forward u)).
  { cbn in Hu. repeat destruct Hu as [<- | Hu]; try reflexivity. destruct Hu. }
  assert (Ledger : forall d', Migrations.unit_forward u d = inr d' ->
                              Migrations.ledger d' = Migrations.ledger d).
  { intros d'. cbn in Hu.
    repeat destruct Hu as [<- | Hu]; try destruct Hu;
      cbn [Migrations.unit_forward]; try (now intros [= <-]).
    unfold Migrations.M006.forward.
    destruct (Migrations.db_products d); [| discriminate].
    destruct (Migrations.db_clients d); [| discriminate].
    now intros [= <-]. }
  rewrite Shape. split; [| split; [| split]].
  - intros l L H. now apply apply_unit_skips with (l := l).
  - intros l d' L H F. apply apply_unit_applies with (l := l); auto.
    rewrite (Ledger d' F). exact L.
  - apply apply_unit_twice.
  - intros l L H. now apply apply_unit_skips with (l := l).
Qed.

Lemma upgrade_idempotent_witness :
  Migrations.M006.upgrade (snd (Migrations.M002.upgrade Migrations.fresh_db))
  = (Migrations.Failed "no such table: clients",
     snd (Migrations.M002.upgrade Migrations.fresh_db)) /\
  snd (Migrations.M002.upgrade (snd (Migrations.M002.upgrade Migrations.fresh_db)))
  = snd (Migrations.M002.upgrade Migrations.fresh_db).
Proof.
  split; [reflexivity |].
  exact (proj1 (proj2 (proj2 (upgrade_idempotent
           (Migrations.mk_unit Migrations.M002.name Migrations.M002.forward
                               Migrations.M002.upgrade)
           Migrations.fresh_db (or_introl eq_refl))))).
Defined.

(** ** Numbering *)

Lemma get_next_invoice_number_max_num (conn : store) :
  get_next_invoice_number conn = invoice_no_of (max_num conn + 1).
Proof. reflexivity. Qed.

Lemma max_num_bounds (s : store) :
  numbered s ->
  0 <= max_num s <= Sql.INT64_MAX /\
  forall i, In i (rows (invoices s)) -> suffix_number (i_invoice_no i) <= max_num s.
Proof.
  intro Hn. unfold max_num.
  destruct (Sql.max (map (fun i => suffix_number (i_invoice_no i)) (rows (invoices s))))
    as [m |] eqn:E; cbn [Sql.coalesce].
  - destruct (sql_max_spec _ _ E) as [Hin Hle]. split.
    + apply in_map_iff in Hin. destruct Hin as (i & <- & Hi).
      destruct (Hn i Hi) as (n & Hr & ->).
      rewrite suffix_number_invoice_no_of by lia. unfold Sql.INT64_MAX in *. lia.
    + intros i Hi. apply Hle. apply in_map_iff. now exists i.
  - apply sql_max_nil_iff, map_eq_nil in E. rewrite E.
    split; [unfold Sql.INT64_MAX; lia | intros i []].
Qed.

(** C10, as the specification states it, at the first number past the
    64-bit range: the identifier is formatted in full, and the cast of its
    suffix is the largest 64-bit integer. *)
Lemma suffix_number_saturates :
  1 <= 9223372036854775808 /\
  invoice_no_of 9223372036854775808 = "INV-9223372036854775808"%string /\
  suffix_number (invoice_no_of 9223372036854775808) = 9223372036854775807 /\
  suffix_number (invoice_no_of 9223372036854775808) <> 9223372036854775808.
Proof.
  split; [lia |]. split; [reflexivity |]. split; [reflexivity |].
  vm_compute. discriminate.
Qed.

(** C10, amended: for every n from 1 to the largest 64-bit integer, the
    cast of the suffix of the formatted number is n, also when n >= 1000
    and the identifier has more than three digits; read as a decimal of any
    size the suffix is n for every n >= 1, so the formatting is injective;
    and on a table whose numbers are formatted from numbers up to n, n
    among them, the next number is the formatted n + 1. *)
Theorem invoice_number_roundtrip :
  (forall n, 1 <= n <= Sql.INT64_MAX -> suffix_number (invoice_no_of n) = n) /\
  (forall n, 1 <= n -> decimal_suffix (invoice_no_of n) = n) /\
  (forall n m, 1 <= n -> 1 <= m -> invoice_no_of n = invoice_no_of m -> n = m) /\
  (forall conn n,
      1 <= n <= Sql.INT64_MAX ->
      In (invoice_no_of n) (map i_invoice_no (rows (invoices conn))) ->
      (forall i, In i (rows (invoices conn)) ->
                 exists k, 1 <= k <= n /\ i_invoice_no i = invoice_no_of k) ->
      get_next_invoice_number conn = invoice_no_of (n + 1)) /\
  invoice_no_of 1000 = "INV-1000"%string.
Proof.
  split; [| split; [| split; [| split; [| reflexivity]]]].
  - intros n H. rewrite suffix_number_invoice_no_of by lia. lia.
  - intros n H. apply decimal_suffix_invoice_no_of. lia.
  - intros n m Hn Hm. apply invoice_no_of_inj; lia.
  - intros conn n Hn Hin Hall.
    rewrite get_next_invoice_number_max_num. f_equal. f_equal.
    assert (Num : numbered conn).
    { intros i Hi. destruct (Hall i Hi) as (k & Hk & E). exists k. split; [lia | exact E]. }
    destruct (max_num_bounds conn Num) as [_ Hle].
    apply in_map_iff in Hin. destruct Hin as (i & Hi & Hin).
    pose proof (Hle i Hin) as Hge. rewrite Hi, suffix_number_invoice_no_of in Hge by lia.
    assert (Hup : max_num conn <= n).
    { unfold max_num in *.
      destruct (Sql.max (map (fun i => suffix_number (i_invoice_no i)) (rows (invoices conn))))
        as [m |] eqn:E; cbn [Sql.coalesce] in *; [| lia].
      apply sql_max_spec in E. destruct E as [Hm _].
      apply in_map_iff in Hm. destruct Hm as (j & <- & Hj).
      destruct (Hall j Hj) as (k & Hk & ->).
      rewrite suffix_number_invoice_no_of by lia. lia. }
    lia.
Qed.

Lemma invoice_number_roundtrip_witness :
  1 <= 1000 <= Sql.INT64_MAX /\ suffix_number (invoice_no_of 1000) = 1000.
Proof.
  assert (H : 1 <= 1000 <= Sql.INT64_MAX) by (unfold Sql.INT64_MAX; lia).
  split; [exact H | exact (proj1 invoice_number_roundtrip 1000 H)].
Defined.

(** ** Stores the API reaches *)

Lemma delete_invoice_ok_inv (invoice_id : Z) (s s' : store) :
  delete_invoice invoice_id s = (s', Ok tt) ->
  rows (invoices s') = filter (fun i => negb (i_id i =? invoice_id)) (rows (invoices s)) /\
  rows (invoice_items s')
  = filter (fun ii => negb (ii_invoice_id ii =? invoice_id)) (rows (invoice_items s)).
Proof.
  destruct (delete_invoice_cases invoice_id s) as [[_ E] | [(_ & _ & E) | (_ & _ & E)]];
    rewrite E; try discriminate.
  intros [= <-]. split; reflexivity.
Qed.

Lemma NoDup_map_filter {A B : Type} (f : A -> B) (g : A -> bool) (l : list A) :
  NoDup (map f l) -> NoDup (map f (filter g l)).
Proof.
  induction l as [| a r IH]; intro H; [constructor |].
  cbn [map] in H. inversion H as [| x xs Hx Hr]; subst.
  cbn [filter]. destruct (g a); [| now apply IH].
  cbn [map]. constructor; [| now apply IH].
  intro Hin. apply Hx. apply in_map_iff in Hin. destruct Hin as (y & E & Hy).
  apply filter_In in Hy. apply in_map_iff. exists y. tauto.
Qed.

Lemma NoDup_snoc {A : Type} (l : list A) (x : A) :
  NoDup l -> ~ In x l -> NoDup (l ++ [x]).
Proof.
  intros Hl Hx. induction Hl as [| a r Ha Hr IH]; cbn [app].
  - constructor; [intros [] | constructor].
  - constructor.
    + intro H. apply in_app_or in H. destruct H as [H | [<- | []]].
      * contradiction.
      * apply Hx. now left.
    + apply IH. intro H. apply Hx. now right.
Qed.

Lemma not_stored_number (s : store) (no : string) :
  existsb (fun i => String.eqb (i_invoice_no i) no) (rows (invoices s)) = false ->
  ~ In no (map i_invoice_no (rows (invoices s))).
Proof.
  intros H Hin. apply in_map_iff in Hin. destruct Hin as (i & E & Hi).
  assert (T : existsb (fun i => String.eqb (i_invoice_no i) no) (rows (invoices s)) = true).
  { apply existsb_exists. exists i. split; [exact Hi |]. now apply String.eqb_eq. }
  congruence.
Qed.

(** Invariant of the reachable stores: the stored numbers are formatted
    numbers, no two rows carry the same number, and every item row refers
    to a stored invoice. *)
Lemma reachable_invariant (s : store) :
  reachable s ->
  numbered s /\ NoDup (map i_invoice_no (rows (invoices s))) /\ fk_items_invoice s.
Proof.
  induction 1 as [p c k1 k2 | s invoice s' resp _ IH C | s invoice_id s' _ IH D].
  - split; [intros i [] | split; [constructor | intros ii []]].
  - destruct IH as (Hnum & Hnd & Hfk).
    apply create_invoice_ok_inv in C.
    destruct C as (_ & c & amounts & new & _ & _ & C). cbn zeta in C.
    destruct C as (_ & U & _ & _ & Hinv & Hitems & Hnew & _).
    split; [| split].
    + intros i Hi. rewrite Hinv in Hi. apply in_app_or in Hi.
      destruct Hi as [Hi | [<- | []]]; [now apply Hnum |].
      exists (max_num s + 1). split; [| reflexivity].
      destruct (max_num_bounds s Hnum) as [Hb _]. lia.
    + rewrite Hinv, map_app. cbn [map]. apply NoDup_snoc; [exact Hnd |].
      now apply not_stored_number.
    + intros ii Hii. rewrite Hitems in Hii. rewrite Hinv.
      apply in_app_or in Hii. destruct Hii as [Hii | Hii].
      * destruct (Hfk ii Hii) as (i & Hi & E). exists i. split; [| exact E].
        apply in_or_app. now left.
      * rewrite Forall_forall in Hnew. eexists. split.
        -- apply in_or_app. right. left. reflexivity.
        -- symmetry. now apply Hnew.
  - destruct IH as (Hnum & Hnd & Hfk).
    apply delete_invoice_ok_inv in D. destruct D as [Hinv Hitems].
    split; [| split].
    + intros i Hi. rewrite Hinv in Hi. apply filter_In in Hi. now apply Hnum.
    + rewrite Hinv. now apply NoDup_map_filter.
    + intros ii Hii. rewrite Hitems in Hii. apply filter_In in Hii.
      destruct Hii as [Hii Hne]. destruct (Hfk ii Hii) as (i & Hi & E).
      exists i. split; [| exact E]. rewrite Hinv. apply filter_In.
      split; [exact Hi |]. now rewrite E.
Qed.

(** C1: from the empty invoices table of the scenario, create, delete the
    invoice, create again.  The two creates are assigned the same number,
    INV-001, against the comment of [get_next_invoice_number], which
    announces the highest number "to avoid duplicates even if invoices are
    deleted": the query takes the highest number among the rows that are
    stored, and the row is gone. *)
Lemma deleted_number_assigned_again :
  rows (invoices scenario_store) = [] /\
  assigned_numbers reuse_requests scenario_store = ["INV-001"; "INV-001"]%string /\
  ~ NoDup (assigned_numbers reuse_requests scenario_store) /\
  map decimal_suffix (assigned_numbers reuse_requests scenario_store) = [1; 1].
Proof.
  split; [reflexivity |].
  assert (E : assigned_numbers reuse_requests scenario_store = ["INV-001"; "INV-001"]%string)
    by (vm_compute; reflexivity).
  split; [exact E | split; [| now rewrite E]].
  rewrite E. intro H. inversion H as [| x l Hx _]; subst. apply Hx. now left.
Qed.

Lemma NoDup_map_inj_on {A B : Type} (f : A -> B) (l : list A) :
  (forall x y, In x l -> In y l -> f x = f y -> x = y) ->
  NoDup l -> NoDup (map f l).
Proof.
  intros Hinj Hl. induction Hl as [| a r Ha Hr IH]; cbn [map]; constructor.
  - intro H. apply in_map_iff in H. destruct H as (y & E & Hy).
    assert (y = a) by (apply Hinj; [now right | now left | exact E]).
    subst. contradiction.
  - apply IH. intros x y Hx Hy. apply Hinj; now right.
Qed.


(* ------------------------------------------------------------------ *)
(** * Further properties of the routes *)

(** The response of a create is built from what the two closing queries
    read in the store the create leaves. *)
Lemma create_invoice_response (invoice : InvoiceCreate) (s s' : store)
  (resp : InvoiceResponse) :
  create_invoice invoice s = (s', Ok resp) ->
  exists row,
    select_invoice_join_client (next_rowid i_id (invoices s)) s' = Some row /\
    resp = build_response (client_id invoice) row
             (select_items_join_product (next_rowid i_id (invoices s)) s') /\
    resp_id resp = next_rowid i_id (invoices s) /\
    i_client_id (fst row) = client_id invoice.
Proof.
  intro H. apply create_invoice_ok_body in H. destruct H as (t' & B & <-).
  apply create_invoice_body_inv in B. cbn [current journal] in B.
  destruct B as (_ & c & amounts & new & jrow & _ & _ & B). cbn zeta in B.
  destruct B as (_ & _ & _ & _ & _ & _ & Hi & _ & _ & _ & _ & J & -> & _).
  cbn [created_row i_id] in J.
  pose proof (select_created_row s (current t')
                (created_row s invoice (c_address c)
                   (PrimFloat.add (float_sum amounts) (tax invoice)))
                eq_refl (f_equal rows Hi) jrow J) as Hrow.
  exists jrow. split; [exact J | split; [reflexivity |]].
  destruct jrow as [i c']. cbn [fst] in Hrow. subst i. split; reflexivity.
Qed.

(** The id of a created invoice and the quantities of its lines are 64-bit
    integers. *)
Lemma create_invoice_int64 (invoice : InvoiceCreate) (s s' : store) (resp : InvoiceResponse) :
  create_invoice invoice s = (s', Ok resp) ->
  Sql.is_int64 (next_rowid i_id (invoices s)) = true /\
  Forall (fun item => Sql.is_int64 (quantity item) = true) (items invoice).
Proof.
  intro H. apply create_invoice_ok_body in H. destruct H as (t' & B & <-).
  apply create_invoice_body_inv in B. cbn [current journal] in B.
  destruct B as (_ & c & amounts & new & jrow & _ & _ & B). cbn zeta in B.
  destruct B as (K & _ & _ & _ & _ & _ & _ & _ & _ & _ & HQ & _).
  split; [exact K | exact HQ].
Qed.

(** X1: the invoice a create returns is the invoice [get_invoice] returns
    for the new id in the store the create leaves. *)
Theorem get_invoice_after_create (invoice : InvoiceCreate) (s s' : store)
  (resp : InvoiceResponse) :
  create_invoice invoice s = (s', Ok resp) ->
  get_invoice (resp_id resp) s' = (s', Ok resp).
Proof.
  intro H. destruct (create_invoice_int64 _ _ _ _ H) as [K _].
  destruct (create_invoice_response _ _ _ _ H) as (row & R & -> & Hid & Hc).
  rewrite Hid.
  destruct (get_invoice_cases (next_rowid i_id (invoices s)) s') as [[Hf _] | [_ G]];
    [congruence |].
  now rewrite G, R, Hc.
Qed.

Lemma get_invoice_after_create_witness :
  get_invoice 1 (fst (create_invoice scenario_request scenario_store))
  = (fst (create_invoice scenario_request scenario_store),
     snd (create_invoice scenario_request scenario_store)).
Proof.
  destruct (create_invoice scenario_request scenario_store) as [s' r] eqn:E.
  assert (exists resp, r = Ok resp /\ resp_id resp = 1) as (resp & -> & Hid).
  { vm_compute in E. injection E as <- <-. eexists. split; reflexivity. }
  cbn [fst snd]. rewrite <- Hid. exact (get_invoice_after_create _ _ _ _ E).
Defined.

Lemma hd_filter_find {A : Type} (f : A -> bool) (l : list A) :
  hd_error (filter f l) = find f l.
Proof.
  induction l as [| a r IH]; [reflexivity |]. cbn [filter find].
  destruct (f a); [reflexivity | exact IH].
Qed.

Lemma filter_unique_key {A : Type} (key : A -> Z) (k : Z) (l : list A) (x : A) :
  NoDup (map key l) -> find (fun y => key y =? k) l = Some x ->
  filter (fun y => key y =? k) l = [x].
Proof.
  induction l as [| a r IH]; intros Hnd Hf; [discriminate |].
  cbn [map] in Hnd. inversion Hnd as [| ? ? Ha Hr]; subst.
  cbn [find filter] in *. destruct (key a =? k) eqn:E.
  - injection Hf as ->. f_equal. apply filter_none.
    intros y Hy. apply Z.eqb_neq. intro Ey. apply Z.eqb_eq in E.
    apply Ha. apply in_map_iff. exists y. split; [lia | exact Hy].
  - now apply IH.
Qed.

(** The item rows of the invoice a create has just stored are the rows it
    inserted. *)
Lemma items_of_created (s s' : store) (k : Z) (new : list invoice_item_row) :
  fk_items_invoice s -> k = next_rowid i_id (invoices s) ->
  rows (invoice_items s') = rows (invoice_items s) ++ new ->
  Forall (fun ii => ii_invoice_id ii = k) new ->
  items_of s' k = new.
Proof.
  intros Hfk -> Hitems Hnew. unfold items_of. rewrite Hitems, filter_app, filter_none.
  - cbn [app]. apply filter_all. revert Hnew. apply Forall_impl.
    intros ii ->. apply Z.eqb_refl.
  - intros ii Hii. apply Z.eqb_neq. destruct (Hfk ii Hii) as (i & Hi & <-).
    apply (next_rowid_fresh i_id) in Hi. lia.
Qed.

Lemma join_products_mirrors (s : store) (l : list InvoiceItemRequest) :
  products_key s ->
  forall new,
    Forall2 (stored_line s) l new ->
    Forall2 (mirrors s) l
      (map item_response
         (flat_map (fun ii => map (pair ii)
                      (filter (fun p => p_id p =? ii_product_id ii) (rows (products s))))
                   new)).
Proof.
  intros Hkey new HF. induction HF as [| item ii rest new' Hst _ IH]; [constructor |].
  cbn [flat_map]. destruct Hst as (p & Hp & Hpid & Hq & Hu & Hsub).
  rewrite Hpid, (filter_unique_key p_id (product_id item) _ p Hkey Hp).
  cbn [map app item_response]. constructor; [| exact IH].
  exists p. repeat split; assumption.
Qed.

(** X2: the response of a create carries the dates of the request, the
    tax as stored, the address and the data of the client as they are at
    creation, and one item per request line, in request order, with the
    product's id, name and price at creation and quantity times price. *)
Theorem create_invoice_response_shape (invoice : InvoiceCreate) (s s' : store)
  (resp : InvoiceResponse) :
  fk_items_invoice s -> products_key s ->
  create_invoice invoice s = (s', Ok resp) ->
  exists c,
    select_client s (client_id invoice) = Some c /\
    resp_issue_date resp = issue_date invoice /\
    resp_due_date resp = due_date invoice /\
    resp_tax resp = Sql.real (tax invoice) /\
    resp_address resp = c_address c /\
    resp_client resp
    = mk_client_response (client_id invoice) (c_name c) (c_address c)
                         (c_company_registration_no c) /\
    Forall2 (mirrors s) (items invoice) (resp_items resp).
Proof.
  intros Hfk Hkey H.
  destruct (create_invoice_response _ _ _ _ H) as (row & R & Hresp & Hid & _).
  apply create_invoice_ok_inv in H.
  destruct H as (_ & c & amounts & new & C & _ & H). cbn zeta in H.
  destruct H as (_ & _ & Hp & Hc & Hinv & Hitems & Hnew & Hst & _).
  cbn [created_row i_id] in Hnew.
  exists c. split; [exact C |].
  pose proof (select_created_row s s'
                (created_row s invoice (c_address c)
                   (PrimFloat.add (float_sum amounts) (tax invoice)))
                eq_refl Hinv row R) as Hrow.
  assert (Hcl : snd row = c).
  { revert R. unfold select_invoice_join_client. rewrite Hinv, filter_app, filter_none.
    - cbn [app filter created_row i_id]. rewrite Z.eqb_refl. cbn [flat_map i_client_id].
      rewrite app_nil_r, Hc. unfold select_client in C.
      rewrite <- hd_filter_find in C.
      destruct (filter _ (rows (clients s))) as [| c1 cs]; [discriminate |].
      cbn in C |- *. injection C as ->. now intros [= <-].
    - intros x Hx. apply Z.eqb_neq. apply (next_rowid_fresh i_id) in Hx. lia. }
  destruct row as [i c']. cbn [fst snd] in Hrow, Hcl. subst i c'.
  rewrite Hresp. cbn [build_response created_row resp_issue_date resp_due_date resp_tax
                        resp_address resp_client resp_items i_issue_date i_due_date
                        i_tax i_address].
  repeat split.
  unfold select_items_join_product. fold (items_of s' (next_rowid i_id (invoices s))).
  rewrite (items_of_created s s' _ new Hfk eq_refl Hitems Hnew), Hp.
  now apply join_products_mirrors.
Qed.

Lemma create_invoice_response_shape_witness :
  fk_items_invoice scenario_store /\ products_key scenario_store /\
  List.length (resp_items
    (match snd (create_invoice scenario_request scenario_store) with
     | Ok resp => resp
     | Raise _ => mk_invoice_response 0 "" "" "" (mk_client_response 0 "" "" "") "" [] 0 0
     end)) = 2%nat.
Proof.
  assert (Fk : fk_items_invoice scenario_store) by (intros ii []).
  assert (Key : products_key scenario_store).
  { unfold products_key. cbn. repeat constructor; cbn; intuition discriminate. }
  split; [exact Fk | split; [exact Key |]].
  destruct (create_invoice scenario_request scenario_store) as [s' r] eqn:E.
  assert (exists resp, r = Ok resp) as (resp & ->).
  { vm_compute in E. injection E as <- <-. eexists. reflexivity. }
  destruct (create_invoice_response_shape _ _ _ _ Fk Key E) as (c & _ & _ & _ & _ & _ & _ & M).
  cbn [snd]. apply Forall2_length in M. now rewrite <- M.
Defined.

Lemma filter_app_skip {A : Type} (f : A -> bool) (l new : list A) :
  (forall x, In x new -> f x = false) -> filter f (l ++ new) = filter f l.
Proof. intro H. now rewrite filter_app, (filter_none f new H), app_nil_r. Qed.

(** X3: a create leaves the answer of [get_invoice] for every other id as
    it was. *)
Theorem create_invoice_keeps_others (invoice : InvoiceCreate) (s s' : store)
  (resp : InvoiceResponse) (other : Z) :
  create_invoice invoice s = (s', Ok resp) ->
  other <> resp_id resp ->
  snd (get_invoice other s') = snd (get_invoice other s).
Proof.
  intros H Hne. apply create_invoice_ok_inv in H.
  destruct H as (_ & c & amounts & new & _ & _ & H). cbn zeta in H.
  destruct H as (_ & _ & Hp & Hc & Hinv & Hitems & Hnew & _ & Hid & _).
  assert (J : select_invoice_join_client other s' = select_invoice_join_client other s).
  { unfold select_invoice_join_client. rewrite Hinv, Hc, filter_app_skip; [reflexivity |].
    intros x [<- | []]. apply Z.eqb_neq. congruence. }
  assert (I : select_items_join_product other s' = select_items_join_product other s).
  { unfold select_items_join_product. rewrite Hitems, Hp, filter_app_skip; [reflexivity |].
    intros x Hx. rewrite Forall_forall in Hnew. apply Z.eqb_neq.
    rewrite (Hnew x Hx). congruence. }
  destruct (get_invoice_cases other s') as [[Hf E1] | [Ht E1]],
           (get_invoice_cases other s) as [[Hf2 E2] | [Ht2 E2]];
    try congruence; rewrite E1, E2; cbn [snd]; [reflexivity |].
  now rewrite J, I.
Qed.

Lemma create_invoice_keeps_others_witness :
  snd (get_invoice 7 (fst (create_invoice scenario_request scenario_store)))
  = Raise not_found.
Proof.
  destruct (create_invoice scenario_request scenario_store) as [s' r] eqn:E.
  assert (exists resp, r = Ok resp /\ resp_id resp = 1) as (resp & -> & Hid).
  { vm_compute in E. injection E as <- <-. eexists. split; reflexivity. }
  cbn [fst]. rewrite (create_invoice_keeps_others _ _ _ _ 7 E); [reflexivity |].
  rewrite Hid. discriminate.
Defined.

Lemma filter_filter_skip {A : Type} (f g : A -> bool) (l : list A) :
  (forall x, f x = true -> g x = false) ->
  filter f (filter (fun x => negb (g x)) l) = filter f l.
Proof.
  intro H. induction l as [| a r IH]; [reflexivity |].
  cbn [filter]. destruct (g a) eqn:G; cbn [negb filter].
  - destruct (f a) eqn:F; [apply H in F; congruence | exact IH].
  - now rewrite IH.
Qed.

(** X4: a delete leaves the answer of [get_invoice] for every other id as
    it was. *)
Theorem delete_invoice_keeps_others (invoice_id other : Z) (s : store) :
  other <> invoice_id ->
  snd (get_invoice other (fst (delete_invoice invoice_id s))) = snd (get_invoice other s).
Proof.
  intro Hne.
  destruct (delete_invoice_cases invoice_id s) as [[_ E] | [(_ & _ & E) | (_ & _ & E)]];
    rewrite E; cbn [fst]; try reflexivity.
  assert (J : select_invoice_join_client other
                (apply_write (DeleteInvoice invoice_id)
                   (apply_write (DeleteInvoiceItems invoice_id) s))
              = select_invoice_join_client other s).
  { unfold select_invoice_join_client.
    cbn [apply_write set_invoices set_invoice_items invoices clients].
    unfold delete_where. cbn [rows].
    rewrite filter_filter_skip; [reflexivity |].
    intros x Hx. apply Z.eqb_eq in Hx. apply Z.eqb_neq. congruence. }
  assert (I : select_items_join_product other
                (apply_write (DeleteInvoice invoice_id)
                   (apply_write (DeleteInvoiceItems invoice_id) s))
              = select_items_join_product other s).
  { unfold select_items_join_product.
    cbn [apply_write set_invoices set_invoice_items invoice_items products].
    unfold delete_where. cbn [rows].
    rewrite filter_filter_skip; [reflexivity |].
    intros x Hx. apply Z.eqb_eq in Hx. apply Z.eqb_neq. congruence. }
  destruct (get_invoice_cases other
              (apply_write (DeleteInvoice invoice_id)
                 (apply_write (DeleteInvoiceItems invoice_id) s))) as [[Hf E1] | [Ht E1]],
           (get_invoice_cases other s) as [[Hf2 E2] | [Ht2 E2]];
    try congruence; rewrite E1, E2; cbn [snd]; [reflexivity |].
  now rewrite J, I.
Qed.

Lemma delete_invoice_keeps_others_witness :
  snd (get_invoice 1 (fst (delete_invoice 2
         (fst (create_invoice scenario_request scenario_store)))))
  = snd (get_invoice 1 (fst (create_invoice scenario_request scenario_store))).
Proof.
  apply delete_invoice_keeps_others. discriminate.
Defined.

(** ** Row identifiers *)

Lemma create_invoice_seq (invoice : InvoiceCreate) (s s' : store) (resp : InvoiceResponse) :
  create_invoice invoice s = (s', Ok resp) ->
  seq (invoices s') = next_rowid i_id (invoices s).
Proof.
  intro H. apply create_invoice_ok_body in H. destruct H as (t' & B & <-).
  apply create_invoice_body_inv in B. cbn [current journal] in B.
  destruct B as (_ & c & amounts & new & jrow & _ & _ & B). cbn zeta in B.
  destruct B as (_ & _ & _ & _ & _ & _ & Hi & _). now rewrite Hi.
Qed.

Lemma next_rowid_within_seq (s : store) :
  ids_within_seq s -> next_rowid i_id (invoices s) = 1 + seq (invoices s).
Proof.
  intro H. unfold next_rowid. f_equal. unfold ids_within_seq in H.
  induction (rows (invoices s)) as [| a r IH]; [reflexivity |].
  cbn [map fold_right]. rewrite IH.
  - apply Z.max_r. apply H. now left.
  - intros i Hi. apply H. now right.
Qed.

(** One request keeps the sequence of the invoices table at or above every
    stored id, and never lowers it; a create sets it to the id it assigns,
    one more than it was. *)
Lemma handle_seq (r : request) (s : store) :
  ids_within_seq s ->
  ids_within_seq (fst (handle r s)) /\
  seq (invoices s) <= seq (invoices (fst (handle r s))) /\
  forall k, created_id r s = Some k ->
            k = 1 + seq (invoices s) /\ seq (invoices (fst (handle r s))) = k.
Proof.
  intro H. destruct r as [invoice | invoice_id]; cbn [handle created_id].
  - destruct (create_invoice invoice s) as [s' [resp | e]] eqn:C; cbn [fst].
    + pose proof (create_invoice_seq _ _ _ _ C) as Hseq.
      pose proof (next_rowid_within_seq s H) as Hnext.
      apply create_invoice_ok_inv in C.
      destruct C as (_ & c & amounts & new & _ & _ & C). cbn zeta in C.
      destruct C as (_ & _ & _ & _ & Hinv & _ & _ & _ & Hid & _).
      cbn [created_row i_id] in Hid.
      split; [| split; [lia |]].
      * intros i Hi. rewrite Hinv in Hi. apply in_app_or in Hi.
        destruct Hi as [Hi | [<- | []]].
        -- specialize (H i Hi). lia.
        -- cbn [created_row i_id]. lia.
      * intros k [= <-]. split; congruence.
    + apply create_invoice_raise_store in C. subst s'.
      split; [exact H | split; [lia | discriminate]].
  - destruct (delete_invoice_cases invoice_id s) as [[_ E] | [(_ & _ & E) | (_ & _ & E)]];
      rewrite E; cbn [fst]; (split; [| split; [| discriminate]]);
      try exact H; try lia.
    + cbn. intros j Hj. apply filter_In in Hj. apply H. tauto.
    + cbn. lia.
Qed.

(** X5: along any sequence of creates and deletes, the ids given to the
    created invoices are strictly increasing and above the sequence of the
    invoices table at the start: the id of a deleted invoice is not given
    again. *)
Theorem invoice_ids_strictly_increase (rs : list request) :
  forall s, ids_within_seq s ->
            StronglySorted Z.lt (assigned_ids rs s) /\
            Forall (fun k => seq (invoices s) < k) (assigned_ids rs s).
Proof.
  induction rs as [| r rest IH]; intros s H; [split; constructor |].
  cbn [assigned_ids]. destruct (handle_seq r s H) as (H' & Hle & Hk).
  destruct (IH _ H') as [Hs Hf].
  assert (Hf' : Forall (fun k => seq (invoices s) < k) (assigned_ids rest (fst (handle r s)))).
  { revert Hf. apply Forall_impl. intros k. lia. }
  destruct (created_id r s) as [k |]; [| split; assumption].
  destruct (Hk k eq_refl) as [-> Hseq]. split.
  - constructor; [exact Hs |]. revert Hf. apply Forall_impl. intro j. lia.
  - constructor; [lia | exact Hf'].
Qed.

Lemma invoice_ids_strictly_increase_witness :
  ids_within_seq scenario_store /\
  StronglySorted Z.lt (assigned_ids reuse_requests scenario_store) /\
  assigned_ids reuse_requests scenario_store = [1; 2].
Proof.
  assert (H : ids_within_seq scenario_store) by (intros i []).
  split; [exact H | split].
  - exact (proj1 (invoice_ids_strictly_increase reuse_requests scenario_store H)).
  - vm_compute. reflexivity.
Defined.

(** ** Acceptance *)

Lemma validate_items_none (conn : store) (l : list InvoiceItemRequest) :
  forall idx,
    validate_items conn idx l = None <->
    Forall (fun item => 0 < quantity item /\
                        Sql.is_int64 (product_id item) = true /\
                        select_product conn (product_id item) <> None) l.
Proof.
  induction l as [| item rest IH]; intro idx; cbn [validate_items].
  - split; [constructor | reflexivity].
  - destruct (quantity item <=? 0) eqn:Q.
    + split; [discriminate |]. intro H. inversion H as [| ? ? [Hq _] _]; subst.
      apply Z.leb_le in Q. lia.
    + apply Z.leb_gt in Q. destruct (Sql.is_int64 (product_id item)) eqn:Hb; cbn [negb].
      * destruct (select_product conn (product_id item)) as [p |] eqn:P.
        -- rewrite IH. split.
           ++ intro H. constructor; [split; [exact Q | split; congruence] | exact H].
           ++ intro H. now inversion H.
        -- split; [discriminate |]. intro H. inversion H as [| ? ? (_ & _ & Hp) _]; subst.
           now elim Hp.
      * split; [discriminate |]. intro H. inversion H as [| ? ? (_ & Hf & _) _]; subst.
        rewrite Hb in Hf. discriminate Hf.
Qed.

(** What validation has checked when it returns. *)
Lemma validate_none_checked (conn : store) (invoice : InvoiceCreate) :
  validate_invoice_input conn invoice = None ->
  Sql.is_int64 (client_id invoice) = true /\
  select_client conn (client_id invoice) <> None /\
  Forall (fun item => 0 < quantity item /\
                      Sql.is_int64 (product_id item) = true /\
                      select_product conn (product_id item) <> None) (items invoice).
Proof.
  unfold validate_invoice_input.
  destruct (_ || _); [discriminate |].
  destruct (String.ltb _ _); [discriminate |].
  destruct (Sql.is_int64 (client_id invoice)); cbn [negb]; [| discriminate].
  destruct (select_client conn (client_id invoice)); [| discriminate].
  destruct (items invoice) as [| item rest]; [discriminate |].
  destruct (PrimFloat.ltb _ _); [discriminate |].
  intro H. apply validate_items_none in H. split; [reflexivity | split; [discriminate | exact H]].
Qed.

(** X6: validation accepts a request exactly when both dates split into
    three parts, the due date is not below the issue date as a string, the
    client_id is a 64-bit integer and the client exists, there is at least
    one item, the tax is not below zero, and every item has a positive
    quantity and a product_id that is a 64-bit integer and the id of a
    product. *)
Theorem validate_accepts_iff (conn : store) (invoice : InvoiceCreate) :
  validate_invoice_input conn invoice = None <-> acceptable conn invoice.
Proof.
  unfold acceptable, date_shape_ok, validate_invoice_input.
  destruct (List.length (Py.split "-" (issue_date invoice)) =? 3)%nat eqn:E1;
    [apply Nat.eqb_eq in E1 | apply Nat.eqb_neq in E1];
    cbn [negb orb]; [| split; [discriminate | tauto]].
  destruct (List.length (Py.split "-" (due_date invoice)) =? 3)%nat eqn:E2;
    [apply Nat.eqb_eq in E2 | apply Nat.eqb_neq in E2];
    cbn [negb orb]; [| split; [discriminate | tauto]].
  destruct (String.ltb (due_date invoice) (issue_date invoice));
    [split; [discriminate | intros (_ & H & _); discriminate] |].
  destruct (Sql.is_int64 (client_id invoice)); cbn [negb];
    [| split; [discriminate | intros (_ & _ & H & _); discriminate]].
  destruct (select_client conn (client_id invoice)) as [c |];
    [| split; [discriminate | intros (_ & _ & _ & H & _); now elim H]].
  destruct (items invoice) as [| item rest] eqn:I;
    [split; [discriminate | intros (_ & _ & _ & _ & H & _); now elim H] |].
  destruct (PrimFloat.ltb (tax invoice) 0);
    [split; [discriminate | intros (_ & _ & _ & _ & _ & H & _); discriminate] |].
  rewrite validate_items_none. split.
  - intro H. repeat split; try assumption; discriminate.
  - intros (_ & _ & _ & _ & _ & _ & H). exact H.
Qed.

(** ** Not-a-number *)

Lemma SFcompare_refl (x : spec_float) : x <> S754_nan -> SFcompare x x = Some Eq.
Proof.
  destruct x as [[|] | [|] | | [|] m e]; intro H; try reflexivity; try (now elim H);
    cbn; rewrite Z.compare_refl, Pos.compare_cont_refl; reflexivity.
Qed.

Lemma is_nan_spec (x : float) : PrimFloat.is_nan x = true <-> Prim2SF x = S754_nan.
Proof.
  unfold PrimFloat.is_nan. rewrite eqb_spec. unfold SFeqb. split.
  - intro H. destruct (Prim2SF x) eqn:E; try reflexivity;
      rewrite SFcompare_refl in H by discriminate; discriminate.
  - intros ->. reflexivity.
Qed.

Lemma is_nan_add_l (x y : float) :
  PrimFloat.is_nan x = true -> PrimFloat.is_nan (PrimFloat.add x y) = true.
Proof. rewrite !is_nan_spec, add_spec. intros ->. reflexivity. Qed.

Lemma is_nan_add_r (x y : float) :
  PrimFloat.is_nan y = true -> PrimFloat.is_nan (PrimFloat.add x y) = true.
Proof. rewrite float_add_comm. apply is_nan_add_l. Qed.

Lemma is_nan_mul_l (x y : float) :
  PrimFloat.is_nan x = true -> PrimFloat.is_nan (PrimFloat.mul x y) = true.
Proof. rewrite !is_nan_spec, mul_spec. intros ->. reflexivity. Qed.

Lemma is_nan_fold_acc (l : list float) :
  forall acc, PrimFloat.is_nan acc = true ->
              PrimFloat.is_nan (fold_left PrimFloat.add l acc) = true.
Proof.
  induction l as [| a r IH]; intros acc H; [exact H |].
  cbn [fold_left]. apply IH. now apply is_nan_add_l.
Qed.

Lemma is_nan_fold_in (l : list float) (a : float) :
  In a l -> PrimFloat.is_nan a = true ->
  forall acc, PrimFloat.is_nan (fold_left PrimFloat.add l acc) = true.
Proof.
  induction l as [| b r IH]; intros Hin Ha acc; [destruct Hin |].
  cbn [fold_left]. destruct Hin as [-> | Hin].
  - apply is_nan_fold_acc. now apply is_nan_add_r.
  - now apply IH.
Qed.

Lemma not_nan_false (x : float) : PrimFloat.is_nan x <> true -> PrimFloat.is_nan x = false.
Proof. now destruct (PrimFloat.is_nan x). Qed.

(** ** When a create is persisted *)

Lemma sum_items_run (l : list InvoiceItemRequest) (t : transaction) :
  forall amounts,
    Forall2 (line_amount (current t)) l amounts ->
    Forall (fun item => Sql.is_int64 (product_id item) = true) l ->
    Forall (fun item => Z.abs (quantity item) < Py.FLOAT_OVERFLOW) l ->
    forall acc, sum_items l acc t = (inr (fold_left PrimFloat.add amounts acc), t).
Proof.
  induction l as [| item rest IH]; intros amounts HF Hb Hq acc; inversion HF; subst;
    [reflexivity |].
  match goal with H : line_amount _ _ _ |- _ => destruct H as (p & Hp & ->) end.
  inversion Hb as [| ? ? Hb1 Hb2]; inversion Hq as [| ? ? Hq1 Hq2]; subst.
  cbn [sum_items fold_left].
  unfold bind at 1, fetch_price, bind at 1. rewrite execute_ok by exact Hb1.
  rewrite Hp. cbn [subscript ret]. unfold bind at 1. rewrite multiply_ok by exact Hq1.
  now apply IH.
Qed.

Lemma fold_max_base (l : list Z) (k : Z) :
  (forall x, In x l -> x <= k) -> fold_right Z.max k l = k.
Proof.
  induction l as [| a r IH]; intro H; [reflexivity |].
  cbn [fold_right]. rewrite IH by (intros x Hx; apply H; now right).
  apply Z.max_r. apply H. now left.
Qed.

(** The rowid after the one an insert has taken. *)
Lemma next_rowid_insert {row : Type} (id : row -> Z) (t : table row) (r : row) :
  id r = next_rowid id t ->
  next_rowid id (snd (insert_row id t (fun _ => r))) = next_rowid id t + 1.
Proof.
  intro E. unfold insert_row. cbn [snd]. unfold next_rowid at 1. cbn [rows seq].
  rewrite map_app, fold_right_app. cbn [map fold_right]. rewrite E, Z.max_id.
  rewrite fold_max_base; [lia |].
  intros x Hx. unfold next_rowid.
  pose proof (fold_max_ge (map id (rows t)) (seq t) x Hx). lia.
Qed.

Lemma insert_items_run (s0 : store) (k : Z) (l : list InvoiceItemRequest) :
  Sql.is_int64 k = true ->
  forall amounts,
    Forall2 (line_amount s0) l amounts ->
    Forall (fun a => PrimFloat.is_nan a = false) amounts ->
    Forall (fun item => Sql.is_int64 (product_id item) = true) l ->
    Forall (fun item => Sql.is_int64 (quantity item) = true) l ->
    forall t,
      products (current t) = products s0 ->
      (forall j, (j < List.length l)%nat ->
                 Sql.is_int64 (next_rowid ii_id (invoice_items (current t)) + Z.of_nat j)
                 = true) ->
      exists t', insert_items k l t = (inr tt, t').
Proof.
  intro Hk.
  induction l as [| item rest IH]; intros amounts HF HN Hb Hq t Hp Hr; inversion HF; subst.
  - now exists t.
  - match goal with H : line_amount _ _ _ |- _ => destruct H as (p & Hsel & ->) end.
    inversion HN as [| ? ? Ha Hrest]; inversion Hb as [| ? ? Hb1 Hb2];
      inversion Hq as [| ? ? Hq1 Hq2]; subst.
    cbn [insert_items].
    unfold bind at 1, fetch_price, bind at 1. rewrite execute_ok by exact Hb1.
    unfold select_product in *. rewrite Hp, Hsel. cbn [subscript ret].
    unfold bind at 1. rewrite multiply_ok by (now apply int64_converts).
    unfold bind at 1, insert_invoice_item, bind at 1.
    rewrite bind_ints_ok by (cbn [forallb]; now rewrite Hk, Hb1, Hq1).
    unfold bind at 1, read.
    pose proof (Hr 0%nat (Nat.lt_0_succ _)) as R0. rewrite Z.add_0_r in R0.
    rewrite R0, Ha. cbn [negb].
    destruct (PrimFloat.is_nan (p_price p)) eqn:Np.
    { apply (is_nan_mul_l _ (Py.nearest_float (quantity item))) in Np.
      unfold Py.mul_float_int in Ha. congruence. }
    unfold execute_write. eapply IH; try eassumption.
    intros j Hj. cbn [current apply_write set_invoice_items invoice_items].
    rewrite next_rowid_insert by reflexivity.
    replace (next_rowid ii_id (invoice_items (current t)) + 1 + Z.of_nat j)
      with (next_rowid ii_id (invoice_items (current t)) + Z.of_nat (S j)) by lia.
    apply Hr. cbn [List.length]. lia.
Qed.

Lemma validated_amounts (s : store) (invoice : InvoiceCreate) :
  validate_invoice_input s invoice = None ->
  Sql.is_int64 (client_id invoice) = true /\
  (exists c, select_client s (client_id invoice) = Some c) /\
  Forall (fun item => Sql.is_int64 (product_id item) = true) (items invoice) /\
  exists amounts, Forall2 (line_amount s) (items invoice) amounts.
Proof.
  intro V. apply validate_none_checked in V. destruct V as (Hb & Hc & Hit).
  split; [exact Hb |]. split; [| split].
  - destruct (select_client s (client_id invoice)) as [c |]; [now exists c | now elim Hc].
  - revert Hit. apply Forall_impl. tauto.
  - induction Hit as [| item rest (_ & _ & Hp) _ (amounts & IH)]; [exists []; constructor |].
    destruct (select_product s (product_id item)) as [p |] eqn:P; [| now elim Hp].
    eexists (_ :: amounts). constructor; [exists p; split; [exact P | reflexivity] | exact IH].
Qed.

(** The statements of the body up to the INSERT of the invoice, on a
    request that validation accepts and whose quantities convert. *)
Lemma create_invoice_body_insert (invoice : InvoiceCreate) (t : transaction)
  (c : client_row) (amounts : list float) :
  validate_invoice_input (current t) invoice = None ->
  select_client (current t) (client_id invoice) = Some c ->
  Forall2 (line_amount (current t)) (items invoice) amounts ->
  Forall (fun item => Z.abs (quantity item) < Py.FLOAT_OVERFLOW) (items invoice) ->
  create_invoice_body invoice t
  = bind (insert_invoice (get_next_invoice_number (current t)) (issue_date invoice)
            (due_date invoice) (client_id invoice) (c_address c) (tax invoice)
            (PrimFloat.add (float_sum amounts) (tax invoice)))
         (fun invoice_id =>
            insert_items invoice_id (items invoice) ;;
            invoice_row <- execute select_invoice_join_client invoice_id ;;
            items_rows <- execute select_items_join_product invoice_id ;;
            row <- subscript invoice_row (fun r => r) ;;
            ret (build_response (client_id invoice) row items_rows))%tx t.
Proof.
  intros V C HF Hq. destruct (validated_amounts _ _ V) as (Hb & _ & Hp & _).
  unfold create_invoice_body.
  unfold bind at 1, validate_stmt. rewrite V.
  unfold bind at 1. rewrite execute_ok by exact Hb. rewrite C.
  unfold bind at 1, read at 1. unfold bind at 1.
  rewrite (sum_items_run _ t amounts HF Hp Hq).
  unfold bind at 1, subscript at 1, ret at 1. reflexivity.
Qed.

(** Below the largest 64-bit integer the next number is not stored yet. *)
Lemma next_number_fresh (s : store) :
  numbered s -> max_num s < Sql.INT64_MAX ->
  existsb (fun i => String.eqb (i_invoice_no i) (get_next_invoice_number s))
          (rows (invoices s)) = false.
Proof.
  intros Hnum Hlt. destruct (existsb _ _) eqn:E; [| reflexivity]. exfalso.
  apply existsb_exists in E. destruct E as (i & Hi & E). apply String.eqb_eq in E.
  destruct (max_num_bounds s Hnum) as [Hb Hle].
  destruct (Hnum i Hi) as (n & Hn & En). specialize (Hle i Hi).
  rewrite get_next_invoice_number_max_num, En in E.
  apply invoice_no_of_inj in E; [| lia | lia].
  rewrite En, suffix_number_invoice_no_of in Hle by lia. lia.
Qed.

(** The rowids a create would take are 64-bit integers: the one of the
    invoice and one for each item. *)
Lemma rowids_left_scenario : rowids_left scenario_store scenario_request.
Proof.
  split; [reflexivity |]. intros j Hj. cbn in Hj.
  destruct j as [| [| j]]; [reflexivity | reflexivity | lia].
Qed.

(** X7: in a store the API reaches, as long as the highest stored number is
    below the largest 64-bit integer and the tables have rowids left for
    the invoice and its items, a create is persisted exactly when
    validation accepts the request, every quantity is a 64-bit integer,
    and the total, the sum of the line amounts plus the tax, is not NaN. *)
Theorem create_invoice_succeeds_iff (s : store) (invoice : InvoiceCreate) :
  reachable s -> max_num s < Sql.INT64_MAX -> rowids_left s invoice ->
  ((exists s' resp, create_invoice invoice s = (s', Ok resp)) <->
   (validate_invoice_input s invoice = None /\
    Forall (fun item => Sql.is_int64 (quantity item) = true) (items invoice) /\
    exists amounts,
      Forall2 (line_amount s) (items invoice) amounts /\
      PrimFloat.is_nan (PrimFloat.add (float_sum amounts) (tax invoice)) = false)).
Proof.
  intros R Hlt [Hrow Hrows]. destruct (reachable_invariant s R) as (Hnum & _ & _). split.
  - intros (s' & resp & H). destruct (create_invoice_int64 _ _ _ _ H) as [_ HQ].
    apply create_invoice_ok_inv in H.
    destruct H as (V & c & amounts & new & _ & HF & H). cbn zeta in H.
    destruct H as (N & _). split; [exact V | split; [exact HQ |]]. now exists amounts.
  - intros (V & HQ & amounts & HF & N).
    destruct (validated_amounts s invoice V) as (Hb & [c C] & Hp & _).
    assert (Ntax : PrimFloat.is_nan (tax invoice) = false).
    { apply not_nan_false. intro T. apply (is_nan_add_r (float_sum amounts)) in T. congruence. }
    assert (Nam : Forall (fun a => PrimFloat.is_nan a = false) amounts).
    { apply Forall_forall. intros a Ha. apply not_nan_false. intro T.
      pose proof (is_nan_fold_in amounts a Ha T 0%float) as F.
      apply (is_nan_add_l _ (tax invoice)) in F. unfold float_sum in N. congruence. }
    assert (Hconv : Forall (fun item => Z.abs (quantity item) < Py.FLOAT_OVERFLOW)
                           (items invoice)).
    { revert HQ. apply Forall_impl. intro item. apply int64_converts. }
    unfold create_invoice, with_get_db.
    rewrite (create_invoice_body_insert invoice (mk_transaction s []) c amounts V C HF Hconv).
    cbn [current].
    unfold bind at 1, insert_invoice, bind at 1.
    rewrite bind_ints_ok by (cbn [forallb]; now rewrite Hb).
    unfold bind at 1, read at 1. unfold bind at 1, read at 1. cbn [current].
    rewrite Hrow, Ntax, N, (next_number_fresh s Hnum Hlt). cbn [negb].
    unfold bind at 1, execute_write, ret at 1. cbn [current journal app].
    unfold bind at 1.
    match goal with
    | |- context [insert_items ?k ?l ?t1] =>
        destruct (insert_items_run s k l Hrow amounts HF Nam Hp HQ t1 eq_refl Hrows)
          as (t3 & I);
        rewrite I; apply insert_items_inv in I
    end.
    cbn [current apply_write set_invoices clients invoices insert_row snd rows] in I.
    destruct I as (_ & Hc & Hi & _).
    unfold bind at 1. rewrite execute_ok by exact Hrow.
    unfold bind at 1. rewrite execute_ok by exact Hrow.
    unfold bind, subscript, ret, raise.
    assert (J : select_invoice_join_client (next_rowid i_id (invoices s)) (current t3) <> None).
    { unfold select_invoice_join_client. rewrite Hi, Hc. cbn [rows].
      rewrite filter_app, filter_none.
      - cbn [app filter i_id]. rewrite Z.eqb_refl. cbn [flat_map i_client_id].
        unfold select_client in C. rewrite <- hd_filter_find in C.
        destruct (filter _ (rows (clients s))); [discriminate | discriminate].
      - intros x Hx. apply Z.eqb_neq. apply (next_rowid_fresh i_id) in Hx. lia. }
    destruct (select_invoice_join_client _ (current t3)) as [row |]; [| now elim J].
    eexists. eexists. reflexivity.
Qed.

Lemma create_invoice_succeeds_iff_witness :
  reachable scenario_store /\ max_num scenario_store < Sql.INT64_MAX /\
  rowids_left scenario_store scenario_request /\
  exists s' resp, create_invoice scenario_request scenario_store = (s', Ok resp).
Proof.
  assert (R : reachable scenario_store) by apply reach_empty.
  assert (L : max_num scenario_store < Sql.INT64_MAX) by reflexivity.
  pose proof rowids_left_scenario as Rl.
  split; [exact R | split; [exact L | split; [exact Rl |]]].
  apply (proj2 (create_invoice_succeeds_iff scenario_store scenario_request R L Rl)).
  split; [reflexivity |]. split; [repeat constructor |].
  exists [5000%float; 300%float]. split; [| reflexivity].
  constructor; [eexists; split; reflexivity |].
  constructor; [eexists; split; reflexivity | constructor].
Defined.

(** X8: validation lets a NaN tax through; when every quantity converts to
    a float and the invoices table has a rowid left, the create then ends
    in a 500 on the NOT NULL column and the store stays as it was. *)
Theorem create_invoice_nan_tax (s : store) (invoice : InvoiceCreate) :
  validate_invoice_input s invoice = None ->
  PrimFloat.is_nan (tax invoice) = true ->
  Forall (fun item => Py.float_of_int (quantity item) <> None) (items invoice) ->
  Sql.is_int64 (next_rowid i_id (invoices s)) = true ->
  create_invoice invoice s
  = (s, Raise (mk_http_exception 500
                 "Database error: NOT NULL constraint failed: invoices.tax")).
Proof.
  intros V N Hq Hrow.
  destruct (validated_amounts s invoice V) as (Hb & [c C] & Hp & [amounts HF]).
  assert (Hconv : Forall (fun item => Z.abs (quantity item) < Py.FLOAT_OVERFLOW)
                         (items invoice)).
  { revert Hq. apply Forall_impl. intros item. unfold Py.float_of_int.
    destruct (Z.abs (quantity item) <? Py.FLOAT_OVERFLOW) eqn:E;
      [intros _; now apply Z.ltb_lt | intro H; now elim H]. }
  unfold create_invoice, with_get_db.
  rewrite (create_invoice_body_insert invoice (mk_transaction s []) c amounts V C HF Hconv).
  cbn [current].
  unfold bind at 1, insert_invoice, bind at 1.
  rewrite bind_ints_ok by (cbn [forallb]; now rewrite Hb).
  unfold bind at 1, read at 1. unfold bind at 1, read at 1. cbn [current].
  rewrite Hrow, N. reflexivity.
Qed.

Lemma create_invoice_nan_tax_witness :
  validate_invoice_input scenario_store
    (mk_invoice_create 1 "2024-03-01" "2024-03-10" nan [mk_item_request 1 1]) = None /\
  fst (create_invoice
         (mk_invoice_create 1 "2024-03-01" "2024-03-10" nan [mk_item_request 1 1])
         scenario_store) = scenario_store.
Proof.
  split; [reflexivity |].
  rewrite (create_invoice_nan_tax scenario_store
             (mk_invoice_create 1 "2024-03-01" "2024-03-10" nan [mk_item_request 1 1])
             eq_refl eq_refl).
  - reflexivity.
  - repeat constructor. discriminate.
  - reflexivity.
Defined.


(** ** Listing *)

Lemma insert_desc_in {A : Type} (key : A -> Z) (x y : A) (l : list A) :
  In y (insert_desc key x l) <-> y = x \/ In y l.
Proof.
  induction l as [| a r IH]; cbn [insert_desc].
  - cbn. intuition.
  - destruct (key a <? key x); cbn [In]; [intuition | rewrite IH; intuition].
Qed.

Lemma order_by_desc_in {A : Type} (key : A -> Z) (y : A) (l : list A) :
  In y (order_by_desc key l) <-> In y l.
Proof.
  induction l as [| a r IH]; [reflexivity |].
  cbn [order_by_desc fold_right]. fold (order_by_desc key r).
  rewrite insert_desc_in, IH. cbn [In]. intuition.
Qed.

Lemma insert_desc_sorted {A : Type} (key : A -> Z) (x : A) (l : list A) :
  StronglySorted (fun a b => key b <= key a) l ->
  StronglySorted (fun a b => key b <= key a) (insert_desc key x l).
Proof.
  induction 1 as [| a r Hr IH Ha]; cbn [insert_desc].
  - constructor; constructor.
  - destruct (key a <? key x) eqn:E.
    + apply Z.ltb_lt in E. constructor; [constructor; assumption |].
      constructor; [lia |]. revert Ha. apply Forall_impl. intro b. lia.
    + apply Z.ltb_ge in E. constructor; [exact IH |].
      apply Forall_forall. intros b Hb. apply insert_desc_in in Hb.
      destruct Hb as [-> | Hb]; [exact E |].
      rewrite Forall_forall in Ha. now apply Ha.
Qed.

Lemma order_by_desc_sorted {A : Type} (key : A -> Z) (l : list A) :
  StronglySorted (fun a b => key b <= key a) (order_by_desc key l).
Proof.
  induction l as [| a r IH]; [constructor |].
  cbn [order_by_desc fold_right]. now apply insert_desc_sorted.
Qed.

Lemma invoices_join_clients_in (s : store) (i : invoice_row) (c : client_row) :
  In (i, c) (invoices_join_clients s) <->
  In i (rows (invoices s)) /\ In c (rows (clients s)) /\ c_id c = i_client_id i.
Proof.
  unfold invoices_join_clients. rewrite in_flat_map. split.
  - intros (j & Hj & H). apply in_map_iff in H. destruct H as (c' & [= <- <-] & Hc).
    apply filter_In in Hc. destruct Hc as [Hc E]. apply Z.eqb_eq in E. tauto.
  - intros (Hi & Hc & E). exists i. split; [exact Hi |].
    apply in_map_iff. exists c. split; [reflexivity |].
    apply filter_In. split; [exact Hc | now apply Z.eqb_eq].
Qed.

Lemma list_item_id (row : invoice_row * client_row) : li_id (list_item row) = i_id (fst row).
Proof. now destruct row. Qed.

Lemma sorted_map {A B : Type} (f : A -> B) (R : B -> B -> Prop) (l : list A) :
  StronglySorted (fun a b => R (f a) (f b)) l -> StronglySorted R (map f l).
Proof.
  induction 1 as [| a r _ IH Ha]; cbn [map]; constructor; [exact IH |].
  apply Forall_forall. intros b Hb. apply in_map_iff in Hb. destruct Hb as (x & <- & Hx).
  rewrite Forall_forall in Ha. now apply Ha.
Qed.

(** X9: [list_invoices] answers with the summaries in descending order of
    id and leaves the store as it is; a summary is listed exactly when it
    is the summary of a stored invoice together with a stored client whose
    id is the invoice's client_id, so that an invoice whose client row is
    missing is not listed. *)
Theorem list_invoices_sorted_join (s : store) :
  exists l,
    list_invoices s = (s, Ok l) /\
    StronglySorted (fun a b => li_id b <= li_id a) l /\
    (forall e, In e l <->
               exists i c, In i (rows (invoices s)) /\ In c (rows (clients s)) /\
                           c_id c = i_client_id i /\ e = list_item (i, c)).
Proof.
  exists (map list_item (select_invoices_join_client s)). split; [reflexivity | split].
  - apply sorted_map.
    pose proof (order_by_desc_sorted (fun r : invoice_row * client_row => i_id (fst r))
                  (invoices_join_clients s)) as H.
    unfold select_invoices_join_client.
    induction H as [| a r Hr IH Ha]; constructor; [exact IH |].
    revert Ha. apply Forall_impl. intro b. now rewrite !list_item_id.
  - intro e. rewrite in_map_iff. unfold select_invoices_join_client. split.
    + intros ([i c] & <- & H). apply order_by_desc_in, invoices_join_clients_in in H.
      exists i, c. tauto.
    + intros (i & c & Hi & Hc & E & ->). exists (i, c). split; [reflexivity |].
      apply order_by_desc_in, invoices_join_clients_in. tauto.
Qed.

Lemma sorted_head_max {A : Type} (key : A -> Z) (x : A) (r : list A) (k : Z) :
  StronglySorted (fun a b => key b <= key a) (x :: r) ->
  (exists y, In y (x :: r) /\ key y = k) ->
  (forall y, In y (x :: r) -> key y <= k) ->
  key x = k.
Proof.
  intros Hs (y & Hy & Ek) Hmax. inversion Hs as [| ? ? _ Hx]; subst.
  pose proof (Hmax x (or_introl eq_refl)) as Hle.
  destruct Hy as [<- | Hy]; [reflexivity |].
  rewrite Forall_forall in Hx. specialize (Hx y Hy). lia.
Qed.

(** X10: after a create, the listing begins with the created invoice, its
    number and its total, and every entry after it has an id that is not
    above. *)
Theorem list_invoices_newest_first (invoice : InvoiceCreate) (s s' : store)
  (resp : InvoiceResponse) :
  create_invoice invoice s = (s', Ok resp) ->
  exists e rest,
    list_invoices s' = (s', Ok (e :: rest)) /\
    li_id e = resp_id resp /\
    li_invoice_no e = resp_invoice_no resp /\
    li_issue_date e = issue_date invoice /\
    li_due_date e = due_date invoice /\
    li_total e = resp_total resp /\
    Forall (fun x => li_id x <= resp_id resp) rest.
Proof.
  intro H. pose proof (create_invoice_ok_inv _ _ _ _ H) as Inv.
  destruct Inv as (_ & c & amounts & new & C & _ & Inv). cbn zeta in Inv.
  destruct Inv as (_ & _ & _ & Hc & Hinv & _ & _ & _ & Hid & Hno & Htot).
  set (row := created_row s invoice (c_address c)
                (PrimFloat.add (float_sum amounts) (tax invoice))) in *.
  assert (Hin : In (row, c) (select_invoices_join_client s')).
  { apply order_by_desc_in, invoices_join_clients_in. rewrite Hinv, Hc. split; [| split].
    - apply in_or_app. right. now left.
    - unfold select_client in C. apply find_some in C. tauto.
    - unfold select_client in C. apply find_some in C. destruct C as [_ C].
      apply Z.eqb_eq in C. exact C. }
  assert (Hmax : forall y, In y (select_invoices_join_client s') ->
                           i_id (fst y) <= i_id row).
  { intros [i c'] Hy. apply order_by_desc_in, invoices_join_clients_in in Hy.
    destruct Hy as (Hi & _). rewrite Hinv in Hi. apply in_app_or in Hi. cbn [fst].
    destruct Hi as [Hi | [<- | []]]; [| lia].
    apply (next_rowid_fresh i_id) in Hi. cbn [row created_row i_id]. lia. }
  pose proof (order_by_desc_sorted (fun r : invoice_row * client_row => i_id (fst r))
                (invoices_join_clients s')) as Hs.
  fold (select_invoices_join_client s') in Hs.
  destruct (select_invoices_join_client s') as [| [i c'] rest] eqn:L; [destruct Hin |].
  assert (Hk : i_id i = i_id row).
  { apply (sorted_head_max (fun r : invoice_row * client_row => i_id (fst r)) (i, c') rest).
    - exact Hs.
    - exists (row, c). split; [exact Hin | reflexivity].
    - exact Hmax. }
  assert (Hi : i = row).
  { assert (In (i, c') (select_invoices_join_client s')) as Hy by (rewrite L; now left).
    apply order_by_desc_in, invoices_join_clients_in in Hy. destruct Hy as (Hy & _).
    rewrite Hinv in Hy. apply in_app_or in Hy. destruct Hy as [Hy | [<- | []]]; [| reflexivity].
    apply (next_rowid_fresh i_id) in Hy. cbn [row created_row i_id] in Hk. lia. }
  subst i. exists (list_item (row, c')), (map list_item rest).
  split; [| repeat split].
  - unfold list_invoices, with_get_db, list_invoices_body, bind, read, ret. cbn [current].
    now rewrite L.
  - now rewrite Hid.
  - now rewrite Hno.
  - now rewrite Htot.
  - apply Forall_forall. intros x Hx. apply in_map_iff in Hx. destruct Hx as (y & <- & Hy).
    rewrite list_item_id, Hid. apply Hmax. now right.
Qed.

Lemma list_invoices_newest_first_witness :
  exists e rest,
    list_invoices (fst (create_invoice scenario_request scenario_store))
    = (fst (create_invoice scenario_request scenario_store), Ok (e :: rest)) /\
    li_id e = 1.
Proof.
  destruct (create_invoice scenario_request scenario_store) as [s' r] eqn:E.
  assert (exists resp, r = Ok resp /\ resp_id resp = 1) as (resp & -> & Hid).
  { vm_compute in E. injection E as <- <-. eexists. split; reflexivity. }
  destruct (list_invoices_newest_first _ _ _ _ E) as (e & rest & L & Hi & _).
  exists e, rest. cbn [fst]. split; [exact L | congruence].
Defined.

(** ** Reading one invoice *)

Lemma select_invoice_join_client_none (id : Z) (s : store) :
  select_invoice_join_client id s = None <->
  forall i c, In i (rows (invoices s)) -> i_id i = id ->
              In c (rows (clients s)) -> c_id c <> i_client_id i.
Proof.
  unfold select_invoice_join_client. split.
  - intros H i c Hi Eid Hc E.
    assert (In (i, c)
              (flat_map (fun i => map (pair i)
                           (filter (fun c => c_id c =? i_client_id i) (rows (clients s))))
                        (filter (fun i => i_id i =? id) (rows (invoices s))))) as Hin.
    { apply in_flat_map. exists i. split.
      - apply filter_In. split; [exact Hi | now apply Z.eqb_eq].
      - apply in_map_iff. exists c. split; [reflexivity |].
        apply filter_In. split; [exact Hc | now apply Z.eqb_eq]. }
    destruct (flat_map _ _); [destruct Hin | discriminate].
  - intro H. destruct (flat_map _ _) as [| [i c] rest] eqn:F; [reflexivity |]. exfalso.
    assert (In (i, c) ((i, c) :: rest)) as Hin by now left.
    rewrite <- F in Hin. apply in_flat_map in Hin. destruct Hin as (j & Hj & Hm).
    apply in_map_iff in Hm. destruct Hm as (c' & [= <- <-] & Hc).
    apply filter_In in Hj, Hc. destruct Hj as [Hj Ej], Hc as [Hc Ec].
    apply Z.eqb_eq in Ej, Ec. exact (H j c' Hj Ej Hc Ec).
Qed.

(** X11: [get_invoice] leaves the store as it is.  On an id that is not a
    64-bit integer it answers 500.  On one that is, it answers 404 exactly
    when no stored invoice with that id has its client row, also when the
    invoice row itself is there, and 404 is the only error.  When it
    answers with an invoice, that is the id asked for, the number, dates,
    address, tax and total of a stored invoice with that id, and items
    that all belong to it. *)
Theorem get_invoice_found_iff (id : Z) (s : store) :
  fst (get_invoice id s) = s /\
  (Sql.is_int64 id = false ->
   snd (get_invoice id s)
   = Raise (mk_http_exception 500
              "Database error: Python int too large to convert to SQLite INTEGER")) /\
  (Sql.is_int64 id = true ->
   (snd (get_invoice id s) = Raise not_found <->
    forall i c, In i (rows (invoices s)) -> i_id i = id ->
                In c (rows (clients s)) -> c_id c <> i_client_id i) /\
   (forall e, snd (get_invoice id s) = Raise e -> e = not_found)) /\
  (forall resp,
      snd (get_invoice id s) = Ok resp ->
      Sql.is_int64 id = true /\
      resp_id resp = id /\
      (exists i, In i (rows (invoices s)) /\ i_id i = id /\
                 resp_invoice_no resp = i_invoice_no i /\
                 resp_issue_date resp = i_issue_date i /\
                 resp_due_date resp = i_due_date i /\
                 resp_address resp = i_address i /\
                 resp_tax resp = i_tax i /\
                 resp_total resp = i_total i /\
                 client_resp_id (resp_client resp) = i_client_id i) /\
      Forall (fun r => exists ii, In ii (items_of s id) /\
                                  item_id r = ii_id ii /\
                                  item_product_id r = ii_product_id ii /\
                                  item_quantity r = ii_quantity ii /\
                                  item_unit_price r = ii_unit_price ii /\
                                  item_subtotal r = ii_subtotal ii)
             (resp_items resp)).
Proof.
  rewrite <- select_invoice_join_client_none.
  destruct (get_invoice_cases id s) as [[Hf E] | [Ht E]]; rewrite E; cbn [fst snd].
  - split; [reflexivity |]. split; [reflexivity |]. split; [congruence | discriminate].
  - split; [reflexivity |]. split; [congruence |].
    destruct (select_invoice_join_client id s) as [[i c] |] eqn:J.
    + split; [intros _; split; [split; discriminate | discriminate] |].
      intros resp [= <-]. split; [exact Ht |].
      assert (In (i, c)
                (flat_map (fun i => map (pair i)
                             (filter (fun c => c_id c =? i_client_id i) (rows (clients s))))
                          (filter (fun i => i_id i =? id) (rows (invoices s))))) as Hin.
      { unfold select_invoice_join_client in J. destruct (flat_map _ _); [discriminate |].
        cbn in J. injection J as ->. now left. }
      apply in_flat_map in Hin. destruct Hin as (j & Hj & Hm).
      apply in_map_iff in Hm. destruct Hm as (c' & [= <- <-] & _).
      apply filter_In in Hj. destruct Hj as [Hj Ej]. apply Z.eqb_eq in Ej.
      cbn [build_response resp_id resp_items]. split; [exact Ej | split].
      * exists j. repeat split; assumption.
      * apply Forall_forall. intros r Hr. apply in_map_iff in Hr.
        destruct Hr as ([ii p] & <- & Hr). unfold select_items_join_product in Hr.
        apply in_flat_map in Hr. destruct Hr as (ii' & Hii & Hm).
        apply in_map_iff in Hm. destruct Hm as (p' & [= <- <-] & _).
        exists ii'. split; [exact Hii | repeat split].
    + split; [| discriminate]. intros _. split; [split; reflexivity |].
      now intros e [= <-].
Qed.

Lemma get_invoice_found_iff_witness :
  Sql.is_int64 1 = true /\
  snd (get_invoice 1
         (mk_store (products scenario_store) empty_table
            (invoices (fst (create_invoice scenario_request scenario_store)))
            (invoice_items (fst (create_invoice scenario_request scenario_store)))))
  = Raise not_found.
Proof.
  split; [reflexivity |].
  apply (proj2 (proj1 (proj1 (proj2 (proj2 (get_invoice_found_iff 1 _))) eq_refl))).
  intros i c _ _ [].
Defined.

(** X18: in every store the API reaches from empty invoice tables, no two
    stored invoices carry the same number, nor the same numeric suffix,
    and the number a successful create assigns is not the number of a
    stored invoice: its numeric suffix is at least 1 and strictly greater
    than the suffix of every invoice stored at that moment. *)
Theorem assigned_number_exceeds_stored (s : store) :
  reachable s ->
  NoDup (map i_invoice_no (rows (invoices s))) /\
  NoDup (map decimal_suffix (map i_invoice_no (rows (invoices s)))) /\
  forall invoice s' resp,
    create_invoice invoice s = (s', Ok resp) ->
    1 <= decimal_suffix (resp_invoice_no resp) /\
    (forall i, In i (rows (invoices s)) ->
               decimal_suffix (i_invoice_no i) < decimal_suffix (resp_invoice_no resp)) /\
    ~ In (resp_invoice_no resp) (map i_invoice_no (rows (invoices s))) /\
    In (resp_invoice_no resp) (map i_invoice_no (rows (invoices s'))).
Proof.
  intro R. destruct (reachable_invariant s R) as (Hnum & Hnd & _).
  split; [exact Hnd | split].
  - apply NoDup_map_inj_on; [| exact Hnd].
    intros x y Hx Hy E. apply in_map_iff in Hx, Hy.
    destruct Hx as (i & <- & Hi), Hy as (j & <- & Hj).
    destruct (Hnum i Hi) as (n & Hn & En), (Hnum j Hj) as (m & Hm & Em).
    rewrite En, Em in *. rewrite !decimal_suffix_invoice_no_of in E by lia. now subst.
  - intros invoice s' resp C. apply create_invoice_ok_inv in C.
    destruct C as (_ & c & amounts & new & _ & _ & C). cbn zeta in C.
    destruct C as (_ & U & _ & _ & Hinv & _ & _ & _ & _ & Hno & _).
    cbn [created_row i_invoice_no] in Hno.
    destruct (max_num_bounds s Hnum) as [Hb Hle].
    apply not_stored_number in U.
    rewrite Hno, get_next_invoice_number_max_num in *.
    rewrite decimal_suffix_invoice_no_of by lia.
    split; [lia | split; [| split; [exact U |]]].
    + intros i Hi. destruct (Hnum i Hi) as (n & Hn & En).
      pose proof (Hle i Hi) as Hs. rewrite En in *.
      rewrite decimal_suffix_invoice_no_of by lia.
      rewrite suffix_number_invoice_no_of in Hs by lia.
      destruct (Z.eq_dec n (max_num s + 1)) as [-> | Hne]; [| unfold Sql.INT64_MAX in *; lia].
      exfalso. apply U. apply in_map_iff. now exists i.
    + rewrite Hinv, map_app. apply in_or_app. right. now left.
Qed.

Lemma assigned_number_exceeds_stored_witness :
  reachable (fst (create_invoice scenario_request scenario_store)) /\
  NoDup (map i_invoice_no
             (rows (invoices (fst (create_invoice scenario_request scenario_store))))).
Proof.
  assert (R : reachable (fst (create_invoice scenario_request scenario_store))).
  { eapply reach_create with (s := scenario_store) (invoice := scenario_request).
    - apply reach_empty.
    - vm_compute. reflexivity. }
  split; [exact R | exact (proj1 (assigned_number_exceeds_stored _ R))].
Defined.

(* ------------------------------------------------------------------ *)
(** * Further properties of the migration units *)

Lemma unit_upgrade_shape (u : Migrations.migration_unit) :
  In u Migrations.migration_units ->
  Migrations.unit_upgrade u
  = Migrations.apply_unit (Migrations.unit_name u) (Migrations.unit_forward u) /\
  forall d d', Migrations.unit_forward u d = inr d' ->
               Migrations.ledger d' = Migrations.ledger d.
Proof.
  intro Hu. cbn in Hu. split.
  - repeat destruct Hu as [<- | Hu]; try reflexivity. destruct Hu.
  - intros d d'.
    repeat destruct Hu as [<- | Hu]; try destruct Hu;
      cbn [Migrations.unit_forward]; try (now intros [= <-]).
    unfold Migrations.M006.forward.
    destruct (Migrations.db_products d); [| discriminate].
    destruct (Migrations.db_clients d); [| discriminate].
    now intros [= <-].
Qed.

(** X12: an [upgrade] never takes a name out of the ledger and never puts
    a name in twice: the ledger it leaves is the ledger it found, or that
    ledger with the unit's name, which was not there, at its end. *)
Theorem upgrade_keeps_ledger (u : Migrations.migration_unit) (d : Migrations.db)
  (l : list string) :
  In u Migrations.migration_units ->
  Migrations.ledger d = Some l ->
  (Migrations.ledger (snd (Migrations.unit_upgrade u d)) = Some l \/
   (Migrations.ledger (snd (Migrations.unit_upgrade u d))
    = Some (l ++ [Migrations.unit_name u]) /\ ~ In (Migrations.unit_name u) l)) /\
  (NoDup l ->
   exists l', Migrations.ledger (snd (Migrations.unit_upgrade u d)) = Some l' /\ NoDup l').
Proof.
  intros Hu L. destruct (unit_upgrade_shape u Hu) as [-> Hled].
  assert (Cases : Migrations.ledger
                    (snd (Migrations.apply_unit (Migrations.unit_name u)
                            (Migrations.unit_forward u) d)) = Some l \/
                  (Migrations.ledger
                     (snd (Migrations.apply_unit (Migrations.unit_name u)
                             (Migrations.unit_forward u) d))
                   = Some (l ++ [Migrations.unit_name u]) /\
                   ~ In (Migrations.unit_name u) l)).
  { unfold Migrations.apply_unit. rewrite L.
    destruct (existsb (String.eqb (Migrations.unit_name u)) l) eqn:E; [now left |].
    destruct (Migrations.unit_forward u d) as [msg | d'] eqn:F; [now left |].
    rewrite (Hled d d' F), L. right. split; [reflexivity |].
    intro H. apply (existsb_eqb_in (Migrations.unit_name u)) in H. congruence. }
  split; [exact Cases |].
  intro Hnd. destruct Cases as [-> | [-> Hn]].
  - now exists l.
  - eexists. split; [reflexivity |]. now apply NoDup_snoc.
Qed.

Lemma upgrade_keeps_ledger_witness :
  Migrations.ledger (snd (Migrations.M002.upgrade Migrations.fresh_db))
  = Some [Migrations.M002.name] /\
  exists l', Migrations.ledger (snd (Migrations.M002.upgrade Migrations.fresh_db)) = Some l'
             /\ NoDup l'.
Proof.
  split; [reflexivity |].
  exact (proj2 (upgrade_keeps_ledger
                  (Migrations.mk_unit Migrations.M002.name Migrations.M002.forward
                                      Migrations.M002.upgrade)
                  Migrations.fresh_db [] (or_introl eq_refl) eq_refl)
               (NoDup_nil string)).
Defined.

Lemma executemany_map {row A B : Type} (id : row -> Z) (mk : A -> Z -> row)
  (f : row -> B) (g : A -> B) (l : list A) :
  (forall a k, f (mk a k) = g a) ->
  forall t, map f (rows (Migrations.executemany id mk l t)) = map f (rows t) ++ map g l.
Proof.
  intro H. unfold Migrations.executemany.
  induction l as [| a r IH]; intro t; cbn [fold_left map].
  - now rewrite app_nil_r.
  - rewrite IH. cbn [insert_row snd rows]. rewrite map_app, <- app_assoc. cbn [map app].
    now rewrite H.
Qed.

(** X13: on a database whose ledger has none of the five names, the five
    units run in order all apply: the ledger gets the five names in order
    at its end, the tables that were missing are created, the tables that
    were there are kept, and the seed rows follow the rows that the
    products and clients tables already had. *)
Theorem upgrade_all_applies (d : Migrations.db) (l : list string) :
  Migrations.ledger d = Some l ->
  (forall u, In u Migrations.migration_units -> ~ In (Migrations.unit_name u) l) ->
  Migrations.ledger (upgrade_all d)
  = Some (l ++ map Migrations.unit_name Migrations.migration_units) /\
  Migrations.db_invoices (upgrade_all d)
  = Migrations.create_if_not_exists (Migrations.db_invoices d) /\
  Migrations.db_invoice_items (upgrade_all d)
  = Migrations.create_if_not_exists (Migrations.db_invoice_items d) /\
  (exists p p', Migrations.create_if_not_exists (Migrations.db_products d) = Some p /\
                Migrations.db_products (upgrade_all d) = Some p' /\
                map p_name (rows p')
                = map p_name (rows p) ++ map fst Migrations.M006.seed_products) /\
  (exists c c', Migrations.create_if_not_exists (Migrations.db_clients d) = Some c /\
                Migrations.db_clients (upgrade_all d) = Some c' /\
                map c_name (rows c')
                = map c_name (rows c) ++ map (fun a => fst (fst a)) Migrations.M006.seed_clients).
Proof.
  intros L Hn.
  assert (P2 : ~ In Migrations.M002.name l)
    by (apply (Hn (Migrations.mk_unit Migrations.M002.name Migrations.M002.forward
                     Migrations.M002.upgrade)); cbn; tauto).
  assert (P3 : ~ In Migrations.M003.name l)
    by (apply (Hn (Migrations.mk_unit Migrations.M003.name Migrations.M003.forward
                     Migrations.M003.upgrade)); cbn; tauto).
  assert (P4 : ~ In Migrations.M004.name l)
    by (apply (Hn (Migrations.mk_unit Migrations.M004.name Migrations.M004.forward
                     Migrations.M004.upgrade)); cbn; tauto).
  assert (P5 : ~ In Migrations.M005.name l)
    by (apply (Hn (Migrations.mk_unit Migrations.M005.name Migrations.M005.forward
                     Migrations.M005.upgrade)); cbn; tauto).
  assert (P6 : ~ In Migrations.M006.name l)
    by (apply (Hn (Migrations.mk_unit Migrations.M006.name Migrations.M006.forward
                     Migrations.M006.upgrade)); cbn; tauto).
  destruct d as [led pr cl inv itm]. cbn [Migrations.ledger] in L. subst led.
  unfold upgrade_all. cbn [Migrations.migration_units fold_left Migrations.unit_upgrade].
  unfold Migrations.M002.upgrade, Migrations.M003.upgrade, Migrations.M004.upgrade,
    Migrations.M005.upgrade, Migrations.M006.upgrade.
  destruct pr as [p |], cl as [c |];
    unit_applies apply_unit_applies Migrations.M002.name;
    unit_applies apply_unit_applies Migrations.M003.name;
    unit_applies apply_unit_applies Migrations.M004.name;
    unit_applies apply_unit_applies Migrations.M005.name;
    unit_applies apply_unit_applies Migrations.M006.name;
    cbn [Migrations.create_if_not_exists Migrations.M005.forward Migrations.M004.forward
         Migrations.M003.forward Migrations.M002.forward Migrations.ledger
         Migrations.db_products Migrations.db_clients Migrations.db_invoices
         Migrations.db_invoice_items];
    (split; [rewrite <- !app_assoc; reflexivity |]);
    (split; [reflexivity |]); (split; [reflexivity |]);
    (split; eexists; eexists; (split; [reflexivity |]); (split; [reflexivity |]));
    apply executemany_map; reflexivity.
Qed.

Lemma upgrade_all_applies_witness :
  Migrations.ledger (upgrade_all Migrations.fresh_db)
  = Some (map Migrations.unit_name Migrations.migration_units).
Proof.
  refine (proj1 (upgrade_all_applies Migrations.fresh_db [] eq_refl _)).
  intros u _ [].
Defined.

Lemma remove_name_absent (name : string) (l : list string) :
  ~ In name (Downgrade.remove_name name l).
Proof.
  unfold Downgrade.remove_name. intro H. apply filter_In in H. destruct H as [_ H].
  now rewrite String.eqb_refl in H.
Qed.

Lemma remove_name_fresh (name : string) (l : list string) :
  ~ In name l -> Downgrade.remove_name name l = l.
Proof.
  intro H. unfold Downgrade.remove_name. apply filter_all. apply Forall_forall.
  intros n Hn. apply negb_true_iff. apply String.eqb_neq. intros ->. contradiction.
Qed.

Lemma remove_name_added (name : string) (l : list string) :
  ~ In name l -> Downgrade.remove_name name (l ++ [name]) = l.
Proof.
  intro H. unfold Downgrade.remove_name. rewrite filter_app. cbn [filter].
  rewrite String.eqb_refl. cbn [negb]. rewrite app_nil_r. now apply remove_name_fresh.
Qed.

(** X14: the [downgrade] of a table unit does not look at the ledger before
    it drops: with a ledger table it ends with the unit's table gone and
    the unit's name out of the ledger, whether the name was in it or not,
    and a second run changes nothing more; without a ledger table it
    raises, and the table is dropped all the same. *)
Theorem downgrade_drops_unconditionally (u : table_unit) (d : Migrations.db) :
  In u table_units ->
  t_absent u (snd (t_downgrade u d)) = true /\
  (forall l, Migrations.ledger d = Some l ->
     t_downgrade u d
     = (Migrations.Applied, Migrations.set_ledger (t_drop u d)
                              (Downgrade.remove_name (t_name u) l)) /\
     ~ In (t_name u) (Downgrade.remove_name (t_name u) l) /\
     t_downgrade u (snd (t_downgrade u d))
     = (Migrations.Applied, snd (t_downgrade u d))) /\
  (Migrations.ledger d = None ->
     t_downgrade u d = (Migrations.Failed "no such table: _migrations", t_drop u d)).
Proof.
  intro Hu. cbn in Hu.
  repeat destruct Hu as [<- | Hu]; try destruct Hu;
    cbn [t_absent t_downgrade t_drop t_name];
    unfold Downgrade.M002.downgrade, Downgrade.M003.downgrade, Downgrade.M004.downgrade,
      Downgrade.M005.downgrade, Downgrade.revert_table;
    destruct d as [[l |] pr cl inv itm]; cbn;
    (split; [reflexivity |]);
    (split; [| intro H; try discriminate H; reflexivity]);
    intros l' H; try discriminate H; injection H as <-;
    (split; [reflexivity |]); (split; [apply remove_name_absent |]);
    rewrite (remove_name_fresh _ _ (remove_name_absent _ l)); reflexivity.
Qed.

Lemma downgrade_drops_unconditionally_witness :
  Migrations.db_products (snd (Downgrade.M002.downgrade
                                 (snd (Migrations.M002.upgrade Migrations.fresh_db)))) = None /\
  Migrations.db_products
    (snd (Downgrade.M002.downgrade
            (Migrations.mk_db None (Some empty_table) None None None))) = None.
Proof.
  split.
  - pose proof (proj1 (downgrade_drops_unconditionally
                         (mk_table_unit Migrations.M002.name Migrations.M002.upgrade
                            Downgrade.M002.drop Downgrade.M002.downgrade
                            (fun d => is_none (Migrations.db_products d)))
                         (snd (Migrations.M002.upgrade Migrations.fresh_db))
                         (or_introl eq_refl))) as H.
    cbn [t_absent t_downgrade] in H.
    destruct (Migrations.db_products _); [discriminate H | reflexivity].
  - reflexivity.
Defined.

(** X15: on a database where the unit's table is missing and the ledger
    has not the unit's name, the unit's [upgrade] followed by its
    [downgrade] gives the database back. *)
Theorem upgrade_then_downgrade (u : table_unit) (d : Migrations.db) (l : list string) :
  In u table_units ->
  Migrations.ledger d = Some l -> ~ In (t_name u) l -> t_absent u d = true ->
  fst (t_upgrade u d) = Migrations.Applied /\
  fst (t_downgrade u (snd (t_upgrade u d))) = Migrations.Applied /\
  snd (t_downgrade u (snd (t_upgrade u d))) = d.
Proof.
  intros Hu L Hn Ha. cbn in Hu.
  destruct d as [led pr cl inv itm]. cbn [Migrations.ledger] in L. subst led.
  repeat destruct Hu as [<- | Hu]; try destruct Hu;
    cbn [t_absent t_downgrade t_upgrade t_name] in *;
    unfold Migrations.M002.upgrade, Migrations.M003.upgrade, Migrations.M004.upgrade,
      Migrations.M005.upgrade;
    (erewrite apply_unit_applies; [| reflexivity | exact Hn | reflexivity | reflexivity]);
    cbn [fst snd];
    unfold Downgrade.M002.downgrade, Downgrade.M003.downgrade, Downgrade.M004.downgrade,
      Downgrade.M005.downgrade, Downgrade.revert_table;
    cbn; rewrite (remove_name_added _ _ Hn);
    cbn in Ha;
    [destruct pr | destruct cl | destruct inv | destruct itm];
    try discriminate Ha; repeat split.
Qed.

Lemma upgrade_then_downgrade_witness :
  snd (Downgrade.M004.downgrade (snd (Migrations.M004.upgrade Migrations.fresh_db)))
  = Migrations.fresh_db.
Proof.
  refine (proj2 (proj2 (upgrade_then_downgrade
            (mk_table_unit Migrations.M004.name Migrations.M004.upgrade
               Downgrade.M004.drop Downgrade.M004.downgrade
               (fun d => is_none (Migrations.db_invoices d)))
            Migrations.fresh_db [] _ eq_refl _ eq_refl))).
  - cbn. tauto.
  - intros [].
Defined.

(** ** The seed unit *)

Lemma fold_max_snoc (l : list Z) (b k : Z) :
  fold_right Z.max b l < k -> fold_right Z.max k (l ++ [k]) = k.
Proof.
  induction l as [| a r IH]; cbn [app fold_right]; intro H; [lia |].
  rewrite IH; lia.
Qed.

Lemma last_rowid_insert {row : Type} (id : row -> Z) (mk : Z -> row) (t : table row) :
  (forall k, id (mk k) = k) ->
  last_rowid id (snd (insert_row id t mk)) = last_rowid id t + 1 /\
  seq (snd (insert_row id t mk)) = last_rowid id t + 1.
Proof.
  intro H. unfold insert_row, last_rowid, next_rowid. cbn [snd rows seq].
  rewrite map_app. cbn [map]. rewrite H.
  rewrite (fold_max_snoc _ (seq t)); lia.
Qed.

(** [executemany] appends one row per element, with the rowids that follow
    the largest rowid of the table, and leaves the sequence at the last. *)
Lemma executemany_rowids {row A : Type} (id : row -> Z) (mk : A -> Z -> row) (l : list A) :
  (forall a k, id (mk a k) = k) ->
  forall t, exists new,
    rows (Migrations.executemany id mk l t) = rows t ++ new /\
    map id new = rowids_after (last_rowid id t) (List.length l) /\
    last_rowid id (Migrations.executemany id mk l t)
    = last_rowid id t + Z.of_nat (List.length l) /\
    (l <> [] -> seq (Migrations.executemany id mk l t)
                = last_rowid id t + Z.of_nat (List.length l)).
Proof.
  intro H. unfold Migrations.executemany.
  induction l as [| a r IH]; intro t.
  - exists []. cbn. rewrite app_nil_r, Z.add_0_r. repeat split. intro N. now elim N.
  - cbn [fold_left]. destruct (IH (snd (insert_row id t (mk a)))) as (new & Hr & Hi & Hl & Hs).
    destruct (last_rowid_insert id (mk a) t (H a)) as [Hlast Hseq].
    exists (mk a (next_rowid id t) :: new). split; [| split; [| split]].
    + rewrite Hr. cbn [insert_row snd rows]. now rewrite <- app_assoc.
    + cbn [map List.length rowids_after]. rewrite H, Hi, Hlast. f_equal.
      unfold next_rowid, last_rowid. lia.
    + rewrite Hl, Hlast. cbn [List.length]. lia.
    + intros _. destruct r as [| b r'].
      * cbn [fold_left List.length]. rewrite Hseq. lia.
      * rewrite Hs by discriminate. rewrite Hlast. cbn [List.length]. lia.
Qed.

(** The database the seed unit leaves when it applies. *)
Lemma seed_upgrade_applied (d : Migrations.db) (l : list string)
  (p : table product_row) (c : table client_row) :
  Migrations.ledger d = Some l -> ~ In Migrations.M006.name l ->
  Migrations.db_products d = Some p -> Migrations.db_clients d = Some c ->
  Migrations.M006.upgrade d
  = (Migrations.Applied,
     Migrations.mk_db (Some (l ++ [Migrations.M006.name]))
       (Some (Migrations.executemany p_id
                (fun a k => mk_product k (fst a) (Sql.real (snd a)))
                Migrations.M006.seed_products p))
       (Some (Migrations.executemany c_id
                (fun a k => mk_client k (fst (fst a)) (snd (fst a)) (snd a))
                Migrations.M006.seed_clients c))
       (Migrations.db_invoices d) (Migrations.db_invoice_items d)).
Proof.
  intros L Hn P C. destruct d as [led pr cl inv itm].
  cbn [Migrations.ledger Migrations.db_products Migrations.db_clients] in L, P, C. subst.
  unfold Migrations.M006.upgrade.
  erewrite apply_unit_applies; [| reflexivity | exact Hn | reflexivity | reflexivity].
  reflexivity.
Qed.

(** X16: when the seed unit applies, every product and client row that was
    there stays, and the eight products and five clients of the unit are
    added after them, in the order of the unit, with the rowids that follow
    the largest rowid each table has had. *)
Theorem seed_upgrade_appends (d : Migrations.db) (l : list string)
  (p : table product_row) (c : table client_row) :
  Migrations.ledger d = Some l -> ~ In Migrations.M006.name l ->
  Migrations.db_products d = Some p -> Migrations.db_clients d = Some c ->
  exists d' p' c' newp newc,
    Migrations.M006.upgrade d = (Migrations.Applied, d') /\
    Migrations.ledger d' = Some (l ++ [Migrations.M006.name]) /\
    Migrations.db_products d' = Some p' /\ Migrations.db_clients d' = Some c' /\
    rows p' = rows p ++ newp /\ rows c' = rows c ++ newc /\
    map p_id newp = rowids_after (last_rowid p_id p) 8 /\
    map p_name newp = map fst Migrations.M006.seed_products /\
    map p_price newp = map snd Migrations.M006.seed_products /\
    map c_id newc = rowids_after (last_rowid c_id c) 5 /\
    map c_name newc = map (fun a => fst (fst a)) Migrations.M006.seed_clients /\
    seq p' = last_rowid p_id p + 8 /\ seq c' = last_rowid c_id c + 5 /\
    Migrations.db_invoices d' = Migrations.db_invoices d /\
    Migrations.db_invoice_items d' = Migrations.db_invoice_items d.
Proof.
  intros L Hn P C. destruct d as [led pr cl inv itm].
  cbn [Migrations.ledger Migrations.db_products Migrations.db_clients] in L, P, C. subst.
  set (mkp := fun (a : string * float) k => mk_product k (fst a) (Sql.real (snd a))).
  set (mkc := fun (a : string * string * string) k =>
                mk_client k (fst (fst a)) (snd (fst a)) (snd a)).
  destruct (executemany_rowids p_id mkp Migrations.M006.seed_products
              (fun _ _ => eq_refl) p) as (newp & Hrp & Hip & _ & Hsp).
  destruct (executemany_rowids c_id mkc Migrations.M006.seed_clients
              (fun _ _ => eq_refl) c) as (newc & Hrc & Hic & _ & Hsc).
  pose proof (executemany_map p_id mkp p_name fst Migrations.M006.seed_products
                (fun _ _ => eq_refl) p) as Hnp.
  pose proof (executemany_map p_id mkp p_price (fun a => Sql.real (snd a))
                Migrations.M006.seed_products (fun _ _ => eq_refl) p) as Hpp.
  pose proof (executemany_map c_id mkc c_name (fun a => fst (fst a))
                Migrations.M006.seed_clients (fun _ _ => eq_refl) c) as Hnc.
  rewrite Hrp, map_app in Hnp, Hpp. rewrite Hrc, map_app in Hnc.
  apply app_inv_head in Hnp, Hpp, Hnc.
  change (map (fun a : string * float => Sql.real (snd a)) Migrations.M006.seed_products)
    with (map snd Migrations.M006.seed_products) in Hpp.
  eexists. exists (Migrations.executemany p_id mkp Migrations.M006.seed_products p),
    (Migrations.executemany c_id mkc Migrations.M006.seed_clients c), newp, newc.
  split; [apply (seed_upgrade_applied _ l p c); [reflexivity | exact Hn | reflexivity | reflexivity] |].
  cbn [Migrations.set_ledger Migrations.ledger Migrations.db_products Migrations.db_clients
       Migrations.db_invoices Migrations.db_invoice_items].
  repeat split; try assumption.
  - rewrite Hsp by discriminate. reflexivity.
  - rewrite Hsc by discriminate. reflexivity.
Qed.

Lemma seed_upgrade_appends_witness :
  exists d', Migrations.M006.upgrade
               (Migrations.mk_db (Some []) (Some empty_table) (Some empty_table) None None)
             = (Migrations.Applied, d').
Proof.
  destruct (seed_upgrade_appends
              (Migrations.mk_db (Some []) (Some empty_table) (Some empty_table) None None)
              [] empty_table empty_table eq_refl (fun H => H) eq_refl eq_refl)
    as (d' & _ & _ & _ & _ & H & _).
  now exists d'.
Defined.

(** X17: the [downgrade] of the seed unit, run after its [upgrade], puts
    the ledger back but empties the products and clients tables, the rows
    that were there before the unit applied included, and keeps their
    sequences: a later [upgrade] gives the seed products the rowids after
    the ones they had, not those again. *)
Theorem seed_downgrade_wipes (d : Migrations.db) (l : list string)
  (p : table product_row) (c : table client_row) :
  Migrations.ledger d = Some l -> ~ In Migrations.M006.name l ->
  Migrations.db_products d = Some p -> Migrations.db_clients d = Some c ->
  exists d2 d3 p3,
    Downgrade.M006.downgrade (snd (Migrations.M006.upgrade d)) = (Migrations.Applied, d2) /\
    Migrations.ledger d2 = Some l /\
    Migrations.db_products d2 = Some (mk_table [] (last_rowid p_id p + 8)) /\
    Migrations.db_clients d2 = Some (mk_table [] (last_rowid c_id c + 5)) /\
    Migrations.db_invoices d2 = Migrations.db_invoices d /\
    Migrations.db_invoice_items d2 = Migrations.db_invoice_items d /\
    Migrations.M006.upgrade d2 = (Migrations.Applied, d3) /\
    Migrations.db_products d3 = Some p3 /\
    map p_id (rows p3) = rowids_after (last_rowid p_id p + 8) 8.
Proof.
  intros L Hn P C.
  set (mkp := fun (a : string * float) k => mk_product k (fst a) (Sql.real (snd a))).
  set (mkc := fun (a : string * string * string) k =>
                mk_client k (fst (fst a)) (snd (fst a)) (snd a)).
  destruct (executemany_rowids p_id mkp Migrations.M006.seed_products
              (fun _ _ => eq_refl) p) as (_ & _ & _ & _ & Sp).
  destruct (executemany_rowids c_id mkc Migrations.M006.seed_clients
              (fun _ _ => eq_refl) c) as (_ & _ & _ & _ & Sc).
  rewrite (seed_upgrade_applied d l p c L Hn P C). cbn [snd].
  unfold Downgrade.M006.downgrade.
  cbn [Migrations.ledger Migrations.db_products Migrations.db_clients
       Migrations.db_invoices Migrations.db_invoice_items].
  rewrite (remove_name_added _ _ Hn). unfold Downgrade.M006.delete_all.
  fold mkp mkc. rewrite Sp, Sc by discriminate.
  change (Z.of_nat (List.length Migrations.M006.seed_products)) with 8.
  change (Z.of_nat (List.length Migrations.M006.seed_clients)) with 5.
  set (p2 := mk_table (@nil product_row) (last_rowid p_id p + 8)).
  set (c2 := mk_table (@nil client_row) (last_rowid c_id c + 5)).
  set (d2 := Migrations.mk_db (Some l) (Some p2) (Some c2)
               (Migrations.db_invoices d) (Migrations.db_invoice_items d)).
  destruct (executemany_rowids p_id mkp Migrations.M006.seed_products
              (fun _ _ => eq_refl) p2) as (new & Rp & Ip & _).
  eexists. eexists. eexists.
  split; [reflexivity |].
  split; [reflexivity |]. split; [reflexivity |]. split; [reflexivity |].
  split; [reflexivity |]. split; [reflexivity |].
  split; [exact (seed_upgrade_applied d2 l p2 c2 eq_refl Hn eq_refl eq_refl) |].
  split; [reflexivity |].
  fold mkp. rewrite Rp. cbn [p2 rows app]. exact Ip.
Qed.

Lemma seed_downgrade_wipes_witness :
  exists d2,
    Downgrade.M006.downgrade (snd (Migrations.M006.upgrade
      (Migrations.mk_db (Some []) (Some empty_table) (Some empty_table) None None)))
    = (Migrations.Applied, d2) /\
    Migrations.db_products d2 = Some (mk_table [] 8).
Proof.
  destruct (seed_downgrade_wipes
              (Migrations.mk_db (Some []) (Some empty_table) (Some empty_table) None None)
              [] empty_table empty_table eq_refl (fun H => H) eq_refl eq_refl)
    as (d2 & _ & _ & D & _ & P & _).
  exists d2. split; [exact D | exact P].
Defined.
